(** * A shallow embedding of the sleepys_chess rules engine

    The development follows the package layout of the Python sources:
    [pieces.py], [utils.py], [board.py], [moves.py], [moverules.py],
    [parsing.py] and [gamerules.py].  Python objects that are mutated in
    place (a [GameState] and everything reachable from it) live in an explicit
    store, so that aliasing and [copy.deepcopy] are visible in the model;
    Python exceptions are values of type [exn].

    Modelling conventions.
    - Python [str] values are [string]s of 7-bit ASCII characters.
    - A function that returns [None] where its callers only test truthiness
      is modelled as returning [false].
    - [print] calls are not modelled.
    - The two [while] loops of the attack generators run on a number of
      rounds that is shown to be enough ([ray_fuel_enough]).
    - The order in which Python iterates over a set of strings is a
      parameter, [set_order].
    - [Board.render], [Piece.__str__] and the interactive loop of
      [engine.py] are left out. *)

From stdpp Require Import base option list gmap strings.
From Stdlib Require Import ZArith Ascii String Lia.

Local Open Scope string_scope.
Local Open Scope list_scope.
Local Open Scope Z_scope.

(** ** Exceptions and the error monad *)

Inductive exn : Type :=
  | ValueError
  | KeyError
  | IndexError
  | AttributeError
  | TypeError
  | UnboundLocalError
  | Exception (msg : string)
  | DanglingReference.

Inductive result (A : Type) : Type :=
  | Ok (a : A)
  | Raise (e : exn).
Arguments Ok {A} a.
Arguments Raise {A} e.

#[global] Instance result_ret : MRet result := λ A a, Ok a.
#[global] Instance result_bind : MBind result := λ A B f r,
  match r with
  | Ok a => f a
  | Raise e => Raise e
  end.

(** A Python [for] loop that appends to one output list; the first iteration
    that raises aborts the loop. *)
Fixpoint collect {A B : Type} (f : A → result (list B)) (l : list A)
  : result (list B) :=
  match l with
  | [] => Ok []
  | a :: l' => xs ← f a; ys ← collect f l'; Ok (xs ++ ys)
  end.

(** ** Python built-ins on strings and integers *)

Module Py.

Definition chars (s : string) : list ascii := list_ascii_of_string s.
Definition str (l : list ascii) : string := string_of_list_ascii l.

Definition code (c : ascii) : Z := Z.of_nat (nat_of_ascii c).

Definition is_digit (c : ascii) : bool := (48 <=? code c) && (code c <=? 57).
Definition is_upper_char (c : ascii) : bool := (65 <=? code c) && (code c <=? 90).
Definition is_lower_char (c : ascii) : bool := (97 <=? code c) && (code c <=? 122).

(** ASCII white space as recognised by [str.split()] and [int()]. *)
Definition is_space (c : ascii) : bool :=
  ((9 <=? code c) && (code c <=? 13)) || ((28 <=? code c) && (code c <=? 32)).

Definition lower_char (c : ascii) : ascii :=
  if is_upper_char c then ascii_of_nat (nat_of_ascii c + 32) else c.
Definition upper_char (c : ascii) : ascii :=
  if is_lower_char c then ascii_of_nat (nat_of_ascii c - 32) else c.

Definition lower (s : string) : string := str (map lower_char (chars s)).
Definition upper (s : string) : string := str (map upper_char (chars s)).

(** [s.isupper()] for a one-character string. *)
Definition isupper (c : ascii) : bool := is_upper_char c.

(** [a, b = [*s]]: unpacking a string into exactly two characters. *)
Definition unpack2 (s : string) : result (ascii * ascii) :=
  match chars s with
  | [a; b] => Ok (a, b)
  | _ => Raise ValueError
  end.

(** [str(n)] and [f'{n}'] for an [int]. *)
Fixpoint digits_of (fuel : nat) (n : Z) (acc : list ascii) : list ascii :=
  match fuel with
  | O => acc
  | S fuel' =>
      let d := ascii_of_nat (Z.to_nat (48 + n mod 10)) in
      if n <? 10 then d :: acc else digits_of fuel' (n / 10) (d :: acc)
  end.

Definition str_of_int (n : Z) : string :=
  if n <? 0
  then String "-" (str (digits_of (S (Z.to_nat (Z.log2 (- n)))) (- n) []))
  else str (digits_of (S (Z.to_nat (Z.log2 n))) n []).

(** [int(s)]: optional surrounding white space, an optional sign, decimal
    digits with single underscores between them. *)
Fixpoint int_digits (after_digit : bool) (acc : Z) (l : list ascii)
  : option Z :=
  match l with
  | [] => if after_digit then Some acc else None
  | c :: l' =>
      if is_digit c then int_digits true (10 * acc + (code c - 48)) l'
      else if Ascii.eqb c "_" && after_digit then int_digits false acc l'
      else None
  end.

Fixpoint lstrip (l : list ascii) : list ascii :=
  match l with
  | c :: l' => if is_space c then lstrip l' else l
  | [] => []
  end.

Definition strip (l : list ascii) : list ascii :=
  rev (lstrip (rev (lstrip l))).

Definition int (s : string) : result Z :=
  let body :=
    match strip (chars s) with
    | "+"%char :: l => int_digits false 0 l
    | "-"%char :: l => Z.opp <$> int_digits false 0 l
    | l => int_digits false 0 l
    end in
  match body with
  | Some n => Ok n
  | None => Raise ValueError
  end.

(** [int(c)] for a one-character string. *)
Definition int_char (c : ascii) : result Z := int (String c "").

(** [s.split()]: split on runs of white space. *)
Fixpoint split_go (cur : list ascii) (l : list ascii) : list string :=
  match l with
  | [] => match cur with [] => [] | _ => [str (rev cur)] end
  | c :: l' =>
      if is_space c
      then match cur with
           | [] => split_go [] l'
           | _ => str (rev cur) :: split_go [] l'
           end
      else split_go (c :: cur) l'
  end.

Definition split (s : string) : list string := split_go [] (chars s).

(** [sep.join(l)]. *)
Fixpoint join (sep : string) (l : list string) : string :=
  match l with
  | [] => ""
  | [s] => s
  | s :: l' => s +:+ sep +:+ join sep l'
  end.

(** [s[:-4]]. *)
Definition drop_last4 (s : string) : string :=
  let l := chars s in str (take (List.length l - 4)%nat l).

(** [c in s] for a one-character string [c]. *)
Definition char_in (c : ascii) (s : string) : bool :=
  existsb (Ascii.eqb c) (chars s).

(** [range(a, b)]. *)
Definition range (a b : Z) : list Z :=
  map (λ i, a + Z.of_nat i) (seq 0 (Z.to_nat (b - a))).

(** [itertools.product(xs, ys)]. *)
Definition product {A B : Type} (xs : list A) (ys : list B) : list (A * B) :=
  x ← xs; y ← ys; [(x, y)].

(** Insertion-ordered dictionaries with string keys. *)
Section dict.
Context {V : Type}.

Definition dict : Type := list (string * V).

(** [d.get(k)] *)
Fixpoint get (k : string) (d : dict) : option V :=
  match d with
  | [] => None
  | (k', v) :: d' => if String.eqb k k' then Some v else get k d'
  end.

(** [k in d] *)
Definition mem (k : string) (d : dict) : bool :=
  match get k d with Some _ => true | None => false end.

(** [d[k] = v]: an existing key keeps its place, a new key goes last. *)
Fixpoint set (k : string) (v : V) (d : dict) : dict :=
  match d with
  | [] => [(k, v)]
  | (k', v') :: d' =>
      if String.eqb k k' then (k', v) :: d' else (k', v') :: set k v d'
  end.

Fixpoint remove (k : string) (d : dict) : dict :=
  match d with
  | [] => []
  | (k', v') :: d' =>
      if String.eqb k k' then d' else (k', v') :: remove k d'
  end.

(** [del d[k]] *)
Definition del (k : string) (d : dict) : result dict :=
  if mem k d then Ok (remove k d) else Raise KeyError.
End dict.
Arguments dict V : clear implicits.

End Py.

(** ** pieces.py *)

Inductive Colour : Type := white | black.

(** The piece letters ['p'], ['N'], ['B'], ['R'], ['Q'], ['K'] of
    [PIECE_TYPES]. *)
Inductive PieceType : Type := Pawn | Knight | Bishop | Rook | Queen | King.

#[global] Instance Colour_eq_dec : EqDecision Colour.
Proof. solve_decision. Defined.
#[global] Instance PieceType_eq_dec : EqDecision PieceType.
Proof. solve_decision. Defined.

(** [Piece(type, colour)]; the class accepts [None] as a type. *)
Record Piece : Type := mkPiece {
  ptype : option PieceType;
  pcolour : Colour
}.

#[global] Instance Piece_eq_dec : EqDecision Piece.
Proof. solve_decision. Defined.

Definition piece (t : PieceType) (c : Colour) : Piece := mkPiece (Some t) c.

Definition type_letter (t : PieceType) : string :=
  match t with
  | Pawn => "p" | Knight => "N" | Bishop => "B"
  | Rook => "R" | Queen => "Q" | King => "K"
  end.

(** Membership of a string in [PIECE_TYPES]. *)
Definition type_of_letter (s : string) : option PieceType :=
  if String.eqb s "p" then Some Pawn
  else if String.eqb s "N" then Some Knight
  else if String.eqb s "B" then Some Bishop
  else if String.eqb s "R" then Some Rook
  else if String.eqb s "Q" then Some Queen
  else if String.eqb s "K" then Some King
  else None.

(** ** utils.py *)

Definition opposite (c : Colour) : Colour :=
  match c with white => black | black => white end.

(** ** board.py *)

Definition FILES : string := "abcdefgh".
Definition RANKS : string := "12345678".

(** [FILES.index(file)] *)
Fixpoint index_go (c : ascii) (l : list ascii) (i : Z) : result Z :=
  match l with
  | [] => Raise ValueError
  | c' :: l' => if Ascii.eqb c c' then Ok i else index_go c l' (i + 1)
  end.
Definition FILES_index (file : ascii) : result Z :=
  index_go file (Py.chars FILES) 0.

(** [FILES[i]], with Python's wrap-around for negative indices. *)
Definition FILES_nth (i : Z) : result ascii :=
  let j := if i <? 0 then i + 8 else i in
  if (0 <=? j) && (j <? 8)
  then match Py.chars FILES !! Z.to_nat j with
       | Some c => Ok c
       | None => Raise IndexError
       end
  else Raise IndexError.

(** [i in range(len(FILES))] *)
Definition in_FILES_range (i : Z) : bool := (0 <=? i) && (i <? 8).

(** [str(r) in [*RANKS]] *)
Definition in_RANKS (r : Z) : bool := (1 <=? r) && (r <=? 8).

(** [f'{file}{rank}'] *)
Definition square_name (file : ascii) (rank : Z) : string :=
  String file (Py.str_of_int rank).

Record Board : Type := mkBoard {
  squares : Py.dict Piece;
  white_king_pos : string;
  black_king_pos : string;
  en_passant_target : option string
}.

(** [Board()] *)
Definition Board_new : Board :=
  mkBoard [] "e1" "e8" None.

(** [board[pos]] ([__getitem__] gives [None] for an empty square) *)
Definition board_get (b : Board) (pos : string) : option Piece :=
  Py.get pos (squares b).

(** [pos in board] *)
Definition board_contains (b : Board) (pos : string) : bool :=
  Py.mem pos (squares b).

Definition with_squares (b : Board) (sq : Py.dict Piece) : Board :=
  mkBoard sq (white_king_pos b) (black_king_pos b) (en_passant_target b).

(** [board[pos] = piece] *)
Definition board_set (b : Board) (pos : string) (pc : Piece) : Board :=
  with_squares b (Py.set pos pc (squares b)).

(** [del board[pos]] *)
Definition board_del (b : Board) (pos : string) : result Board :=
  sq ← Py.del pos (squares b); Ok (with_squares b sq).

(** The type that [fen_to_board] gives to the piece for [char]: ['p'] when
    [char.lower() == 'p'], [char.upper()] when that is in [PIECE_TYPES], and
    [None] otherwise. *)
Definition fen_char_type (char : ascii) : option PieceType :=
  if Ascii.eqb (Py.lower_char char) "p" then Some Pawn
  else type_of_letter (String (Py.upper_char char) "").

(** [Board.fen_to_board]: the loop over the characters.  The loop state is
    the board being filled together with the local variables [rank] and
    [findex]; a raised exception leaves the board as filled so far. *)
Fixpoint fen_to_board_loop (b : Board) (rank findex : Z) (l : list ascii)
  : Board * result unit :=
  match l with
  | [] => (b, Ok ())
  | char :: l' =>
      if Ascii.eqb char "/" then fen_to_board_loop b (rank - 1) 0 l'
      else if Py.is_digit char then
        match Py.int_char char with
        | Ok spaces => fen_to_board_loop b rank (findex + spaces) l'
        | Raise e => (b, Raise e)
        end
      else
        match FILES_nth findex with
        | Raise e => (b, Raise e)
        | Ok file =>
            let pos := square_name file rank in
            let type := fen_char_type char in
            let colour := if Py.isupper char then white else black in
            let b1 :=
              if Ascii.eqb char "k"
              then mkBoard (squares b) (white_king_pos b) pos (en_passant_target b)
              else if Ascii.eqb char "K"
              then mkBoard (squares b) pos (black_king_pos b) (en_passant_target b)
              else b in
            match type with
            | None => fen_to_board_loop b1 rank (findex + 1) l'
            | Some t =>
                fen_to_board_loop (board_set b1 pos (piece t colour))
                                  rank (findex + 1) l'
            end
        end
  end.

Definition fen_to_board (b : Board) (fen_board : string) : Board * result unit :=
  fen_to_board_loop b 8 0 (Py.chars fen_board).

(** [to_fen[colour](type)] *)
Definition to_fen (c : Colour) (s : string) : string :=
  match c with white => Py.upper s | black => Py.lower s end.

(** [Board.board_to_fen]: the inner loop over the files of one rank, with the
    local variables [this_rank] and [space_counter]. *)
Fixpoint board_to_fen_rank (b : Board) (rank : ascii) (files : list ascii)
    (this_rank : string) (space_counter : Z) : result string :=
  match files with
  | [] => Ok this_rank
  | file :: files' =>
      let pos := String file (String rank "") in
      match board_get b pos with
      | None =>
          let space_counter := space_counter + 1 in
          let this_rank :=
            if Ascii.eqb file "h" && negb (space_counter =? 0)
            then this_rank +:+ Py.str_of_int space_counter
            else this_rank in
          board_to_fen_rank b rank files' this_rank space_counter
      | Some pc =>
          let this_rank :=
            if negb (space_counter =? 0)
            then this_rank +:+ Py.str_of_int space_counter
            else this_rank in
          match ptype pc with
          | None => Raise AttributeError
          | Some t =>
              board_to_fen_rank b rank files'
                (this_rank +:+ to_fen (pcolour pc) (type_letter t)) 0
          end
      end
  end.

Fixpoint board_to_fen_ranks (b : Board) (ranks : list ascii)
  : result (list string) :=
  match ranks with
  | [] => Ok []
  | rank :: ranks' =>
      this_rank ← board_to_fen_rank b rank (Py.chars FILES) "" 0;
      rest ← board_to_fen_ranks b ranks';
      Ok (this_rank :: rest)
  end.

Definition board_to_fen (b : Board) : result string :=
  board_list ← board_to_fen_ranks b (rev (Py.chars RANKS));
  Ok (Py.join "/" board_list).

(** *** Attack generators

    [file] is a one-character string and [rank] has already been through
    [int(rank)]: every caller passes either an [int] or a one-character
    string that the generator converts in its first statement. *)

Definition find_pawn_attacks (file : ascii) (rank : Z) (colour : Colour)
    (is_pawn : bool) : result (list string) :=
  if is_pawn && ((rank =? 8) || (rank =? 1)) then Ok []
  else
    collect (λ d,
      let attack_rank :=
        match colour with white => rank + 1 | black => rank - 1 end in
      init_findex ← FILES_index file;
      if negb (in_FILES_range (init_findex + d)) then Ok []
      else
        attack_file ← FILES_nth (init_findex + d);
        Ok [square_name attack_file attack_rank]) [-1; 1].

Definition find_knight_attacks (file : ascii) (rank : Z) : result (list string) :=
  init_findex ← FILES_index file;
  collect (λ '(f, r),
    if (Z.abs f =? Z.abs r) || negb (in_FILES_range (init_findex + f))
       || negb (in_RANKS (rank + r))
    then Ok []
    else if negb (((Z.abs f =? 1) && (Z.abs r =? 2))
                  || ((Z.abs f =? 2) && (Z.abs r =? 1)))
    then Ok []
    else
      target_file ← FILES_nth (init_findex + f);
      Ok [square_name target_file (rank + r)])
    (Py.product (Py.range (-2) 3) (Py.range (-2) 3)).

(** The [while] loop shared by [find_bishop_attacks] and [find_rook_attacks]:
    walk from the square in direction ([fsign], [rsign]) until the edge of the
    board or the first occupied square (inclusive).  A ray has at most eight
    squares, so nine rounds always reach the exit of the loop. *)
Fixpoint ray (fuel : nat) (board : Board) (init_findex rank fsign rsign : Z)
    (offset : Z) : result (list string) :=
  match fuel with
  | O => Ok []
  | S fuel' =>
      if in_RANKS (rank + rsign * offset)
         && in_FILES_range (init_findex + fsign * offset)
      then
        let target_rank := rank + rsign * offset in
        let target_findex := init_findex + fsign * offset in
        target_file ← FILES_nth target_findex;
        let target := square_name target_file target_rank in
        if board_contains board target then Ok [target]
        else
          rest ← ray fuel' board init_findex rank fsign rsign (offset + 1);
          Ok (target :: rest)
      else Ok []
  end.

Definition ray_fuel : nat := 9.

Definition find_bishop_attacks (file : ascii) (rank : Z) (board : Board)
  : result (list string) :=
  init_findex ← FILES_index file;
  collect (λ '(fsign, rsign),
    ray ray_fuel board init_findex rank fsign rsign 1)
    (Py.product [-1; 1] [-1; 1]).

Definition find_rook_attacks (file : ascii) (rank : Z) (board : Board)
  : result (list string) :=
  init_findex ← FILES_index file;
  collect (λ '(ffactor, rfactor),
    if Bool.eqb (ffactor =? 0) (rfactor =? 0) then Ok []
    else ray ray_fuel board init_findex rank ffactor rfactor 1)
    (Py.product (Py.range (-1) 2) (Py.range (-1) 2)).

Definition find_king_attacks (file : ascii) (rank : Z) : result (list string) :=
  init_findex ← FILES_index file;
  collect (λ '(ffactor, rfactor),
    if (ffactor =? 0) && (rfactor =? 0) then Ok []
    else
      let offset := 1 in
      if in_RANKS (rank + rfactor * offset)
         && in_FILES_range (init_findex + ffactor * offset)
      then
        target_file ← FILES_nth (init_findex + ffactor * offset);
        Ok [square_name target_file (rank + rfactor * offset)]
      else Ok [])
    (Py.product (Py.range (-1) 2) (Py.range (-1) 2)).

(** [attacker.type in types] *)
Definition type_in (t : option PieceType) (types : list PieceType) : bool :=
  match t with
  | Some t => bool_decide (t ∈ types)
  | None => false
  end.

Fixpoint find_attacker (attacks : list string) (types : list PieceType)
    (board : Board) (opponent : Colour) : bool :=
  match attacks with
  | [] => false
  | attack :: attacks' =>
      match board_get board attack with
      | None => find_attacker attacks' types board opponent
      | Some attacker =>
          if bool_decide (pcolour attacker = opponent)
             && type_in (ptype attacker) types
          then true
          else find_attacker attacks' types board opponent
      end
  end.

Definition possible_destinations (pc : Piece) (square : string) (board : Board)
    (colour : option Colour) (attacks_only : bool) : result (list string) :=
  '(file, rank) ← Py.unpack2 square;
  rank ← Py.int_char rank;
  let colour := match colour with Some c => c | None => pcolour pc end in
  match ptype pc with
  | Some Pawn =>
      search_squares ← find_pawn_attacks file rank (pcolour pc) true;
      if negb attacks_only then
        let sign := match colour with white => 1 | black => -1 end in
        let search_squares := search_squares ++ [square_name file (rank + sign)] in
        if rank =? (match colour with black => 7 | white => 2 end)
        then Ok (search_squares ++ [square_name file (rank + 2 * sign)])
        else Ok search_squares
      else Ok search_squares
  | Some Knight => find_knight_attacks file rank
  | Some Bishop => find_bishop_attacks file rank board
  | Some Rook => find_rook_attacks file rank board
  | Some Queen =>
      diag ← find_bishop_attacks file rank board;
      orth ← find_rook_attacks file rank board;
      Ok (diag ++ orth)
  | Some King =>
      search_squares ← find_king_attacks file rank;
      if String.eqb square (match colour with white => "e1" | black => "e8" end)
         && negb attacks_only
      then Ok (search_squares ++ [square_name "g" rank; square_name "c" rank])
      else Ok search_squares
  | None => Raise UnboundLocalError
  end.

(** pieces.py, [is_friendly] *)
Definition is_friendly (target : string) (pc : Piece) (board : Board) : bool :=
  match board_get board target with
  | Some other => bool_decide (pcolour other = pcolour pc)
  | None => false
  end.

(** ** moves.py *)

Inductive Special : Type := en_passant | castling | promotion.

#[global] Instance Special_eq_dec : EqDecision Special.
Proof. solve_decision. Defined.

Record Move : Type := mkMove {
  origin : string;
  destination : string;
  mpiece : option Piece;
  special : option Special;
  promote : option string;
  is_capture : bool;
  check_str : string;
  disambiguation : option string
}.

(** [Move(origin, destination, piece)] *)
Definition Move_new (o d : string) (pc : option Piece) : Move :=
  mkMove o d pc None None false "" None.

(** ** moverules.py *)

(** The common prologue: unpack both squares, index the files, convert the
    ranks. *)
Definition coords (origin destination : string)
  : result (ascii * Z * Z * ascii * Z * Z) :=
  '(init_file, init_rank) ← Py.unpack2 origin;
  '(dest_file, dest_rank) ← Py.unpack2 destination;
  init_findex ← FILES_index init_file;
  dest_findex ← FILES_index dest_file;
  init_rank ← Py.int_char init_rank;
  dest_rank ← Py.int_char dest_rank;
  Ok (init_file, init_findex, init_rank, dest_file, dest_findex, dest_rank).

Definition is_pawn_move (origin destination : string) (board : Board)
    (colour : Colour) : result bool :=
  '(init_file, init_findex, init_rank, dest_file, dest_findex, dest_rank) ←
    coords origin destination;
  let rank_steps := dest_rank - init_rank in
  let factor := match colour with white => 1 | black => -1 end in
  if rank_steps =? 2 * factor then
    let path_is_clear :=
      forallb (λ i, negb (board_contains board
                            (square_name init_file (init_rank + i * factor))))
              [1; 2] in
    let double_is_valid :=
      init_rank =? (match colour with white => 2 | black => 7 end) in
    Ok (path_is_clear && double_is_valid)
  else if rank_steps =? factor then
    Ok (negb (board_contains board destination))
  else Ok false.

Definition is_knight_move (origin destination : string) : result bool :=
  '(init_file, init_findex, init_rank, dest_file, dest_findex, dest_rank) ←
    coords origin destination;
  let a := Z.abs (init_findex - dest_findex) in
  let b := Z.abs (init_rank - dest_rank) in
  Ok (((a =? 1) && (b =? 2)) || ((a =? 2) && (b =? 1))).

(** [for step in range(1, n): ... if trace_dest in board: return False] *)
Fixpoint path_blocked (board : Board) (trace : Z → result string)
    (steps : list Z) : result bool :=
  match steps with
  | [] => Ok false
  | step :: steps' =>
      trace_dest ← trace step;
      if board_contains board trace_dest then Ok true
      else path_blocked board trace steps'
  end.

Definition is_bishop_move (origin destination : string) (board : Board)
  : result bool :=
  '(init_file, init_findex, init_rank, dest_file, dest_findex, dest_rank) ←
    coords origin destination;
  let rank_steps := dest_rank - init_rank in
  let file_steps := dest_findex - init_findex in
  if negb (Z.abs rank_steps =? Z.abs file_steps) then Ok false
  else
    let rsign := if 0 <? rank_steps then 1 else -1 in
    let fsign := if 0 <? file_steps then 1 else -1 in
    blocked ← path_blocked board (λ step,
        let trace_rank := init_rank + rsign * step in
        let trace_findex := init_findex + fsign * step in
        trace_file ← FILES_nth trace_findex;
        Ok (square_name trace_file trace_rank))
      (Py.range 1 (Z.abs file_steps));
    Ok (negb blocked).

Definition is_rook_move (origin destination : string) (board : Board)
  : result bool :=
  '(init_file, init_findex, init_rank, dest_file, dest_findex, dest_rank) ←
    coords origin destination;
  let rank_steps := dest_rank - init_rank in
  let file_steps := dest_findex - init_findex in
  if Bool.eqb (rank_steps =? 0) (file_steps =? 0) then Ok false
  else
    let steps := if negb (rank_steps =? 0) then rank_steps else file_steps in
    let sign := if 0 <? steps then 1 else -1 in
    blocked ← path_blocked board (λ step,
        let trace_findex :=
          if negb (file_steps =? 0) then init_findex + step * sign
          else init_findex in
        trace_file ← FILES_nth trace_findex;
        let trace_rank :=
          if negb (rank_steps =? 0) then init_rank + step * sign
          else init_rank in
        Ok (square_name trace_file trace_rank))
      (Py.range 1 (Z.abs steps));
    Ok (negb blocked).

(** ** parsing.py *)

Definition FEN_INITIAL : string :=
  "rnbqkbnr/pppppppp/8/8/8/8/PPPPPPPP/RNBQKBNR w KQkq - 0 0".

(** The [groupdict()] of a token after [normalize_move_data], one constructor
    per entry of [token_patterns]; the constructor is the ['type'] label and
    fixes which keys the dictionary has.  The rebuilt ['move'] text is
    not a field: [normalized_move] computes it. *)
Inductive MoveDetails : Type :=
  | PawnToken (origin capture : option string) (destination : string)
              (check : option string)
  | PromotionToken (origin capture : option string) (destination : string)
                   (promotion : string) (check : option string)
  | PieceToken (pc : string) (origin capture : option string)
               (destination : string) (check : option string)
  | CastlingToken (side : string) (check : option string).

(** What [parse_move] returns: one dictionary, or the list of all of them
    when several patterns match. *)
Inductive Parsed : Type :=
  | Unambiguous (d : MoveDetails)
  | Ambiguous (ds : list MoveDetails).

Module Regex.

(** Character classes, under [re.IGNORECASE] when [ic] is set. *)
Definition between (lo hi : Z) (c : ascii) : bool :=
  (lo <=? Py.code c) && (Py.code c <=? hi).
Definition letter (ic : bool) (c : ascii) (x : ascii) : bool :=
  Ascii.eqb x c
  || (ic && (Ascii.eqb (Py.lower_char x) (Py.lower_char c))
         && (Py.is_lower_char c || Py.is_upper_char c)).

(** [[a-h]] *)
Definition file_class (ic : bool) (c : ascii) : bool :=
  between 97 104 c || (ic && between 65 72 c).
(** [[2-7]], [[1-8]], [[18]] *)
Definition rank_2_7 (c : ascii) : bool := between 50 55 c.
Definition rank_1_8 (c : ascii) : bool := between 49 56 c.
Definition rank_1_or_8 (c : ascii) : bool := Ascii.eqb c "1" || Ascii.eqb c "8".
(** [[NBRQK]] and [[NBRQ]] *)
Definition promo_class (ic : bool) (c : ascii) : bool :=
  existsb (λ x, letter ic x c) ["N"; "B"; "R"; "Q"]%char.
Definition piece_class (ic : bool) (c : ascii) : bool :=
  promo_class ic c || letter ic "K" c.
(** [\+|#] *)
Definition check_class (c : ascii) : bool := Ascii.eqb c "+" || Ascii.eqb c "#".

(** [$]: the end of the string, or just before a final newline. *)
Definition at_end (l : list ascii) : bool :=
  match l with
  | [] => true
  | [c] => Ascii.eqb c "010"
  | _ => false
  end.

(** [(?P<check>\+|#)?$] *)
Definition check_end (l : list ascii) : option (option string) :=
  let without := if at_end l then Some None else None in
  match l with
  | c :: l' =>
      if check_class c && at_end l' then Some (Some (String c ""))
      else without
  | [] => without
  end.

(** A greedy optional group: first with the group, then without it. *)
Definition orelse {A : Type} (a b : option A) : option A :=
  match a with Some _ => a | None => b end.

(** [((?P<origin>[a-h])(?P<capture>x))?] followed by [k] *)
Definition capture_prefix {A : Type} (ic : bool) (l : list ascii)
    (k : option string → option string → list ascii → option A) : option A :=
  orelse
    match l with
    | o :: x :: rest =>
        if file_class ic o && letter ic "x" x
        then k (Some (String o "")) (Some (String x "")) rest
        else None
    | _ => None
    end
    (k None None l).

Definition opt_lower (s : option string) : option string := Py.lower <$> s.

Definition pawn (ic : bool) (l : list ascii) : option MoveDetails :=
  capture_prefix ic l (λ o x rest,
    match rest with
    | f :: r :: tl =>
        if file_class ic f && rank_2_7 r then
          chk ← check_end tl;
          Some (PawnToken (opt_lower o) (opt_lower x)
                          (Py.lower (Py.str [f; r])) chk)
        else None
    | _ => None
    end).

Definition promotion (ic : bool) (l : list ascii) : option MoveDetails :=
  capture_prefix ic l (λ o x rest,
    match rest with
    | f :: r :: e :: pr :: tl =>
        if file_class ic f && rank_1_or_8 r && Ascii.eqb e "="
           && promo_class ic pr then
          chk ← check_end tl;
          Some (PromotionToken (opt_lower o) (opt_lower x)
                               (Py.lower (Py.str [f; r]))
                               (Py.upper (String pr "")) chk)
        else None
    | _ => None
    end).

(** [(?P<capture>x)?(?P<destination>[a-h][1-8])(?P<check>\+|#)?$] *)
Definition piece_tail (ic : bool) (pc : ascii) (o : option string)
    (l : list ascii) : option MoveDetails :=
  let dest (x : option string) (rest : list ascii) :=
    match rest with
    | f :: r :: tl =>
        if file_class ic f && rank_1_8 r then
          chk ← check_end tl;
          Some (PieceToken (Py.upper (String pc "")) (opt_lower o)
                           (opt_lower x) (Py.lower (Py.str [f; r])) chk)
        else None
    | _ => None
    end in
  orelse
    match l with
    | x :: rest =>
        if letter ic "x" x then dest (Some (String x "")) rest else None
    | [] => None
    end
    (dest None l).

Definition piece (ic : bool) (l : list ascii) : option MoveDetails :=
  match l with
  | pc :: rest =>
      if piece_class ic pc then
        orelse
          match rest with
          | o :: rest' =>
              if file_class ic o || rank_1_8 o
              then piece_tail ic pc (Some (String o "")) rest'
              else None
          | [] => None
          end
          (piece_tail ic pc None rest)
      else None
  | [] => None
  end.

Definition castling (ic : bool) (l : list ascii) : option MoveDetails :=
  match l with
  | o1 :: d1 :: o2 :: rest =>
      if letter ic "O" o1 && Ascii.eqb d1 "-" && letter ic "O" o2 then
        orelse
          match rest with
          | d2 :: o3 :: rest' =>
              if Ascii.eqb d2 "-" && letter ic "O" o3 then
                chk ← check_end rest';
                Some (CastlingToken (Py.upper (Py.str [o1; d1; o2; d2; o3])) chk)
              else None
          | _ => None
          end
          (chk ← check_end rest;
           Some (CastlingToken (Py.upper (Py.str [o1; d1; o2])) chk))
      else None
  | _ => None
  end.

(** [^([rnbqkpRNBQKP1-8]{1,8}(/|\Z)){8}$], the placement check of
    [load_fen].  A run of class characters is followed by ['/'] or by the
    end of the string, so a group always takes the whole run. *)
Definition placement_class (c : ascii) : bool :=
  existsb (Ascii.eqb c)
    (Py.chars "rnbqkpRNBQKP") || rank_1_8 c.

Fixpoint class_run (n : nat) (l : list ascii) : nat * list ascii :=
  match n, l with
  | S n', c :: l' =>
      if placement_class c
      then let '(k, rest) := class_run n' l' in (S k, rest)
      else (O, l)
  | _, _ => (O, l)
  end.

Fixpoint placement_groups (groups : nat) (l : list ascii) : bool :=
  match groups with
  | O => at_end l
  | S groups' =>
      match class_run 8 l with
      | (O, _) => false
      | (_, c :: rest) =>
          Ascii.eqb c "/" && placement_groups groups' rest
      | (_, []) => placement_groups groups' []
      end
  end.

Definition placement (board : string) : bool :=
  placement_groups 8 (Py.chars board).

End Regex.

(** [parse_move(player_move, re_flags)]; [ic] is [re_flags == re.IGNORECASE]. *)
Definition parse_move (player_move : string) (ic : bool) : result Parsed :=
  let l := Py.chars player_move in
  let matches :=
    omap (λ pattern, pattern ic l)
         [Regex.pawn; Regex.promotion; Regex.piece; Regex.castling] in
  match matches with
  | [] => Raise ValueError
  | [d] => Ok (Unambiguous d)
  | _ => Ok (Ambiguous matches)
  end.

(** ** gamerules.py: the game object and the store *)

(** [can_castle], a dictionary with the four keys ['white_kingside'],
    ['white_queenside'], ['black_kingside'], ['black_queenside'] in this
    order; no key is ever added or removed. *)
Record CastleRights : Type := mkCastleRights {
  white_kingside : bool;
  white_queenside : bool;
  black_kingside : bool;
  black_queenside : bool
}.

Inductive Side : Type := kingside | queenside.

(** [can_castle[f'{colour}_{side}']] *)
Definition castle_get (cr : CastleRights) (c : Colour) (s : Side) : bool :=
  match c, s with
  | white, kingside => white_kingside cr
  | white, queenside => white_queenside cr
  | black, kingside => black_kingside cr
  | black, queenside => black_queenside cr
  end.

(** [can_castle[f'{colour}_{side}'] = v] *)
Definition castle_set (cr : CastleRights) (c : Colour) (s : Side) (v : bool)
  : CastleRights :=
  match c, s with
  | white, kingside =>
      mkCastleRights v (white_queenside cr) (black_kingside cr) (black_queenside cr)
  | white, queenside =>
      mkCastleRights (white_kingside cr) v (black_kingside cr) (black_queenside cr)
  | black, kingside =>
      mkCastleRights (white_kingside cr) (white_queenside cr) v (black_queenside cr)
  | black, queenside =>
      mkCastleRights (white_kingside cr) (white_queenside cr) (black_kingside cr) v
  end.

(** [in_check], a dictionary with the keys ['white'] and ['black']. *)
Record InCheck : Type := mkInCheck {
  white_in_check : bool;
  black_in_check : bool
}.

Definition in_check_get (ic : InCheck) (c : Colour) : bool :=
  match c with white => white_in_check ic | black => black_in_check ic end.

Definition in_check_set (ic : InCheck) (c : Colour) (v : bool) : InCheck :=
  match c with
  | white => mkInCheck v (black_in_check ic)
  | black => mkInCheck (white_in_check ic) v
  end.

(** The colour as the string the program uses for it. *)
Definition colour_name (c : Colour) : string :=
  match c with white => "white" | black => "black" end.

(** The attributes of a [GameState] object.  [stray_en_passant_target] is the
    attribute [game.en_passant_target] that [validate_move] assigns: the
    class does not declare it, the board has an attribute of the same name. *)
Record GameState : Type := mkGameState {
  board : Board;
  turn : Colour;
  can_castle : CastleRights;
  in_check : InCheck;
  is_end : bool;
  end_state : option string;
  winner : option string;
  move_history : list (Py.dict Move);
  position_history : gmap Z string;
  position_count : Py.dict Z;
  halfmove_clock : Z;
  fullmoves : Z;
  stray_en_passant_target : option string
}.

Definition set_board (g : GameState) (b : Board) : GameState :=
  mkGameState b (turn g) (can_castle g) (in_check g) (is_end g) (end_state g)
    (winner g) (move_history g) (position_history g) (position_count g)
    (halfmove_clock g) (fullmoves g) (stray_en_passant_target g).
Definition set_turn (g : GameState) (t : Colour) : GameState :=
  mkGameState (board g) t (can_castle g) (in_check g) (is_end g) (end_state g)
    (winner g) (move_history g) (position_history g) (position_count g)
    (halfmove_clock g) (fullmoves g) (stray_en_passant_target g).
Definition set_can_castle (g : GameState) (cr : CastleRights) : GameState :=
  mkGameState (board g) (turn g) cr (in_check g) (is_end g) (end_state g)
    (winner g) (move_history g) (position_history g) (position_count g)
    (halfmove_clock g) (fullmoves g) (stray_en_passant_target g).
Definition set_in_check (g : GameState) (ic : InCheck) : GameState :=
  mkGameState (board g) (turn g) (can_castle g) ic (is_end g) (end_state g)
    (winner g) (move_history g) (position_history g) (position_count g)
    (halfmove_clock g) (fullmoves g) (stray_en_passant_target g).
Definition set_end (g : GameState) (e : bool) (st w : option string)
  : GameState :=
  mkGameState (board g) (turn g) (can_castle g) (in_check g) e st
    w (move_history g) (position_history g) (position_count g)
    (halfmove_clock g) (fullmoves g) (stray_en_passant_target g).
Definition set_move_history (g : GameState) (mh : list (Py.dict Move))
  : GameState :=
  mkGameState (board g) (turn g) (can_castle g) (in_check g) (is_end g)
    (end_state g) (winner g) mh (position_history g) (position_count g)
    (halfmove_clock g) (fullmoves g) (stray_en_passant_target g).
Definition set_position_history (g : GameState) (ph : gmap Z string)
  : GameState :=
  mkGameState (board g) (turn g) (can_castle g) (in_check g) (is_end g)
    (end_state g) (winner g) (move_history g) ph (position_count g)
    (halfmove_clock g) (fullmoves g) (stray_en_passant_target g).
Definition set_position_count (g : GameState) (pc : Py.dict Z)
  : GameState :=
  mkGameState (board g) (turn g) (can_castle g) (in_check g) (is_end g)
    (end_state g) (winner g) (move_history g) (position_history g) pc
    (halfmove_clock g) (fullmoves g) (stray_en_passant_target g).
Definition set_halfmove_clock (g : GameState) (n : Z) : GameState :=
  mkGameState (board g) (turn g) (can_castle g) (in_check g) (is_end g)
    (end_state g) (winner g) (move_history g) (position_history g)
    (position_count g) n (fullmoves g) (stray_en_passant_target g).
Definition set_fullmoves (g : GameState) (n : Z) : GameState :=
  mkGameState (board g) (turn g) (can_castle g) (in_check g) (is_end g)
    (end_state g) (winner g) (move_history g) (position_history g)
    (position_count g) (halfmove_clock g) n (stray_en_passant_target g).
Definition set_stray_en_passant_target (g : GameState) (t : option string)
  : GameState :=
  mkGameState (board g) (turn g) (can_castle g) (in_check g) (is_end g)
    (end_state g) (winner g) (move_history g) (position_history g)
    (position_count g) (halfmove_clock g) (fullmoves g) t.

(** *** The store

    A [GameState] object is a location of the store; the record at that
    location holds everything reachable from the object (its board, its
    dictionaries and lists).  No two game objects of the program share a
    mutable part, so [copy.deepcopy] is allocation of a new location with an
    equal record, and a method that mutates [self] is a write at [self]. *)
Abbreviation loc := nat (only parsing).
Abbreviation heap := (list GameState) (only parsing).

Definition M (A : Type) : Type := heap → result A * heap.

#[global] Instance M_ret : MRet M := λ A a h, (Ok a, h).
#[global] Instance M_bind : MBind M := λ A B f m h,
  match m h with
  | (Ok a, h') => f a h'
  | (Raise e, h') => (Raise e, h')
  end.

Definition raise {A : Type} (e : exn) : M A := λ h, (Raise e, h).

Definition lift {A : Type} (r : result A) : M A := λ h, (r, h).

Definition read (l : loc) : M GameState := λ h,
  match h !! l with
  | Some g => (Ok g, h)
  | None => (Raise DanglingReference, h)
  end.

Definition write (l : loc) (g : GameState) : M unit := λ h,
  match h !! l with
  | Some _ => (Ok (), <[l := g]> h)
  | None => (Raise DanglingReference, h)
  end.

Definition modify (l : loc) (f : GameState → GameState) : M unit :=
  g ← read l; write l (f g).

(** A mutation of [self.board] that may raise. *)
Definition modify_board (l : loc) (f : Board → result Board) : M unit :=
  g ← read l; b ← lift (f (board g)); write l (set_board g b).

Definition alloc (g : GameState) : M loc := λ h,
  (Ok (List.length h), h ++ [g]).

(** [copy.deepcopy(game)] *)
Definition deepcopy (game : loc) : M loc :=
  g ← read game; alloc g.

(** [x.attr] where [x] may be [None]. *)
Definition attr {A : Type} (x : option A) : result A :=
  match x with
  | Some a => Ok a
  | None => Raise AttributeError
  end.

(** [[*s]] where [s] may be [None], unpacked into two names. *)
Definition unpack2_opt (s : option string) : result (ascii * ascii) :=
  match s with
  | Some s => Py.unpack2 s
  | None => Raise TypeError
  end.

(** [Piece(type=t, colour=c)] for a [type] given as a string or [None]. *)
Definition Piece_new (t : option string) (c : Colour) : result Piece :=
  match t with
  | None => Ok (mkPiece None c)
  | Some s =>
      match type_of_letter s with
      | Some t => Ok (piece t c)
      | None => Raise ValueError
      end
  end.

Definition has_type (pc : Piece) (t : PieceType) : bool :=
  bool_decide (ptype pc = Some t).

(** [GameState.make_move] *)
Definition make_move (self : loc) (move : Move) : M unit :=
  g ← read self;
  pc ← lift (attr (board_get (board g) (origin move)));
  let back_rank := match pcolour pc with white => 1 | black => 8 end in
  pc ←
    match special move with
    | Some en_passant =>
        '(target_file, target_rank) ←
          lift (unpack2_opt (en_passant_target (board g)));
        target_rank ← lift (Py.int_char target_rank);
        let target_rank :=
          match turn g with
          | black => target_rank + 1
          | white => target_rank - 1
          end in
        let target := square_name target_file target_rank in
        modify_board self (λ b, board_del b target);;
        mret pc
    | Some castling =>
        dest_file ←
          lift (match Py.chars (destination move) with
                | c :: _ => Ok c
                | [] => Raise IndexError
                end);
        let is_c := Ascii.eqb dest_file "c" in
        let rook_origin := square_name (if is_c then "a" else "h") back_rank in
        let rook_destination :=
          square_name (if is_c then "d" else "f") back_rank in
        let rook := board_get (board g) rook_origin in
        modify_board self (λ b, board_del b rook_origin);;
        match rook with
        | Some rook =>
            modify_board self (λ b, Ok (board_set b rook_destination rook))
        | None => mret ()
        end;;
        mret pc
    | Some promotion =>
        lift (Piece_new (promote move) (pcolour pc))
    | None => mret pc
    end;
  modify_board self (λ b, Ok (board_set b (destination move) pc));;
  modify_board self (λ b, board_del b (origin move));;
  (if has_type pc Rook
      && (String.eqb (origin move) (square_name "a" back_rank)
          || String.eqb (origin move) (square_name "h" back_rank))
   then
     '(file, _) ← lift (Py.unpack2 (origin move));
     let side := if Ascii.eqb file "a" then queenside else kingside in
     g ← read self;
     (* a comparison, not an assignment: the dictionary is only read *)
     let _ := Bool.eqb (castle_get (can_castle g) (pcolour pc) side) false in
     mret ()
   else mret ());;
  (if has_type pc King then
     modify self (λ g, set_can_castle g
       (castle_set (castle_set (can_castle g) (pcolour pc) kingside false)
                   (pcolour pc) queenside false))
   else mret ());;
  g ← read self;
  let last_turn := turn g in
  write self (set_turn g (opposite (turn g)));;
  if has_type pc King then
    modify_board self (λ b,
      Ok match last_turn with
         | white => mkBoard (squares b) (destination move) (black_king_pos b)
                            (en_passant_target b)
         | black => mkBoard (squares b) (white_king_pos b) (destination move)
                            (en_passant_target b)
         end)
  else mret ().

(** [simulate_move] *)
Definition simulate_move (move : Move) (game : loc) : M loc :=
  clone_game ← deepcopy game;
  make_move clone_game move;;
  mret clone_game.

(** [square_is_attacked(square, (board, colour))]; a call with a [GameState]
    argument is the call with its board and its turn. *)
Definition square_is_attacked (square : string) (board : Board)
    (colour : Colour) : result bool :=
  let opp_colour := opposite colour in
  '(file, rank) ← Py.unpack2 square;
  rank ← Py.int_char rank;
  pawn_attacks ← find_pawn_attacks file rank colour true;
  if find_attacker pawn_attacks [Pawn; Bishop; Queen; King] board opp_colour
  then Ok true else
  knight_attacks ← find_knight_attacks file rank;
  if find_attacker knight_attacks [Knight] board opp_colour
  then Ok true else
  diagonal_attacks ← find_bishop_attacks file rank board;
  if find_attacker diagonal_attacks [Bishop; Queen] board opp_colour
  then Ok true else
  orthog_attacks ← find_rook_attacks file rank board;
  if find_attacker orthog_attacks [Rook; Queen] board opp_colour
  then Ok true else
  king_attacks ← find_king_attacks file rank;
  if find_attacker king_attacks [King] board opp_colour
  then Ok true else
  Ok false.

(** [any(square_is_attacked(square, game) for square in squares)] *)
Fixpoint any_attacked (squares : list string) (g : GameState) : result bool :=
  match squares with
  | [] => Ok false
  | square :: squares' =>
      a ← square_is_attacked square (board g) (turn g);
      if a : bool then Ok true else any_attacked squares' g
  end.

Definition area_is_safe (squares : list string) (g : GameState) : result bool :=
  a ← any_attacked squares g; Ok (negb a).

Definition area_is_empty (squares : list string) (g : GameState) : bool :=
  negb (existsb (board_contains (board g)) squares).

(** [square_remains_safe] *)
Definition square_remains_safe (square : string) (move : Move) (game : loc)
    (colour : Colour) : M bool :=
  clone ← simulate_move move game;
  c ← read clone;
  a ← lift (square_is_attacked square (board c) colour);
  mret (negb a).

Definition back_rank_char (c : Colour) : ascii :=
  match c with white => "1" | black => "8" end%char.

Definition on_rank (file : ascii) (r : ascii) : string :=
  String file (String r "").

Definition can_castle_kingside (pc : Piece) (g : GameState) : result bool :=
  let r := back_rank_char (pcolour pc) in
  if castle_get (can_castle g) (pcolour pc) kingside then
    if area_is_empty [on_rank "f" r; on_rank "g" r] g then
      area_is_safe [on_rank "e" r; on_rank "f" r; on_rank "g" r] g
    else Ok false
  else Ok false.

Definition can_castle_queenside (pc : Piece) (g : GameState) : result bool :=
  let r := back_rank_char (pcolour pc) in
  if castle_get (can_castle g) (pcolour pc) queenside then
    if area_is_empty [on_rank "d" r; on_rank "c" r] g then
      area_is_safe [on_rank "e" r; on_rank "d" r; on_rank "c" r] g
    else Ok false
  else Ok false.

(** [is_legal_move].  [board = game.board] names the live board object of
    [game], so every later use of [board] reads the store again.  The
    unpacking of origin and destination is [coords]: the program interleaves
    the six steps in another order, and each of them can only raise
    [ValueError]. *)
Definition is_legal_move (move : Move) (game : loc) : M bool :=
  g ← read game;
  let pc := board_get (board g) (origin move) in
  mp ← lift (attr (mpiece move));
  king_pos ←
    (if has_type mp King then mret (destination move)
     else
       p ← lift (attr pc);
       mret match pcolour p with
            | white => white_king_pos (board g)
            | black => black_king_pos (board g)
            end);
  p ← lift (attr pc);
  king_is_safe ← square_remains_safe king_pos move game (pcolour p);
  g ← read game;
  if negb king_is_safe
     || is_friendly (destination move) p (board g)
     || negb (bool_decide (pc = mpiece move))
  then mret false else
  let opp_colour := opposite (pcolour mp) in
  if match board_get (board g) (origin move) with
     | None => true
     | Some q => negb (bool_decide (pcolour q = pcolour mp))
     end
  then mret false else
  '(init_file, init_findex, init_rank, dest_file, dest_findex, dest_rank) ←
    lift (coords (origin move) (destination move));
  match ptype p with
  | Some Pawn =>
      let rank_steps := dest_rank - init_rank in
      let file_steps := dest_findex - init_findex in
      let factor := match pcolour p with white => 1 | black => -1 end in
      if 1 <? Z.abs file_steps then mret false
      else if (Z.abs file_steps =? 1) && (rank_steps =? factor) then
        match board_get (board g) (destination move) with
        | Some q => mret (bool_decide (pcolour q = opp_colour))
        | None =>
            mret (bool_decide
                    (Some (destination move) = en_passant_target (board g)))
        end
      else
        lift (is_pawn_move (origin move) (destination move) (board g) (pcolour p))
  | Some Knight => lift (is_knight_move (origin move) (destination move))
  | Some Bishop => lift (is_bishop_move (origin move) (destination move) (board g))
  | Some Rook => lift (is_rook_move (origin move) (destination move) (board g))
  | Some Queen =>
      b ← lift (is_bishop_move (origin move) (destination move) (board g));
      if b : bool then mret true
      else lift (is_rook_move (origin move) (destination move) (board g))
  | Some King =>
      if bool_decide (special move = Some castling) then
        ks ← lift (can_castle_kingside p g);
        if (ks : bool) && String.eqb (destination move) (square_name "g" init_rank)
        then mret true else
        qs ← lift (can_castle_queenside p g);
        if (qs : bool) && String.eqb (destination move) (square_name "c" init_rank)
        then mret true else
        mret false
      else
        let a := Z.abs (init_findex - dest_findex) in
        let b := Z.abs (init_rank - dest_rank) in
        let is_single_step := (Z.max a b =? 1) && (0 <? a + b) in
        is_safe ← square_remains_safe (destination move) move game (pcolour mp);
        mret (is_single_step && is_safe)
  | None => mret false
  end.

(** [GameState.generate_fen] *)
Definition generate_fen (g : GameState) : result string :=
  fen_board ← board_to_fen (board g);
  let fen_turn := match turn g with white => "w" | black => "b" end in
  let fen_castling :=
    (if white_kingside (can_castle g) then "K" else "")
    +:+ (if white_queenside (can_castle g) then "Q" else "")
    +:+ (if black_kingside (can_castle g) then "k" else "")
    +:+ (if black_queenside (can_castle g) then "q" else "") in
  let fen_castling := if String.eqb fen_castling "" then "-" else fen_castling in
  let fen_passant_target :=
    match en_passant_target (board g) with
    | Some t => if String.eqb t "" then "-" else t
    | None => "-"
    end in
  let fen_halfmoves := Py.str_of_int (halfmove_clock g) in
  let fen_fullmoves := Py.str_of_int (fullmoves g) in
  Ok (Py.join " " [fen_board; fen_turn; fen_castling; fen_passant_target;
                   fen_halfmoves; fen_fullmoves]).

(** [GameState.update_check]: [COLOURS] is [['black', 'white']]. *)
Definition update_check (self : loc) : M unit :=
  g ← read self;
  b ← lift (square_is_attacked (black_king_pos (board g)) (board g) black);
  modify self (λ g, set_in_check g (in_check_set (in_check g) black b));;
  g ← read self;
  w ← lift (square_is_attacked (white_king_pos (board g)) (board g) white);
  modify self (λ g, set_in_check g (in_check_set (in_check g) white w)).

(** The return value of [validate_move]: a [Move], [None], or the set of
    candidate origin squares. *)
Inductive Validated : Type :=
  | VMove (m : Move)
  | VNone
  | VConflict (origins : list string).

(** [hint in square] for a one-character [hint]; [hint] may also be any
    substring, here a prefix test at every position. *)
Fixpoint substring_at (hint l : list ascii) : bool :=
  match hint, l with
  | [], _ => true
  | _ :: _, [] => false
  | a :: hint', b :: l' => Ascii.eqb a b && substring_at hint' l'
  end.
Fixpoint is_substring (hint l : list ascii) : bool :=
  substring_at hint l ||
  match l with
  | [] => false
  | _ :: l' => is_substring hint l'
  end.

Definition add_unique (s : string) (l : list string) : list string :=
  if existsb (String.eqb s) l then l else l ++ [s].

Section with_set_order.

(** The order in which Python iterates over a [set] of strings depends on
    their hashes; [set_order] maps the elements in insertion order to the
    order of iteration. *)
Variable set_order : list string → list string.

(** [move_details['origin'] if move_details['capture'] else dest_file],
    as the text that the following f-string inserts. *)
Definition origin_file_of (o_hint cap : option string) (dest_file : ascii)
  : string :=
  match cap with
  | Some c =>
      if String.eqb c "" then String dest_file ""
      else match o_hint with Some o => o | None => "None" end
  | None => String dest_file ""
  end.

(** The block of [validate_move] under [case 'pawn'] that settles
    [origin_rank]: one step back from the destination, except on the
    double-step landing rank, where the two candidate ranks that hold a pawn
    of the player are kept and the one closest to the landing rank wins.
    [None] is the branch that returns [None]. *)
Definition pawn_origin_rank (b : Board) (player : Colour)
    (origin_file : string) (dest_rank : Z) : option Z :=
  let sign := match player with white => 1 | black => -1 end in
  let origin_rank := dest_rank - sign in
  let double_rank := match player with white => 4 | black => 5 end in
  if dest_rank =? double_rank then
    let potential_o_ranks :=
      List.filter (λ o_rank,
        let pos := origin_file +:+ Py.str_of_int o_rank in
        bool_decide (board_get b pos = Some (piece Pawn player)))
        [dest_rank - 2 * sign; dest_rank - sign] in
    match potential_o_ranks with
    | [r] => Some r
    | [r1; r2] =>
        (* min(potential_o_ranks, key=lambda r: abs(double_rank - r)) *)
        Some (if Z.abs (double_rank - r2) <? Z.abs (double_rank - r1)
              then r2 else r1)
    | _ => None
    end
  else Some origin_rank.

(** [validate_move]; [deets] stands for the three values of [move_data]. *)
Definition validate_move (deets : MoveDetails) (game : loc) (player : Colour)
  : M Validated :=
  g ← read game;
  let dest_key :=
    match deets with
    | PawnToken _ _ d _ | PromotionToken _ _ d _ _ | PieceToken _ _ _ d _ =>
        Some d
    | CastlingToken _ _ => None
    end in
  let is_pawn_type :=
    match deets with PawnToken _ _ _ _ => true | _ => false end in
  (* the value under the key ['capture'], when the dictionary has the key *)
  let capture_key :=
    match deets with
    | PawnToken _ c _ _ | PromotionToken _ c _ _ _ | PieceToken _ _ c _ _ =>
        Some c
    | CastlingToken _ _ => None
    end in
  '(dest_file, dest_rank, capt) ←
    match dest_key with
    | Some d =>
        '(dest_file, dest_rank) ← lift (Py.unpack2 d);
        dest_rank ← lift (Py.int_char dest_rank);
        mret (dest_file, dest_rank,
              (bool_decide (Some d = en_passant_target (board g))
               && is_pawn_type)
              || board_contains (board g) d)
    | None => mret ("000"%char, 0, false)
    end;
  if (capt : bool) && bool_decide (capture_key = Some None)
  then mret VNone
  else if negb capt
          && match capture_key with Some (Some _) => true | _ => false end
  then mret VNone
  else
  match deets with
  | PawnToken o_hint cap dest _ =>
      let sign := match player with white => 1 | black => -1 end in
      let origin_file := origin_file_of o_hint cap dest_file in
      match pawn_origin_rank (board g) player origin_file dest_rank with
      | None => mret VNone
      | Some origin_rank =>
          let pawn_origin := origin_file +:+ Py.str_of_int origin_rank in
          let pawn := board_get (board g) pawn_origin in
          let is_double := Z.abs (origin_rank - dest_rank) =? 2 in
          let is_en_passant :=
            bool_decide (Some dest = en_passant_target (board g)) in
          let move :=
            mkMove pawn_origin dest pawn
                   (if is_en_passant then Some en_passant else None)
                   None (is_en_passant || capt) "" None in
          if bool_decide (pawn = Some (piece Pawn player)) then
            legal ← is_legal_move move game;
            if legal : bool then
              (if is_double then
                 modify game (λ g, set_stray_en_passant_target g
                   (Some (square_name dest_file (dest_rank - sign))))
               else mret ());;
              mret (VMove move)
            else mret VNone
          else mret VNone
      end
  | PromotionToken o_hint cap dest promo _ =>
      let origin_rank := match player with white => "7" | black => "2" end in
      let origin_file := origin_file_of o_hint cap dest_file in
      let pawn_origin := origin_file +:+ origin_rank in
      let pawn := board_get (board g) pawn_origin in
      let move :=
        mkMove pawn_origin dest pawn (Some promotion) (Some promo) capt ""
               None in
      if bool_decide (pawn = Some (piece Pawn player)) then
        legal ← is_legal_move move game;
        mret (if legal : bool then VMove move else VNone)
      else mret VNone
  | PieceToken piece_type origin_hint _ dest _ =>
      (* PIECE_NAMES[piece_type], then Piece(type=piece_type, ...) *)
      pc ← match type_of_letter piece_type with
           | Some t => mret (piece t player)
           | None => raise KeyError
           end;
      search_squares ←
        lift (possible_destinations pc dest (board g) None true);
      let candidates :=
        foldl (λ acc square,
                 if bool_decide (board_get (board g) square = Some pc)
                 then add_unique square acc else acc)
              [] search_squares in
      let finish (square : string) : M Validated :=
        let move :=
          mkMove square dest (Some pc) None None capt "" origin_hint in
        legal ← is_legal_move move game;
        mret (if legal : bool then VMove move else VNone) in
      match candidates with
      | [] => mret VNone
      | [square] => finish square
      | _ =>
          match find (λ square,
                  match origin_hint with
                  | Some hint =>
                      negb (String.eqb hint "")
                      && is_substring (Py.chars hint) (Py.chars square)
                  | None => false
                  end) (set_order candidates) with
          | Some square => finish square
          | None => mret (VConflict candidates)
          end
      end
  | CastlingToken side _ =>
      let king_origin := match player with white => "e1" | black => "e8" end in
      let king := board_get (board g) king_origin in
      let file := if String.eqb side "O-O" then "g" else "c" in
      let dest :=
        file +:+ (match player with white => "1" | black => "8" end) in
      let move :=
        mkMove king_origin dest king (Some castling) None false "" None in
      if bool_decide (king = Some (piece King player)) then
        legal ← is_legal_move move game;
        mret (if legal : bool then VMove move else VNone)
      else mret VNone
  end.

End with_set_order.

(** What [legal_moves] returns: a truth value under [flag='any'], the list of
    moves under [flag=None]. *)
Inductive LegalMoves : Type :=
  | AnyMove (b : bool)
  | AllMoves (moves : list Move).

(** The loop over [search_squares] under [flag='any']. *)
Fixpoint any_legal (game : loc) (square : string) (pc : Piece)
    (dests : list string) : M bool :=
  match dests with
  | [] => mret false
  | dest :: dests' =>
      let move := Move_new square dest (Some pc) in
      legal ← is_legal_move move game;
      if legal : bool then mret true else any_legal game square pc dests'
  end.

(** The loop over [search_squares] under [flag=None]. *)
Fixpoint all_legal (game : loc) (square : string) (pc : Piece)
    (dests : list string) : M (list Move) :=
  match dests with
  | [] => mret []
  | dest :: dests' =>
      let move := Move_new square dest (Some pc) in
      legal ← is_legal_move move game;
      rest ← all_legal game square pc dests';
      mret (if legal : bool then move :: rest else rest)
  end.

(** The loop of [legal_moves] over [self.board.items()]. *)
Fixpoint legal_moves_any (self : loc) (items : list (string * Piece)) : M bool :=
  match items with
  | [] => mret false
  | (square, pc) :: items' =>
      g ← read self;
      if bool_decide (pcolour pc = turn g) then
        search_squares ←
          lift (possible_destinations pc square (board g) None false);
        found ← any_legal self square pc search_squares;
        if found : bool then mret true else legal_moves_any self items'
      else legal_moves_any self items'
  end.

Fixpoint legal_moves_all (self : loc) (items : list (string * Piece))
  : M (list Move) :=
  match items with
  | [] => mret []
  | (square, pc) :: items' =>
      g ← read self;
      if bool_decide (pcolour pc = turn g) then
        search_squares ←
          lift (possible_destinations pc square (board g) None false);
        moves ← all_legal self square pc search_squares;
        rest ← legal_moves_all self items';
        mret (moves ++ rest)
      else legal_moves_all self items'
  end.

(** [GameState.legal_moves]; [any] is [flag == 'any'], otherwise [flag] is
    [None]. *)
Definition legal_moves (self : loc) (any : bool) : M LegalMoves :=
  g ← read self;
  if any then b ← legal_moves_any self (squares (board g)); mret (AnyMove b)
  else l ← legal_moves_all self (squares (board g)); mret (AllMoves l).

(** [GameState.check_if_end] *)
Definition check_if_end (self : loc) : M unit :=
  g ← read self;
  let player := turn g in
  has_legal_moves ← legal_moves_any self (squares (board g));
  g ← read self;
  last_position ← lift (generate_fen g);
  if in_check_get (in_check g) player && negb has_legal_moves then
    write self (set_end g true (Some "checkmate")
                        (Some (colour_name (opposite player))))
  else if negb has_legal_moves then
    write self (set_end g true (Some "stalemate") (Some "draw"))
  else if bool_decide
            (Py.get (Py.drop_last4 last_position) (position_count g) = Some 3) then
    write self (set_end g true (Some "threefold repetition") (Some "draw"))
  else if 100 <=? halfmove_clock g then
    write self (set_end g true (Some "50 move rule") (Some "draw"))
  else mret ().

(** [GameState.load_fen] with [is_start] at its default [True]. *)
Definition load_fen (self : loc) (fen : string) : M unit :=
  match Py.split fen with
  | [placement; turn_field; castling_field; en_passant_field; half_moves;
     full_moves] =>
      if negb (Regex.placement placement) then raise ValueError else
      (λ h, match h !! self with
            | None => (Raise DanglingReference, h)
            | Some g =>
                let '(b, r) := fen_to_board (board g) placement in
                (r, <[self := set_board g b]> h)
            end);;
      modify self (λ g,
        set_turn g (if String.eqb turn_field "w" then white else black));;
      (if negb (String.eqb castling_field "-") then
         foldr (λ '(colour, side) rest,
             let letter :=
               to_fen colour (match side with kingside => "k" | queenside => "q" end) in
             modify self (λ g, set_can_castle g
               (castle_set (can_castle g) colour side
                  (is_substring (Py.chars letter) (Py.chars castling_field))));;
             g ← read self;
             let king_pos :=
               match colour with
               | black => black_king_pos (board g)
               | white => white_king_pos (board g)
               end in
             a ← lift (square_is_attacked king_pos (board g) colour);
             modify self (λ g, set_in_check g (in_check_set (in_check g) colour a));;
             rest)
           (mret ())
           [(white, kingside); (white, queenside);
            (black, kingside); (black, queenside)]
       else mret ());;
      (if negb (String.eqb en_passant_field "-") then
         modify_board self (λ b,
           Ok (mkBoard (squares b) (white_king_pos b) (black_king_pos b)
                       (Some en_passant_field)))
       else mret ());;
      n ← lift (Py.int half_moves);
      modify self (λ g, set_halfmove_clock g n);;
      n ← (if negb (String.eqb full_moves "")
              && negb (String.eqb full_moves "-")
           then lift (Py.int full_moves) else mret 0);
      modify self (λ g, set_fullmoves g n);;
      modify self (λ g,
        set_position_history g (<[0 := fen]> (position_history g)))
  | _ => raise ValueError
  end.

(** The attribute values that [GameState.__init__] assigns before it loads a
    position. *)
Definition GameState_blank : GameState :=
  mkGameState Board_new white (mkCastleRights true true true true)
    (mkInCheck false false) false None None [] ∅ [] 0 0 None.

(** [GameState(fen)]; [GameState_init] adds the [pgn] argument. *)
Definition GameState_new (fen : option string) : M loc :=
  self ← alloc GameState_blank;
  match fen with
  | Some f => if String.eqb f "" then load_fen self FEN_INITIAL
              else load_fen self f
  | None => load_fen self FEN_INITIAL
  end;;
  mret self.

Section with_set_order.

Variable set_order : list string → list string.

(** [self.move_history[-1][k] = v] *)
Definition history_set_last (mh : list (Py.dict Move)) (k : string)
    (v : Move) : list (Py.dict Move) :=
  match rev mh with
  | last :: before => rev before ++ [Py.set k v last]
  | [] => []
  end.

(** [self.move_history[-1][k].check_str = s] *)
Definition history_mark_last (mh : list (Py.dict Move)) (k : string)
    (s : string) : result (list (Py.dict Move)) :=
  match rev mh with
  | last :: before =>
      match Py.get k last with
      | Some m =>
          Ok (rev before ++
              [Py.set k (mkMove (origin m) (destination m) (mpiece m)
                                (special m) (promote m) (is_capture m) s
                                (disambiguation m)) last])
      | None => Raise KeyError
      end
  | [] => Raise IndexError
  end.

(** The loop of [process_player_move] over the candidate readings of an
    ambiguous token; it collects the results that are [Move]s. *)
Fixpoint validate_each (self : loc) (move_info : list MoveDetails)
  : M (list Move) :=
  match move_info with
  | [] => mret []
  | move_dict :: rest =>
      g ← read self;
      potential_move ← validate_move set_order move_dict self (turn g);
      rest ← validate_each self rest;
      mret match potential_move with
           | VMove m => m :: rest
           | _ => rest
           end
  end.

(** [GameState.process_player_move] *)
Definition process_player_move (self : loc) (player_move : string) : M unit :=
  g ← read self;
  let last_passant := en_passant_target (board g) in
  move_info ← lift (parse_move player_move true);
  validated ←
    match move_info with
    | Ambiguous ds =>
        potential_moves ← validate_each self ds;
        match potential_moves with
        | [m] => mret (VMove m)
        | _ => raise (Exception "Could not validate")
        end
    | Unambiguous d =>
        g ← read self;
        validate_move set_order d self (turn g)
    end;
  match validated with
  | VConflict _ => raise (Exception "Move is ambiguous")
  | VNone => mret ()
  | VMove validated =>
      g ← read self;
      let last_turn := turn g in
      make_move self validated;;
      (if bool_decide (mpiece validated = Some (piece King black)) then
         modify_board self (λ b,
           Ok (mkBoard (squares b) (white_king_pos b) (destination validated)
                       (en_passant_target b)))
       else if bool_decide (mpiece validated = Some (piece King white)) then
         modify_board self (λ b,
           Ok (mkBoard (squares b) (destination validated) (black_king_pos b)
                       (en_passant_target b)))
       else mret ());;
      g ← read self;
      (if bool_decide (last_passant = en_passant_target (board g)) then
         modify_board self (λ b,
           Ok (mkBoard (squares b) (white_king_pos b) (black_king_pos b) None))
       else mret ());;
      mp ← (if is_capture validated then mret true
            else p ← lift (attr (mpiece validated));
                 mret (has_type p Pawn));
      modify self (λ g,
        set_halfmove_clock g (if mp : bool then 0 else halfmove_clock g + 1));;
      g ← read self;
      snapshot ← lift (generate_fen g);
      (match last_turn with
       | black =>
           modify self (λ g, set_move_history g
             (match move_history g with
              | [] => [[(colour_name last_turn, validated)]]
              | mh => history_set_last mh (colour_name last_turn) validated
              end));;
           modify self (λ g, set_fullmoves g (fullmoves g + 1))
       | white =>
           modify self (λ g, set_move_history g
             (move_history g ++ [[(colour_name last_turn, validated)]]));;
           modify self (λ g, set_position_history g
             (<[fullmoves g + 1 := snapshot]> (position_history g)))
       end);;
      let snapshot_position := Py.drop_last4 snapshot in
      modify self (λ g, set_position_count g
        (if Py.mem snapshot_position (position_count g) then position_count g
         else Py.set snapshot_position 0 (position_count g)));;
      g ← read self;
      n ← lift (match Py.get snapshot_position (position_count g) with
                | Some n => Ok n
                | None => Raise KeyError
                end);
      write self (set_position_count g
                    (Py.set snapshot_position (n + 1) (position_count g)));;
      update_check self;;
      g ← read self;
      if white_in_check (in_check g) || black_in_check (in_check g) then
        mh ← lift (history_mark_last (move_history g)
                                     (colour_name last_turn) "+");
        modify self (λ g, set_move_history g mh)
      else mret ()
  end.

End with_set_order.

(** Running a computation in a store. *)
Definition run {A : Type} (m : M A) (h : heap) : result A * heap := m h.


(** ** utils.py: [strip_brackets] *)

(** The loop of [strip_brackets] over the characters of [text], with its
    variables [result] and [depth]; the alert printed at a closing character
    outside every bracket is not modelled. *)
Fixpoint strip_brackets_loop (open close : ascii) (result : list ascii)
    (depth : Z) (text : list ascii) : list ascii :=
  match text with
  | [] => result
  | char :: text' =>
      if Ascii.eqb char open then
        strip_brackets_loop open close result (depth + 1) text'
      else if Ascii.eqb char close then
        strip_brackets_loop open close result
          (if 0 <? depth then depth - 1 else depth) text'
      else if depth =? 0 then
        strip_brackets_loop open close (result ++ [char]) depth text'
      else strip_brackets_loop open close result depth text'
  end.

(** [strip_brackets(text, open, close)] *)
Definition strip_brackets (text : string) (open close : ascii) : string :=
  Py.str (strip_brackets_loop open close [] 0 (Py.chars text)).

(** ** moves.py: [Move.__str__] *)

(** [s[0]] *)
Definition first_char (s : string) : result ascii :=
  match Py.chars s with
  | c :: _ => Ok c
  | [] => Raise IndexError
  end.

(** [f'{x}'] for an attribute that holds a string or [None]. *)
Definition format_opt (s : option string) : string :=
  match s with Some s => s | None => "None" end.

(** [str(move)] *)
Definition Move_str (m : Move) : result string :=
  let check_symbol := check_str m in
  if bool_decide (special m = Some castling) then
    c ← first_char (destination m);
    Ok ((if Ascii.eqb c "g" then "O-O" else "O-O-O") +:+ check_symbol)
  else
    pc ← attr (mpiece m);
    if has_type pc Pawn then
      string ← (if is_capture m then
                  c ← first_char (origin m); Ok (String c "x")
                else Ok "");
      let string := string +:+ destination m in
      let string :=
        if bool_decide (special m = Some promotion)
        then string +:+ "=" +:+ format_opt (promote m) else string in
      Ok (string +:+ check_symbol)
    else
      let string := format_opt (type_letter <$> ptype pc) in
      let string :=
        match disambiguation m with
        | Some d => string +:+ d
        | None => string
        end in
      let string := if is_capture m then string +:+ "x" else string in
      Ok (string +:+ destination m +:+ check_symbol).

(** ** parsing.py: [normalize_move_data], [SAN_PATTERN], [CMD_PATTERN] and
    [move_or_command] *)

(** The ['move'] entry that [normalize_move_data] rebuilds from the
    normalised details: the components that are present and not empty, in
    the order piece, origin, capture, destination, promotion (after ['=']),
    side, check. *)
Definition normalized_move (d : MoveDetails) : string :=
  let component (s : option string) := from_option id "" s in
  match d with
  | PawnToken o x dest chk =>
      component o +:+ component x +:+ dest +:+ component chk
  | PromotionToken o x dest promo chk =>
      component o +:+ component x +:+ dest
      +:+ (if String.eqb promo "" then "" else "=" +:+ promo)
      +:+ component chk
  | PieceToken pc o x dest chk =>
      pc +:+ component o +:+ component x +:+ dest +:+ component chk
  | CastlingToken side chk => side +:+ component chk
  end.

Module Search.

(** An optional item of a pattern followed by the rest [k] of the pattern:
    whether the text matches with the item or without it. *)
Definition opt_then (class : ascii → bool) (k : list ascii → bool)
    (l : list ascii) : bool :=
  match l with
  | c :: l' => class c && k l'
  | [] => false
  end || k l.

(** [re.match(SAN_PATTERN, text)] as a truth value: the optional promotion
    and check suffixes may match nothing, so the text matches when it starts
    with [[KQRBN]?[a-h1-8]?x?[a-h][1-8]] or with [O-O]. *)
Definition san (ic : bool) (l : list ascii) : bool :=
  opt_then (Regex.piece_class ic)
    (opt_then (λ c, Regex.file_class ic c || Regex.rank_1_8 c)
       (opt_then (Regex.letter ic "x")
          (λ l, match l with
                | f :: r :: _ => Regex.file_class ic f && Regex.rank_1_8 r
                | _ => false
                end))) l
  || match l with
     | o1 :: d :: o2 :: _ =>
         Regex.letter ic "O" o1 && Ascii.eqb d "-" && Regex.letter ic "O" o2
     | _ => false
     end.

(** A literal word at the start of the text, under [re.IGNORECASE]. *)
Fixpoint word (w l : list ascii) : bool :=
  match w, l with
  | [], _ => true
  | x :: w', c :: l' => Regex.letter true x c && word w' l'
  | _ :: _, [] => false
  end.

(** [CMD_PATTERN] at the start of the text, under [re.IGNORECASE]: the
    optional parts [.*] and [(?:uit)?] may match nothing. *)
Definition command (l : list ascii) : bool :=
  match l with
  | c :: _ => Ascii.eqb c "/" || Regex.letter true "q" c || Ascii.eqb c "?"
  | [] => false
  end
  || word (Py.chars "resign") l || word (Py.chars "exit") l
  || word (Py.chars "help") l.

(** [re.search]: a match that starts at some position of the text. *)
Fixpoint search (pattern : list ascii → bool) (l : list ascii) : bool :=
  pattern l ||
  match l with
  | _ :: l' => search pattern l'
  | [] => false
  end.

(** [\d+\.(?:\.\.)?] at the start of the text: the number of characters of
    the match. *)
Fixpoint digits (l : list ascii) : nat :=
  match l with
  | c :: l' => if Py.is_digit c then S (digits l') else O
  | [] => O
  end.

Definition number (l : list ascii) : option nat :=
  let n := digits l in
  match n, drop n l with
  | S _, "."%char :: rest =>
      match rest with
      | "."%char :: "."%char :: _ => Some (n + 3)%nat
      | _ => Some (n + 1)%nat
      end
  | _, _ => None
  end.

(** [re.sub(num_pattern, '', item)]: [skip] characters of the current match
    are still to be dropped. *)
Fixpoint remove_numbers (skip : nat) (l : list ascii) : list ascii :=
  match l with
  | [] => []
  | c :: l' =>
      match skip with
      | S skip' => remove_numbers skip' l'
      | O =>
          match number l with
          | Some n => remove_numbers (pred n) l'
          | None => c :: remove_numbers O l'
          end
      end
  end.

(** [re.sub(r';[^\n]*\s*?', '', pgn)]: the lazy [\s*?] at the end of the
    pattern matches nothing, so a match runs from a semicolon to the end of
    its line. *)
Fixpoint remove_comments (in_comment : bool) (l : list ascii) : list ascii :=
  match l with
  | [] => []
  | c :: l' =>
      if in_comment then
        if Ascii.eqb c "010" then c :: remove_comments false l'
        else remove_comments true l'
      else if Ascii.eqb c ";" then remove_comments true l'
      else c :: remove_comments false l'
  end.

End Search.

(** What [move_or_command] returns: ['cmd'] or ['move']. *)
Inductive InputKind : Type := cmd_input | move_input.

Definition move_or_command (player_input : string) : result InputKind :=
  let l := Py.chars player_input in
  if Search.search Search.command l then Ok cmd_input
  else if Search.search (Search.san true) l then Ok move_input
  else Raise ValueError.

(** ** gamerules.py: [generate_pgn], [load_pgn], [undo] *)

(** [l[start:stop]] for bounds that are [None] or integers. *)
Definition slice_bound (len i : Z) : Z :=
  if i <? 0 then Z.max 0 (len + i) else Z.min len i.

Definition slice {A : Type} (l : list A) (start stop : option Z) : list A :=
  let len := Z.of_nat (List.length l) in
  let lo := from_option (slice_bound len) 0 start in
  let hi := from_option (slice_bound len) len stop in
  take (Z.to_nat (hi - lo)) (drop (Z.to_nat lo) l).

(** [l[i]] for a list, with Python's wrap-around for negative indices. *)
Definition list_index {A : Type} (l : list A) (i : Z) : result A :=
  let j := if i <? 0 then Z.of_nat (List.length l) + i else i in
  if j <? 0 then Raise IndexError
  else match l !! Z.to_nat j with
       | Some a => Ok a
       | None => Raise IndexError
       end.

(** The inner loop of [generate_pgn] over [moves.values()]. *)
Fixpoint generate_pgn_turn (moves : list (string * Move)) (pgn_string : string)
  : result string :=
  match moves with
  | [] => Ok pgn_string
  | (_, move_turn) :: moves' =>
      s ← Move_str move_turn;
      generate_pgn_turn moves' (pgn_string +:+ s +:+ " ")
  end.

(** The outer loop of [generate_pgn]; [i] is the counter of [enumerate]. *)
Fixpoint generate_pgn_loop (g : GameState) (start_num i : Z)
    (turns : list (Py.dict Move)) (pgn_string : string) : result string :=
  match turns with
  | [] => Ok pgn_string
  | moves :: turns' =>
      let pgn_string := pgn_string +:+ Py.str_of_int (start_num + i) +:+ "." in
      first ← list_index (move_history g) 0;
      let pgn_string :=
        if (List.length first =? 1)%nat && Py.mem "black" first && (i =? 1)
        then pgn_string +:+ ".." else pgn_string in
      let pgn_string := pgn_string +:+ " " in
      pgn_string ← generate_pgn_turn moves pgn_string;
      generate_pgn_loop g start_num (i + 1) turns' pgn_string
  end.

(** [GameState.generate_pgn(start_move, end_move)] *)
Definition generate_pgn (g : GameState) (start_move end_move : option Z)
  : result string :=
  last ← list_index (move_history g) (-1);
  let error := if Py.mem "black" last then 0 else 1 in
  let start_num :=
    fullmoves g - Z.of_nat (List.length (move_history g)) + error in
  let bound (move_num : option Z) :=
    match move_num with
    | Some n => if n =? 0 then None else Some (n - start_num)
    | None => None
    end in
  generate_pgn_loop g start_num 1
    (slice (move_history g) (bound start_move) (bound end_move)) "".

(** [try: m  except Exception: ...]: [None] when [m] raised.  What [m] did to
    the store before it raised stays. *)
Definition try_except {A : Type} (m : M A) : M (option A) := λ h,
  match m h with
  | (Ok a, h') => (Ok (Some a), h')
  | (Raise _, h') => (Ok None, h')
  end.

Section with_set_order.

Variable set_order : list string → list string.

(** The loop of [load_pgn] over the tokens. *)
Fixpoint load_pgn_loop (self : loc) (pgn_tokens : list string) : M unit :=
  match pgn_tokens with
  | [] => mret ()
  | token :: pgn_tokens' =>
      if String.eqb token "1-0" || String.eqb token "0-1" then
        modify self (λ g, set_end g (is_end g) (end_state g)
          (Some (if String.eqb token "1-0" then "white" else "black")));;
        g ← read self;
        if negb (is_end g)
        then write self (set_end g true (Some "resignation") (winner g))
        else mret ()
      else if String.eqb token "1/2-1/2" then
        modify self (λ g, set_end g (is_end g) (end_state g) (Some "draw"));;
        g ← read self;
        if negb (is_end g)
        then write self (set_end g true (Some "agreement") (winner g))
        else mret ()
      else if negb (Search.san false (Py.chars token)) then
        load_pgn_loop self pgn_tokens'
      else
        let item :=
          match Search.number (Py.chars token) with
          | Some _ => Py.str (Search.remove_numbers O (Py.chars token))
          | None => token
          end in
        if String.eqb item "" then load_pgn_loop self pgn_tokens' else
        done ← try_except (process_player_move set_order self item);
        match done with
        | None => mret ()
        | Some _ =>
            check_if_end self;;
            g ← read self;
            (if bool_decide (end_state g = Some "checkmate") then
               mh ← lift
                 match winner g with
                 | Some w => history_mark_last (move_history g) w "#"
                 | None =>
                     _ ← list_index (move_history g) (-1); Raise KeyError
                 end;
               modify self (λ g, set_move_history g mh)
             else mret ());;
            load_pgn_loop self pgn_tokens'
        end
  end.

(** [GameState.load_pgn] *)
Definition load_pgn (self : loc) (pgn : string) : M unit :=
  let pgn := strip_brackets pgn "[" "]" in
  let pgn := strip_brackets pgn "{" "}" in
  let pgn := Py.str (Search.remove_comments false (Py.chars pgn)) in
  let pgn := strip_brackets pgn "(" ")" in
  load_pgn_loop self (Py.split pgn).

(** [GameState(fen, pgn)] *)
Definition GameState_init (fen pgn : option string) : M loc :=
  self ← GameState_new fen;
  match pgn with
  | Some p => if String.eqb p "" then mret () else load_pgn self p
  | None => mret ()
  end;;
  mret self.

(** [GameState.undo(dest_move, colour)] for a [colour] that is [None],
    ['white'] or ['black'].  The result is the pair of the game to continue
    with and the snapshot. *)
Definition undo (self : loc) (dest_move : option Z) (colour : option Colour)
  : M (loc * option loc) :=
  g ← read self;
  let is_restart := bool_decide (dest_move = Some 0) in
  let dest_move :=
    match dest_move with
    | None => fullmoves g - 1
    | Some n => if n <? 0 then fullmoves g + n else n
    end in
  let colour := from_option id (turn g) colour in
  let first_move_num :=
    Z.abs (fullmoves g - Z.of_nat (List.length (move_history g))) in
  if ((dest_move <? first_move_num) && negb (dest_move =? 0))
     || (fullmoves g <? dest_move) then raise ValueError
  else if dest_move =? fullmoves g then mret (self, None)
  else
    snapshot ← deepcopy self;
    new_game ← GameState_new None;
    start ← lift match position_history g !! 0 with
                 | Some fen => Ok fen
                 | None => Raise KeyError
                 end;
    load_fen new_game start;;
    (if negb is_restart then
       desired_pgn ← lift (generate_pgn g None (Some dest_move));
       load_pgn new_game desired_pgn;;
       n ← read new_game;
       if negb (bool_decide (turn n = colour)) then
         player_move ← lift (
           moves ← list_index (move_history g) dest_move;
           move ← match Py.get (colour_name (opposite colour)) moves with
                  | Some move => Ok move
                  | None => Raise KeyError
                  end;
           Move_str move);
         process_player_move set_order new_game player_move
       else mret ()
     else mret ());;
    mret (new_game, Some snapshot).

End with_set_order.

(** * Vocabulary of the theorems *)

(** ** Drivers and observations *)

(** The body of the driver loops ([ChessEngine.run], [load_pgn]): process one
    token, then evaluate the end of the game. *)
Fixpoint play_tokens (set_order : list string → list string) (self : loc)
    (tokens : list string) : M unit :=
  match tokens with
  | [] => mret ()
  | token :: tokens' =>
      process_player_move set_order self token;;
      check_if_end self;;
      play_tokens set_order self tokens'
  end.

(** A game built from [fen] and advanced through [tokens], in an empty
    store. *)
Definition game_after (set_order : list string → list string)
    (fen : option string) (tokens : list string) : result loc * heap :=
  run (self ← GameState_new fen; play_tokens set_order self tokens;; mret self) [].

(** What [f] sees of the object that a computation returns. *)
Definition observe {A : Type} (r : result loc * heap) (f : GameState → A)
  : result A :=
  match r with
  | (Ok l, h) =>
      match h !! l with
      | Some g => Ok (f g)
      | None => Raise DanglingReference
      end
  | (Raise e, _) => Raise e
  end.

(** The position fields of a position string: placement, turn, castling
    rights and en-passant target, without the two clocks. *)
Definition position_fields (fen : string) : list string :=
  take 4 (Py.split fen).

(** The position strings after each ply of a game. *)
Fixpoint positions_after (set_order : list string → list string) (self : loc)
    (tokens : list string) : M (list string) :=
  match tokens with
  | [] => mret []
  | token :: tokens' =>
      process_player_move set_order self token;;
      check_if_end self;;
      g ← read self;
      fen ← lift (generate_fen g);
      rest ← positions_after set_order self tokens';
      mret (fen :: rest)
  end.

(** The game object that [GameState()] builds. *)
Definition initial_game : GameState :=
  Eval vm_compute in
    match run (GameState_new None) [] with
    | (_, g :: _) => g
    | _ => GameState_blank
    end.

(** A game with white pawns on e2 and e3. *)
Definition doubled_pawns_game : GameState :=
  Eval vm_compute in
    match run (GameState_new (Some "4k3/8/8/8/8/4P3/4P3/4K3 w - - 0 0")) [] with
    | (_, g :: _) => g
    | _ => GameState_blank
    end.

(** A knight shuffle in which the position after 1. Nf3 Nf6 comes back after
    plies 6 and 10. *)
Definition knight_shuffle : list string :=
  ["Nf3"; "Nf6"; "Nc3"; "Nc6"; "Nb1"; "Nb8"; "Nc3"; "Nc6"; "Nb1"; "Nb8"].

(** ** Squares of the board *)

(** The 64 coordinates: file a-h, rank 1-8. *)
Definition on_board (square : string) : bool :=
  match Py.chars square with
  | [f; r] => Regex.file_class false f && Regex.rank_1_8 r
  | _ => false
  end.

(** A pawn standing on the rank it cannot advance from: rank 8 for white,
    rank 1 for black. *)
Definition pawn_on_last_rank (pc : Piece) (square : string) : bool :=
  has_type pc Pawn
  && match Py.chars square with
     | [_; r] =>
         Ascii.eqb r (match pcolour pc with white => "8" | black => "1" end)
     | _ => false
     end.

(** ** Pawn ranks *)

(** The rank on which a double step lands, the rank from which it starts,
    and the rank one step behind the landing rank. *)
Definition double_rank (player : Colour) : Z :=
  match player with white => 4 | black => 5 end.
Definition start_rank (player : Colour) : Z :=
  match player with white => 2 | black => 7 end.
Definition single_rank (player : Colour) : Z :=
  match player with white => 3 | black => 6 end.

(** ** Placement fields *)

(** The placement field as the specification describes a well-formed one:
    ranks separated by ['/'], exactly 8 of them, each describing exactly 8
    files (a digit stands for that many empty files, a piece letter for
    one). *)
Fixpoint split_slash (cur : list ascii) (l : list ascii) : list (list ascii) :=
  match l with
  | [] => [rev cur]
  | c :: l' =>
      if Ascii.eqb c "/" then rev cur :: split_slash [] l'
      else split_slash (c :: cur) l'
  end.

Definition rank_files (rank : list ascii) : option Z :=
  foldr (λ c acc,
           n ← acc;
           if Regex.rank_1_8 c then Some (n + (Py.code c - 48))
           else if Regex.placement_class c then Some (n + 1)
           else None)
        (Some 0) rank.

Definition describes_8_by_8 (placement : string) : bool :=
  let ranks := split_slash [] (Py.chars placement) in
  bool_decide (List.length ranks = 8%nat)
  && forallb (λ rank, bool_decide (rank_files rank = Some 8)) ranks.

(** ** Invariants of the store

    [hoare I m Q]: run in a store that satisfies [I], the computation [m]
    ends, by a return or by a raise, in a store that satisfies [I], and a
    value it returns satisfies [Q]. *)
Definition hoare {A : Type} (I : heap → Prop) (m : M A) (Q : A → Prop)
  : Prop :=
  ∀ h, I h → I (m h).2 ∧ ∀ a, (m h).1 = Ok a → Q a.

(** The stores that extend [h0]: the objects of [h0] are as they were. *)
Definition extends (h0 : heap) : heap → Prop := λ h, h0 `prefix_of` h.

(** The stores in which the object at [self] satisfies [P]. *)
Definition holds_at (self : loc) (P : GameState → Prop) : heap → Prop :=
  λ h, ∃ g, h !! self = Some g ∧ P g.

(** ** The verdict of [check_if_end]

    The game object that [check_if_end] leaves, from the object [g] it
    found, the answer of [legal_moves(flag='any')] and the position string of
    [g]. *)
Definition end_verdict (g : GameState) (has_legal_moves : bool)
    (last_position : string) : GameState :=
  if in_check_get (in_check g) (turn g) && negb has_legal_moves then
    set_end g true (Some "checkmate") (Some (colour_name (opposite (turn g))))
  else if negb has_legal_moves then
    set_end g true (Some "stalemate") (Some "draw")
  else if bool_decide
            (Py.get (Py.drop_last4 last_position) (position_count g) = Some 3) then
    set_end g true (Some "threefold repetition") (Some "draw")
  else if 100 <=? halfmove_clock g then
    set_end g true (Some "50 move rule") (Some "draw")
  else g.

(** ** The language of the placement pattern

    [placement_shape n l]: the characters [l] are [n] groups, each a run of 1
    to 8 characters of [[rnbqkpRNBQKP1-8]] followed by ['/'] or standing at
    the end of the string, and after the last group the string ends (or a
    final newline is left). *)
Definition placement_group (grp : list ascii) : Prop :=
  (1 ≤ List.length grp ≤ 8)%nat
  ∧ Forall (λ c, Regex.placement_class c = true) grp.

Fixpoint placement_shape (n : nat) (l : list ascii) : Prop :=
  match n with
  | O => l = [] ∨ l = ["010"%char]
  | S n' =>
      ∃ grp, placement_group grp
             ∧ ((∃ rest, l = grp ++ "/"%char :: rest ∧ placement_shape n' rest)
                ∨ (l = grp ∧ placement_shape n' []))
  end.


(** ** What a computation does to one object

    [tracks self g m Q]: run in a store that holds [g] at [self], a return
    of [m] with the value [a] leaves at [self] an object [g'] with
    [Q a g']. *)
Definition tracks {A : Type} (self : loc) (g : GameState) (m : M A)
    (Q : A → GameState → Prop) : Prop :=
  ∀ h a h', h !! self = Some g → m h = (Ok a, h') →
            ∃ g', h' !! self = Some g' ∧ Q a g'.

(** The attributes of a game besides its board, its turn and its castling
    rights. *)
Definition bookkeeping (g : GameState) :=
  (in_check g, is_end g, end_state g, winner g, move_history g,
   position_history g, position_count g, halfmove_clock g, fullmoves g).

(** The attributes of a board besides the occupancy of its squares. *)
Definition king_squares (b : Board) : string * string :=
  (white_king_pos b, black_king_pos b).

(** The piece that [make_move] puts on the destination square: the piece
    found on the origin square, or under a promotion a new piece of the same
    colour. *)
Definition placed_piece (move : Move) (pc : Piece) : result Piece :=
  if bool_decide (special move = Some promotion)
  then Piece_new (promote move) (pcolour pc) else Ok pc.

(** The castling rights after a piece of [pc]'s kind and colour has moved. *)
Definition rights_after (cr : CastleRights) (pc : Piece) : CastleRights :=
  if has_type pc King
  then castle_set (castle_set cr (pcolour pc) kingside false)
                  (pcolour pc) queenside false
  else cr.

(** The cached king squares after a piece of [pc]'s kind has gone to
    [destination] on [player]'s turn. *)
Definition king_squares_after (b : Board) (pc : Piece) (player : Colour)
    (destination : string) : string * string :=
  if has_type pc King
  then match player with
       | white => (destination, black_king_pos b)
       | black => (white_king_pos b, destination)
       end
  else king_squares b.

(** ** A move that has been played

    [played g g']: from [g] to [g'] the turn has passed to the other side, no
    en-passant target is set, the full-move number has gone up after a black
    move, the half-move clock has been reset or has gone up by one, and the
    end of the game is as it was recorded. *)
Definition played (g g' : GameState) : Prop :=
  turn g' = opposite (turn g)
  ∧ en_passant_target (board g') = None
  ∧ fullmoves g' = match turn g with
                   | white => fullmoves g
                   | black => fullmoves g + 1
                   end
  ∧ (halfmove_clock g' = 0 ∨ halfmove_clock g' = halfmove_clock g + 1)
  ∧ List.length (move_history g')
    = match turn g with
      | white => S (List.length (move_history g))
      | black => Nat.max 1 (List.length (move_history g))
      end
  ∧ (is_end g', end_state g', winner g') = (is_end g, end_state g, winner g).

(** The game after 1. e4 e5, played from the initial position. *)
Definition open_game : GameState :=
  Eval vm_compute in
    match game_after id None ["e4"; "e5"] with
    | (Ok l, h) => default GameState_blank (h !! l)
    | _ => GameState_blank
    end.

(** ** Normal forms of move tokens

    The readings that [parse_move] returns, and what a normalised reading
    looks like: the destination a square of the board in lower case, on the
    ranks of its pattern (2 to 7 for a pawn move, 1 or 8 for a promotion);
    an origin hint one lower-case file letter or, for a piece, one rank
    digit; piece letters in upper case; a capture mark that is ['x'], a
    check mark that is ['+'] or ['#']; for a pawn, an origin file exactly
    when there is a capture mark. *)
Definition readings (p : Parsed) : list MoveDetails :=
  match p with
  | Unambiguous d => [d]
  | Ambiguous ds => ds
  end.

Definition square_in (ranks : ascii → bool) (square : string) : bool :=
  match Py.chars square with
  | [f; r] => Regex.file_class false f && ranks r
  | _ => false
  end.

Definition one_of (l : list string) (s : string) : bool :=
  existsb (String.eqb s) l.

Definition normal_hint (ranks : bool) (hint : option string) : bool :=
  match hint with
  | None => true
  | Some s =>
      match Py.chars s with
      | [c] => Regex.file_class false c || (ranks && Regex.rank_1_8 c)
      | _ => false
      end
  end.

Definition normal_mark (marks : list string) (mark : option string) : bool :=
  match mark with
  | None => true
  | Some s => one_of marks s
  end.

Definition normal_details (d : MoveDetails) : bool :=
  match d with
  | PawnToken o x dest chk =>
      normal_hint false o && normal_mark ["x"] x
      && bool_decide (is_Some o ↔ is_Some x)
      && square_in Regex.rank_2_7 dest && normal_mark ["+"; "#"] chk
  | PromotionToken o x dest promo chk =>
      normal_hint false o && normal_mark ["x"] x
      && bool_decide (is_Some o ↔ is_Some x)
      && square_in Regex.rank_1_or_8 dest && one_of ["N"; "B"; "R"; "Q"] promo
      && normal_mark ["+"; "#"] chk
  | PieceToken pc o x dest chk =>
      one_of ["N"; "B"; "R"; "Q"; "K"] pc
      && normal_hint true o && normal_mark ["x"] x
      && square_in Regex.rank_1_8 dest && normal_mark ["+"; "#"] chk
  | CastlingToken side chk =>
      one_of ["O-O"; "O-O-O"] side && normal_mark ["+"; "#"] chk
  end.

(** The 256 characters. *)
Definition all_ascii : list ascii := map ascii_of_nat (seq 0 256).

(** The characters that may follow the destination of a token: a check mark
    or the final newline that [$] tolerates. *)
Definition closes_token (c : ascii) : bool :=
  Regex.check_class c || Ascii.eqb c "010".

(** One character as a string. *)
Definition one_char (c : ascii) : string := String c "".

(** The details of a token without its check mark. *)
Definition without_check (d : MoveDetails) : MoveDetails :=
  match d with
  | PawnToken o x dest _ => PawnToken o x dest None
  | PromotionToken o x dest promo _ => PromotionToken o x dest promo None
  | PieceToken pc o x dest _ => PieceToken pc o x dest None
  | CastlingToken side _ => CastlingToken side None
  end.

(** A game in which both sides may castle on both sides: kings and rooks on
    their home squares and nothing else on the board. *)
Definition castling_game : GameState :=
  Eval vm_compute in
    match game_after id (Some "r3k2r/8/8/8/8/8/8/R3K2R w KQkq - 0 0") [] with
    | (Ok l, h) => default GameState_blank (h !! l)
    | _ => GameState_blank
    end.

(** * Lemmas and theorems *)

(** ** The store monad *)

(** When a computation returns, so did its first part. *)
Lemma bind_Ok_inv {A B : Type} (m : M A) (f : A → M B) (h h' : heap) (b : B) :
  (m ≫= f) h = (Ok b, h') → ∃ a h1, m h = (Ok a, h1) ∧ f a h1 = (Ok b, h').
Proof.
  unfold mbind, M_bind. destruct (m h) as [[a|e] h1]; [eauto | done].
Qed.

Section hoare.
Context (I : heap → Prop).

Lemma hoare_weaken {A} (m : M A) (P Q : A → Prop) :
  hoare I m P → (∀ a, P a → Q a) → hoare I m Q.
Proof. intros Hm HPQ h Hh. destruct (Hm h Hh) as [? HP]. eauto. Qed.

Lemma hoare_ret {A} (a : A) (Q : A → Prop) : Q a → hoare I (mret a) Q.
Proof. intros HQ h Hh. split; [done|]. intros a' [= <-]. done. Qed.

Lemma hoare_raise {A} (e : exn) (Q : A → Prop) : hoare I (raise e) Q.
Proof. intros h Hh. split; [done|]. intros a' [=]. Qed.

Lemma hoare_lift {A} (r : result A) : hoare I (lift r) (λ _, True).
Proof. intros h Hh. split; done. Qed.

Lemma hoare_bind {A B} (m : M A) (f : A → M B) (P : A → Prop)
    (Q : B → Prop) :
  hoare I m P → (∀ a, P a → hoare I (f a) Q) → hoare I (m ≫= f) Q.
Proof.
  intros Hm Hf h Hh. destruct (Hm h Hh) as [Hpre HP].
  unfold mbind, M_bind. destruct (m h) as [[a|e] h'] eqn:E; simpl in *.
  - apply (Hf a); auto.
  - split; [done|]. intros a' [=].
Qed.

Lemma hoare_read (l : loc) : hoare I (read l) (λ _, True).
Proof. intros h Hh. unfold read. case_match; split; done. Qed.
End hoare.

(** *** Stores that extend a given one *)

Section extends.
Context (h0 : heap).

Lemma extends_write (l : loc) (g : GameState) :
  (List.length h0 ≤ l)%nat → hoare (extends h0) (write l g) (λ _, True).
Proof.
  intros Hl h [k ->]. unfold write, extends.
  case_match; simpl; split; try done.
  - rewrite insert_app_r_alt by done. by apply prefix_app_r.
  - by apply prefix_app_r.
Qed.

Lemma extends_alloc (g : GameState) :
  hoare (extends h0) (alloc g) (λ l, (List.length h0 ≤ l)%nat).
Proof.
  intros h Hh. unfold alloc, extends; simpl. split.
  - by apply prefix_app_r.
  - intros a [= <-]. by apply prefix_length.
Qed.

Lemma extends_modify (l : loc) (f : GameState → GameState) :
  (List.length h0 ≤ l)%nat → hoare (extends h0) (modify l f) (λ _, True).
Proof.
  intros Hl. unfold modify.
  eapply hoare_bind; [apply hoare_read|]. intros g _. by apply extends_write.
Qed.

Lemma extends_modify_board (l : loc) (f : Board → result Board) :
  (List.length h0 ≤ l)%nat →
  hoare (extends h0) (modify_board l f) (λ _, True).
Proof.
  intros Hl. unfold modify_board.
  eapply hoare_bind; [apply hoare_read|]. intros g _.
  eapply hoare_bind; [apply hoare_lift|]. intros b _. by apply extends_write.
Qed.

Lemma extends_deepcopy (game : loc) :
  hoare (extends h0) (deepcopy game) (λ l, (List.length h0 ≤ l)%nat).
Proof.
  unfold deepcopy.
  eapply hoare_bind; [apply hoare_read|]. intros g _. apply extends_alloc.
Qed.
End extends.

(** *** Stores in which one object keeps a property *)

Section holds_at.
Context (self : loc) (P : GameState → Prop).

Lemma hoare_read_at : hoare (holds_at self P) (read self) P.
Proof.
  intros h (g & Hg & HP). unfold read. rewrite Hg. simpl. split.
  - by exists g.
  - by intros a [= <-].
Qed.

Lemma holds_at_write (g : GameState) :
  P g → hoare (holds_at self P) (write self g) (λ _, True).
Proof.
  intros HP h (g0 & Hg0 & _). unfold write. rewrite Hg0. simpl.
  split; [|done]. exists g. split; [|done].
  apply list_lookup_insert_eq. by eapply lookup_lt_Some.
Qed.

Lemma holds_at_modify (f : GameState → GameState) :
  (∀ g, P g → P (f g)) → hoare (holds_at self P) (modify self f) (λ _, True).
Proof.
  intros Hf. unfold modify.
  eapply hoare_bind; [apply hoare_read_at|]. intros g HP.
  apply holds_at_write. auto.
Qed.

Lemma holds_at_modify_board (f : Board → result Board) :
  (∀ g b, P g → P (set_board g b)) →
  hoare (holds_at self P) (modify_board self f) (λ _, True).
Proof.
  intros Hf. unfold modify_board.
  eapply hoare_bind; [apply hoare_read_at|]. intros g HP.
  eapply hoare_bind; [apply hoare_lift|]. intros b _.
  apply holds_at_write. auto.
Qed.
End holds_at.

(** One step of an invariant proof: split a bind, use the rule of a store
    primitive, or follow a branch of the program. *)
Ltac hoare_step :=
  lazymatch goal with
  | |- hoare _ (mret _) _ => by apply hoare_ret
  | |- hoare _ (raise _) _ => apply hoare_raise
  | |- hoare _ (lift _) _ => apply hoare_lift
  | |- hoare (holds_at ?l _) (read ?l) _ => apply hoare_read_at
  | |- hoare _ (read _) _ => apply hoare_read
  | |- hoare (extends _) (write _ _) _ => by apply extends_write
  | |- hoare (extends _) (modify _ _) _ => by apply extends_modify
  | |- hoare (extends _) (modify_board _ _) _ => by apply extends_modify_board
  | |- hoare (holds_at ?l _) (write ?l _) _ => by apply holds_at_write
  | |- hoare (holds_at ?l _) (modify ?l _) _ =>
      apply holds_at_modify; by intros
  | |- hoare (holds_at ?l _) (modify_board ?l _) _ =>
      apply holds_at_modify_board; by intros
  | |- hoare _ (mbind _ (read _)) _ =>
      eapply hoare_bind; [hoare_step|intros ? ?]
  | |- hoare _ (mbind _ _) _ =>
      eapply (hoare_bind _ _ _ (λ _, True)); [|intros ? _]
  | |- hoare _ (match ?x with _ => _ end) _ => destruct x
  | |- hoare _ (let _ := _ in _) _ => cbv zeta
  end.

(** ** [make_move] and the probes of [is_legal_move] *)

Lemma extends_make_move (h0 : heap) (self : loc) (move : Move) :
  (List.length h0 ≤ self)%nat →
  hoare (extends h0) (make_move self move) (λ _, True).
Proof. intros Hself. unfold make_move. repeat hoare_step. Qed.

Lemma extends_simulate_move (h0 : heap) (move : Move) (game : loc) :
  hoare (extends h0) (simulate_move move game) (λ _, True).
Proof.
  unfold simulate_move.
  eapply hoare_bind; [apply extends_deepcopy|]. intros clone Hclone.
  eapply hoare_bind; [by apply extends_make_move|]. intros _ _.
  by apply hoare_ret.
Qed.

Lemma extends_square_remains_safe (h0 : heap) (square : string) (move : Move)
    (game : loc) (colour : Colour) :
  hoare (extends h0) (square_remains_safe square move game colour) (λ _, True).
Proof.
  unfold square_remains_safe.
  eapply hoare_bind; [apply extends_simulate_move|]. intros clone _.
  repeat hoare_step.
Qed.

Lemma extends_is_legal_move (h0 : heap) (move : Move) (game : loc) :
  hoare (extends h0) (is_legal_move move game) (λ _, True).
Proof.
  unfold is_legal_move.
  repeat first [ apply extends_square_remains_safe | hoare_step ].
Qed.

(** C9: evaluating [is_legal_move(move, game)] leaves the caller's game
    object as it was: the record at [game] (board mapping, king squares,
    en-passant target, turn, castling rights, check flags, clocks, histories)
    is the same before and after, whatever the move and whether the call
    returns or raises.  Every other object of the caller's store is unchanged
    too; the store only gains the clones made by [simulate_move]. *)
Theorem is_legal_move_leaves_game_unchanged (move : Move) (game : loc)
    (h : heap) (g : GameState) :
  h !! game = Some g →
  (run (is_legal_move move game) h).2 !! game = Some g
  ∧ h `prefix_of` (run (is_legal_move move game) h).2.
Proof.
  intros Hg.
  destruct (extends_is_legal_move h move game h) as [Hpre _]; [done|].
  split; [|done]. by eapply prefix_lookup_Some.
Qed.

Lemma is_legal_move_leaves_game_unchanged_witness :
  let move := Move_new "e2" "e4" (Some (piece Pawn white)) in
  [initial_game] !! 0%nat = Some initial_game
  ∧ (run (is_legal_move move 0%nat) [initial_game]).1 = Ok true
  ∧ (run (is_legal_move move 0%nat) [initial_game]).2 !! 0%nat
    = Some initial_game.
Proof.
  intros move. split; [reflexivity|]. split; [vm_compute; reflexivity|].
  apply (is_legal_move_leaves_game_unchanged move 0%nat [initial_game]
           initial_game).
  reflexivity.
Defined.

(** X1: a rook that moves, from its home square or from anywhere else, leaves
    all four castling rights as they were, also when [make_move] raises
    midway. *)
Lemma make_move_rook_keeps_all_rights (self : loc) (move : Move) (h : heap)
    (g : GameState) (pc : Piece) :
  h !! self = Some g →
  board_get (board g) (origin move) = Some pc →
  ptype pc = Some Rook →
  special move ≠ Some promotion →
  ∃ g', (run (make_move self move) h).2 !! self = Some g'
        ∧ can_castle g' = can_castle g.
Proof.
  intros Hg Hpc Hrook Hspecial.
  destruct pc as [t c]; simpl in Hrook; subst t.
  unfold run, make_move.
  unfold mbind at 1, M_bind at 1, read at 1. rewrite Hg.
  unfold mbind at 1, M_bind at 1, lift at 1. rewrite Hpc. cbn [attr].
  match goal with
  | |- ∃ g', (?k h).2 !! self = _ ∧ _ =>
      enough (hoare (holds_at self (λ g', can_castle g' = can_castle g)) k
                    (λ _, True)) as Hk
  end.
  { destruct (Hk h) as [HI _]; [by exists g|]. exact HI. }
  eapply (hoare_bind _ _ _ (λ pc', pc' = mkPiece (Some Rook) c)).
  { destruct (special move) as [[]|]; [| |done|]; repeat hoare_step. }
  intros ? ->.
  change (has_type (mkPiece (Some Rook) c) King) with false.
  change (has_type (mkPiece (Some Rook) c) Rook) with true.
  cbv iota.
  repeat hoare_step.
Qed.

Lemma make_move_rook_keeps_all_rights_witness :
  ∃ g', (run (make_move 0%nat (Move_new "a1" "a2" (Some (piece Rook white))))
           [castling_game]).2 !! 0%nat = Some g'
        ∧ can_castle g' = can_castle castling_game.
Proof.
  apply (make_move_rook_keeps_all_rights 0%nat
           (Move_new "a1" "a2" (Some (piece Rook white))) [castling_game]
           castling_game (piece Rook white)).
  - reflexivity.
  - reflexivity.
  - reflexivity.
  - discriminate.
Defined.

(** C2: [make_move] applied to a rook that leaves its home square does not
    clear the castling right of that side: the statement that should clear it
    compares instead of assigning.  Here the white rook goes from a1 to a2 and
    [white_queenside] is still true afterwards. *)
Theorem make_move_rook_keeps_castling_right :
  observe
    (run (self ← GameState_new (Some "r3k2r/8/8/8/8/8/8/R3K2R w KQkq - 0 0");
          make_move self (Move_new "a1" "a2" (Some (piece Rook white)));;
          mret self) [])
    (λ g, (board_get (board g) "a1", board_get (board g) "a2",
           castle_get (can_castle g) white queenside))
  = Ok (None, Some (piece Rook white), true).
Proof. vm_compute. reflexivity. Qed.

(** The right that survives is used: after the rooks have gone away and come
    back, queenside castling is still accepted. *)
Lemma castling_after_rook_excursion (set_order : list string → list string) :
  observe
    (game_after set_order (Some "r3k2r/8/8/8/8/8/8/R3K2R w KQkq - 0 0")
       ["Ra2"; "Ra7"; "Ra1"; "Ra8"; "O-O-O"])
    generate_fen
  = Ok (Ok "r3k2r/8/8/8/8/8/8/2KR3R b kq - 5 2").
Proof. vm_compute. reflexivity. Qed.

(** ** Attack generators stay on the board *)

Lemma collect_Forall {A B : Type} (P : B → Prop) (f : A → result (list B))
    (l : list A) (out : list B) :
  (∀ a xs, f a = Ok xs → Forall P xs) →
  collect f l = Ok out → Forall P out.
Proof.
  intros Hf. revert out. induction l as [|a l IH]; intros out Hc; simpl in Hc.
  - injection Hc as <-. constructor.
  - destruct (f a) as [xs|] eqn:Hfa; [|discriminate]. simpl in Hc.
    destruct (collect f l) as [ys|]; [|discriminate]. simpl in Hc.
    injection Hc as <-. apply Forall_app. split; eauto.
Qed.

Lemma in_FILES_range_cases (i : Z) :
  in_FILES_range i = true →
  i = 0 ∨ i = 1 ∨ i = 2 ∨ i = 3 ∨ i = 4 ∨ i = 5 ∨ i = 6 ∨ i = 7.
Proof. unfold in_FILES_range. lia. Qed.

Lemma in_RANKS_cases (r : Z) :
  in_RANKS r = true →
  r = 1 ∨ r = 2 ∨ r = 3 ∨ r = 4 ∨ r = 5 ∨ r = 6 ∨ r = 7 ∨ r = 8.
Proof. unfold in_RANKS. lia. Qed.

(** A file letter obtained from an index in range and a rank in range name a
    square of the board. *)
Lemma square_name_on_board (i r : Z) (c : ascii) :
  in_FILES_range i = true → in_RANKS r = true → FILES_nth i = Ok c →
  on_board (square_name c r) = true.
Proof.
  intros Hi Hr Hc.
  destruct (in_FILES_range_cases i Hi) as [->|[->|[->|[->|[->|[->|[->| ->]]]]]]];
    injection Hc as <-;
    destruct (in_RANKS_cases r Hr) as [->|[->|[->|[->|[->|[->|[->| ->]]]]]]];
    reflexivity.
Qed.

Lemma ray_on_board (fuel : nat) (b : Board) (i r fs rs offset : Z)
    (out : list string) :
  ray fuel b i r fs rs offset = Ok out →
  Forall (λ d, on_board d = true) out.
Proof.
  revert offset out. induction fuel as [|fuel IH]; intros offset out Hray;
    simpl in Hray.
  - injection Hray as <-. constructor.
  - destruct (in_RANKS _ && in_FILES_range _) eqn:Hin;
      [|injection Hray as <-; constructor].
    apply andb_true_iff in Hin as [Hr Hf].
    destruct (FILES_nth _) as [c|] eqn:Hc; [|discriminate]. simpl in Hray.
    pose proof (square_name_on_board _ _ _ Hf Hr Hc) as Hon.
    destruct (board_contains _ _).
    + injection Hray as <-. by repeat constructor.
    + destruct (ray fuel _ _ _ _ _ _) as [rest|] eqn:Hrest; [|discriminate].
      injection Hray as <-. constructor; eauto.
Qed.

Lemma find_pawn_attacks_on_board (file : ascii) (rank : Z) (colour : Colour)
    (out : list string) :
  in_RANKS rank = true →
  find_pawn_attacks file rank colour true = Ok out →
  Forall (λ d, on_board d = true) out.
Proof.
  intros Hr. unfold find_pawn_attacks. cbn [andb].
  destruct ((rank =? 8) || (rank =? 1)) eqn:Hedge.
  - intros [= <-]. constructor.
  - apply collect_Forall. intros d xs.
    destruct (FILES_index file) as [i|]; [|discriminate]. simpl.
    destruct (in_FILES_range (i + d)) eqn:Hi; simpl; [|intros [= <-]; constructor].
    destruct (FILES_nth (i + d)) as [c|] eqn:Hc; [|discriminate]. simpl.
    intros [= <-]. repeat constructor.
    apply (square_name_on_board (i + d)); [done| |done].
    unfold in_RANKS in *. destruct colour; lia.
Qed.

Lemma find_knight_attacks_on_board (file : ascii) (rank : Z)
    (out : list string) :
  find_knight_attacks file rank = Ok out →
  Forall (λ d, on_board d = true) out.
Proof.
  unfold find_knight_attacks.
  destruct (FILES_index file) as [i|]; [|discriminate].
  cbn [mbind result_bind]. apply collect_Forall. intros [f r] xs.
  destruct (_ || _ || _) eqn:Hskip; [intros [= <-]; constructor|].
  apply orb_false_iff in Hskip as [Hskip Hr].
  apply orb_false_iff in Hskip as [_ Hf].
  apply negb_false_iff in Hr, Hf.
  destruct (negb (_ || _)); [intros [= <-]; constructor|].
  destruct (FILES_nth (i + f)) as [c|] eqn:Hc; [|discriminate]. simpl.
  intros [= <-]. repeat constructor. by apply (square_name_on_board (i + f)).
Qed.

Lemma find_king_attacks_on_board (file : ascii) (rank : Z)
    (out : list string) :
  find_king_attacks file rank = Ok out →
  Forall (λ d, on_board d = true) out.
Proof.
  unfold find_king_attacks.
  destruct (FILES_index file) as [i|]; [|discriminate].
  cbn [mbind result_bind]. apply collect_Forall. intros [f r] xs.
  destruct (_ && _); [intros [= <-]; constructor|].
  destruct (in_RANKS _ && in_FILES_range _) eqn:Hin;
    [|intros [= <-]; constructor].
  apply andb_true_iff in Hin as [Hr Hf].
  destruct (FILES_nth _) as [c|] eqn:Hc; [|discriminate]. simpl.
  intros [= <-]. repeat constructor.
  by apply (square_name_on_board (i + f * 1)).
Qed.

Lemma find_bishop_attacks_on_board (file : ascii) (rank : Z) (b : Board)
    (out : list string) :
  find_bishop_attacks file rank b = Ok out →
  Forall (λ d, on_board d = true) out.
Proof.
  unfold find_bishop_attacks.
  destruct (FILES_index file) as [i|]; [|discriminate].
  cbn [mbind result_bind]. apply collect_Forall. intros [fs rs] xs. apply ray_on_board.
Qed.

Lemma find_rook_attacks_on_board (file : ascii) (rank : Z) (b : Board)
    (out : list string) :
  find_rook_attacks file rank b = Ok out →
  Forall (λ d, on_board d = true) out.
Proof.
  unfold find_rook_attacks.
  destruct (FILES_index file) as [i|]; [|discriminate].
  cbn [mbind result_bind]. apply collect_Forall. intros [fs rs] xs.
  destruct (Bool.eqb _ _); [intros [= <-]; constructor|]. apply ray_on_board.
Qed.

Lemma rank_1_8_cases (r : ascii) :
  Regex.rank_1_8 r = true →
  r ∈ ["1"; "2"; "3"; "4"; "5"; "6"; "7"; "8"]%char.
Proof.
  destruct r as [[] [] [] [] [] [] [] []]; vm_compute; try discriminate;
    intros _; set_solver.
Qed.

Lemma file_class_cases (f : ascii) :
  Regex.file_class false f = true →
  f ∈ ["a"; "b"; "c"; "d"; "e"; "f"; "g"; "h"]%char.
Proof.
  destruct f as [[] [] [] [] [] [] [] []]; vm_compute; try discriminate;
    intros _; set_solver.
Qed.

Lemma on_board_inv (square : string) :
  on_board square = true →
  ∃ f r, square = String f (String r "")
         ∧ Regex.file_class false f = true ∧ Regex.rank_1_8 r = true.
Proof.
  unfold on_board.
  destruct square as [|f [|r [|? ?]]]; simpl; try discriminate.
  intros [Hf Hr]%andb_true_iff. eauto.
Qed.

(** A file letter and a rank in range name a square of the board. *)
Lemma file_rank_on_board (f : ascii) (n : Z) :
  Regex.file_class false f = true → in_RANKS n = true →
  on_board (square_name f n) = true.
Proof.
  intros Hf%file_class_cases Hn.
  destruct (in_RANKS_cases n Hn) as [->|[->|[->|[->|[->|[->|[->| ->]]]]]]];
    repeat (apply elem_of_cons in Hf as [->|Hf]; [reflexivity|]);
    by apply elem_of_nil in Hf.
Qed.

(** X2: every square that [possible_destinations] returns for a piece
    standing on a square of the board is a square of the board, whatever the
    occupancy, unless the piece is a pawn on its last rank asked for its
    moves ([attacks_only] unset). *)
Lemma possible_destinations_on_board (pc : Piece) (square : string)
    (b : Board) (attacks_only : bool) (dests : list string) :
  on_board square = true →
  pawn_on_last_rank pc square && negb attacks_only = false →
  possible_destinations pc square b None attacks_only = Ok dests →
  Forall (λ d, on_board d = true) dests.
Proof.
  intros (f & r & -> & Hf & Hr)%on_board_inv Hlast.
  unfold possible_destinations.
  change (Py.unpack2 (String f (String r ""))) with (Ok (f, r)).
  cbn [mbind result_bind].
  assert (∃ n, Py.int_char r = Ok n ∧ in_RANKS n = true
               ∧ (n = 8 → r = "8"%char) ∧ (n = 1 → r = "1"%char))
    as (n & -> & Hn & H8 & H1).
  { apply rank_1_8_cases in Hr.
    repeat (apply elem_of_cons in Hr as [->|Hr];
            [eexists; split; [reflexivity|]; split; [reflexivity|];
             split; intros [=]; reflexivity |]).
    by apply elem_of_nil in Hr. }
  cbn [mbind result_bind].
  destruct pc as [[[]|] c]; cbn [ptype pcolour].
  - (* pawn *)
    destruct (find_pawn_attacks f n c true) as [atk|] eqn:Hatk;
      [|discriminate].
    apply find_pawn_attacks_on_board in Hatk; [|done].
    cbn [mbind result_bind].
    destruct attacks_only; cbn [negb]; [by intros [= <-]|].
    assert (in_RANKS (n + match c with white => 1 | black => -1 end) = true)
      as Hstep.
    { unfold in_RANKS in *. destruct c.
      - assert (n ≠ 8); [|lia].
        intros ->. rewrite (H8 eq_refl) in Hlast. vm_compute in Hlast.
        discriminate.
      - assert (n ≠ 1); [|lia].
        intros ->. rewrite (H1 eq_refl) in Hlast. vm_compute in Hlast.
        discriminate. }
    destruct (n =? _) eqn:Hdouble; intros [= <-];
      repeat (apply Forall_app; split); try done;
      repeat constructor; try by apply file_rank_on_board.
    apply file_rank_on_board; [done|].
    unfold in_RANKS. destruct c; lia.
  - apply find_knight_attacks_on_board.
  - apply find_bishop_attacks_on_board.
  - apply find_rook_attacks_on_board.
  - destruct (find_bishop_attacks f n b) as [diag|] eqn:Hd; [|discriminate].
    destruct (find_rook_attacks f n b) as [orth|] eqn:Ho; [|discriminate].
    cbn [mbind result_bind]. intros [= <-]. apply Forall_app.
    eauto using find_bishop_attacks_on_board, find_rook_attacks_on_board.
  - destruct (find_king_attacks f n) as [ks|] eqn:Hk; [|discriminate].
    apply find_king_attacks_on_board in Hk. cbn [mbind result_bind].
    destruct (String.eqb _ _ && _); intros [= <-]; [|done].
    apply Forall_app. split; [done|].
    repeat constructor; by apply file_rank_on_board.
  - discriminate.
Qed.

Lemma possible_destinations_on_board_witness :
  Forall (λ d, on_board d = true) ["e2"; "f3"; "h3"].
Proof.
  apply (possible_destinations_on_board (piece Knight white) "g1"
           (board initial_game) false).
  - reflexivity.
  - reflexivity.
  - vm_compute. reflexivity.
Defined.

(** ** The rounds of a ray *)

(** Two squares of one ray that both lie on the board are at most seven steps
    apart. *)
Lemma ray_span (i r fs rs offset : Z) :
  fs ≠ 0 ∨ rs ≠ 0 →
  in_RANKS (r + rs * 1) && in_FILES_range (i + fs * 1) = true →
  in_RANKS (r + rs * offset) && in_FILES_range (i + fs * offset) = true →
  1 ≤ offset → offset ≤ 8.
Proof.
  unfold in_RANKS, in_FILES_range. intros Hdir H1 Hoff Hpos.
  apply andb_true_iff in H1 as [Hr1 Hf1], Hoff as [Hr Hf].
  destruct (Z_le_gt_dec offset 8) as [|Hbig]; [done|exfalso].
  destruct Hdir as [Hdir|Hdir]; nia.
Qed.

Lemma ray_fuel_irrelevant (b : Board) (i r fs rs : Z) (fuel1 fuel2 : nat)
    (offset : Z) :
  fs ≠ 0 ∨ rs ≠ 0 →
  1 ≤ offset →
  offset = 1
  ∨ in_RANKS (r + rs * 1) && in_FILES_range (i + fs * 1) = true →
  10 ≤ offset + Z.of_nat fuel1 → 10 ≤ offset + Z.of_nat fuel2 →
  ray fuel1 b i r fs rs offset = ray fuel2 b i r fs rs offset.
Proof.
  intros Hdir. revert fuel2 offset.
  induction fuel1 as [|fuel1 IH]; intros fuel2 offset Hpos Hfirst H1 H2.
  - destruct fuel2 as [|fuel2]; [done|]. simpl.
    destruct (in_RANKS (r + rs * offset) && in_FILES_range (i + fs * offset))
      eqn:Hin; [|done].
    destruct Hfirst as [->|Hfirst]; [lia|].
    pose proof (ray_span _ _ _ _ _ Hdir Hfirst Hin Hpos). lia.
  - destruct fuel2 as [|fuel2]; simpl.
    + destruct (in_RANKS (r + rs * offset) && in_FILES_range (i + fs * offset))
      eqn:Hin; [|done].
      destruct Hfirst as [->|Hfirst]; [lia|].
      pose proof (ray_span _ _ _ _ _ Hdir Hfirst Hin Hpos). lia.
    + destruct (in_RANKS (r + rs * offset) && in_FILES_range (i + fs * offset))
      eqn:Hin; [|done].
      rewrite (IH fuel2 (offset + 1)); [done|lia| |lia|lia].
      destruct Hfirst as [->|Hfirst]; auto.
Qed.

(** The nine rounds that [find_bishop_attacks] and [find_rook_attacks] give
    to a ray are as good as any larger number: the [while] loop of the
    program has left by then. *)
Lemma ray_fuel_enough (b : Board) (i r fs rs : Z) (fuel : nat) :
  fs ≠ 0 ∨ rs ≠ 0 → (ray_fuel ≤ fuel)%nat →
  ray fuel b i r fs rs 1 = ray ray_fuel b i r fs rs 1.
Proof.
  intros Hdir Hfuel. apply ray_fuel_irrelevant; auto; unfold ray_fuel in *; lia.
Qed.

(** C10: for a white pawn on e8, a square of the board, the destinations
    returned by [possible_destinations] contain e9, which is not a square of
    the board; likewise e0 for a black pawn on e1.  The forward steps are
    appended without the rank test that [find_pawn_attacks] applies. *)
Theorem pawn_on_last_rank_leaves_board :
  on_board "e8" = true
  ∧ possible_destinations (piece Pawn white) "e8" Board_new None false
    = Ok ["e9"]
  ∧ on_board "e9" = false
  ∧ on_board "e1" = true
  ∧ possible_destinations (piece Pawn black) "e1" Board_new None false
    = Ok ["e0"]
  ∧ on_board "e0" = false.
Proof. vm_compute. repeat split; reflexivity. Qed.

(** Such a pawn can come from a position string, and [legal_moves] then
    lists its step off the board. *)
Lemma legal_moves_off_board :
  match run (self ← GameState_new (Some "4P2k/8/8/8/8/8/8/K7 w - - 0 0");
             legal_moves self false) [] with
  | (Ok (AllMoves moves), _) =>
      existsb (λ m, String.eqb (origin m) "e8"
                    && String.eqb (destination m) "e9") moves
  | _ => false
  end = true.
Proof. vm_compute. reflexivity. Qed.

(** ** Castling as [is_legal_move] checks it *)

Lemma can_castle_kingside_inv (p : Piece) (g : GameState) :
  can_castle_kingside p g = Ok true →
  let r := back_rank_char (pcolour p) in
  castle_get (can_castle g) (pcolour p) kingside = true
  ∧ area_is_empty [on_rank "f" r; on_rank "g" r] g = true
  ∧ area_is_safe [on_rank "e" r; on_rank "f" r; on_rank "g" r] g = Ok true.
Proof.
  unfold can_castle_kingside. cbv zeta.
  destruct (castle_get _ _ _); [|discriminate].
  destruct (area_is_empty _ _); [|discriminate]. auto.
Qed.

Lemma can_castle_queenside_inv (p : Piece) (g : GameState) :
  can_castle_queenside p g = Ok true →
  let r := back_rank_char (pcolour p) in
  castle_get (can_castle g) (pcolour p) queenside = true
  ∧ area_is_empty [on_rank "d" r; on_rank "c" r] g = true
  ∧ area_is_safe [on_rank "e" r; on_rank "d" r; on_rank "c" r] g = Ok true.
Proof.
  unfold can_castle_queenside. cbv zeta.
  destruct (castle_get _ _ _); [|discriminate].
  destruct (area_is_empty _ _); [|discriminate]. auto.
Qed.

(** X3: what an accepted castling move guarantees: the right of that side is
    set, the two squares that the king crosses are empty (f and g, or d and
    c; the b-file square is not looked at), and the king's square and those
    two squares are not attacked by the opponent of the side to move. *)
Lemma is_legal_move_castling_inv (move : Move) (game : loc) (h : heap)
    (g : GameState) (p : Piece) :
  h !! game = Some g →
  board_get (board g) (origin move) = Some p →
  ptype p = Some King →
  special move = Some castling →
  (run (is_legal_move move game) h).1 = Ok true →
  let r := back_rank_char (pcolour p) in
  (castle_get (can_castle g) (pcolour p) kingside = true
   ∧ area_is_empty [on_rank "f" r; on_rank "g" r] g = true
   ∧ area_is_safe [on_rank "e" r; on_rank "f" r; on_rank "g" r] g = Ok true)
  ∨ (castle_get (can_castle g) (pcolour p) queenside = true
     ∧ area_is_empty [on_rank "d" r; on_rank "c" r] g = true
     ∧ area_is_safe [on_rank "e" r; on_rank "d" r; on_rank "c" r] g = Ok true).
Proof.
  intros Hg Hp Hking Hspecial Hlegal. unfold run in Hlegal.
  destruct (is_legal_move move game h) as [res h'] eqn:Hrun.
  simpl in Hlegal. subst res. unfold is_legal_move in Hrun.
  apply bind_Ok_inv in Hrun as (g0 & h0 & Hread & Hrun).
  unfold read in Hread. rewrite Hg in Hread. injection Hread as <- <-.
  rewrite Hp in Hrun.
  apply bind_Ok_inv in Hrun as (mp & h1 & Hmp & Hrun).
  apply bind_Ok_inv in Hrun as (king_pos & h2 & Hkp & Hrun).
  apply bind_Ok_inv in Hrun as (p' & h3 & Hp' & Hrun).
  injection Hp' as <- <-.
  apply bind_Ok_inv in Hrun as (safe & h4 & Hsafe & Hrun).
  assert (h4 !! game = Some g) as Hg4.
  { assert (h `prefix_of` h2) as H2.
    { destruct (has_type mp King).
      - injection Hkp as _ <-. by injection Hmp as _ <-.
      - apply bind_Ok_inv in Hkp as (? & ? & [= _ <-] & [= _ <-]).
        by injection Hmp as _ <-. }
    destruct (extends_square_remains_safe h king_pos move game (pcolour p) h2)
      as [H4 _]; [done|].
    rewrite Hsafe in H4. by eapply prefix_lookup_Some. }
  apply bind_Ok_inv in Hrun as (g4 & h5 & Hread & Hrun).
  unfold read in Hread. rewrite Hg4 in Hread. injection Hread as <- <-.
  destruct (_ || _ || _) in Hrun; [discriminate|].
  rewrite Hp in Hrun.
  destruct (negb (bool_decide _)) in Hrun; [discriminate|].
  apply bind_Ok_inv in Hrun as ([[[[[? ?] init_rank] ?] ?] ?] & h6 & _ & Hrun).
  rewrite Hking, Hspecial in Hrun.
  rewrite bool_decide_eq_true_2 in Hrun by done.
  apply bind_Ok_inv in Hrun as (ks & h7 & Hks & Hrun).
  injection Hks as Hks _.
  destruct ks.
  { left. by apply can_castle_kingside_inv. }
  cbn [andb] in Hrun.
  apply bind_Ok_inv in Hrun as (qs & h8 & Hqs & Hrun).
  injection Hqs as Hqs _.
  destruct qs.
  { right. by apply can_castle_queenside_inv. }
  discriminate.
Qed.

Lemma is_legal_move_castling_inv_witness :
  (castle_get (can_castle castling_game) white kingside = true
   ∧ area_is_empty [on_rank "f" "1"; on_rank "g" "1"] castling_game = true
   ∧ area_is_safe [on_rank "e" "1"; on_rank "f" "1"; on_rank "g" "1"]
       castling_game = Ok true)
  ∨ (castle_get (can_castle castling_game) white queenside = true
     ∧ area_is_empty [on_rank "d" "1"; on_rank "c" "1"] castling_game = true
     ∧ area_is_safe [on_rank "e" "1"; on_rank "d" "1"; on_rank "c" "1"]
         castling_game = Ok true).
Proof.
  apply (is_legal_move_castling_inv
           (mkMove "e1" "g1" (Some (piece King white)) (Some castling) None
                   false "" None)
           0%nat [castling_game] castling_game (piece King white)).
  - reflexivity.
  - reflexivity.
  - reflexivity.
  - reflexivity.
  - vm_compute. reflexivity.
Defined.

(** C3: [is_legal_move] accepts queenside castling although b1, a square
    strictly between the king on e1 and the rook on a1, is occupied:
    [can_castle_queenside] only looks at the d- and c-file squares. *)
Theorem queenside_castling_ignores_b_file :
  (run (self ← GameState_new
                 (Some "rnbqkbnr/pppppppp/8/8/8/8/PPPPPPPP/RN2KBNR w KQkq - 0 0");
        legal ← is_legal_move
                  (mkMove "e1" "c1" (Some (piece King white)) (Some castling)
                          None false "" None) self;
        g ← read self;
        mret (legal, board_get (board g) "b1", board_get (board g) "a1",
              board_get (board g) "e1")) []).1
  = Ok (true, Some (piece Knight white), Some (piece Rook white),
        Some (piece King white)).
Proof. vm_compute. reflexivity. Qed.

(** ** The origin of a pawn move to the double-step landing rank *)

Lemma pawn_origin_rank_both (b : Board) (player : Colour) (f : ascii) :
  board_get b (square_name f (start_rank player)) = Some (piece Pawn player) →
  board_get b (square_name f (single_rank player)) = Some (piece Pawn player) →
  pawn_origin_rank b player (String f "") (double_rank player)
  = Some (single_rank player).
Proof.
  intros Hstart Hsingle. unfold pawn_origin_rank.
  destruct player; cbn [double_rank start_rank single_rank] in *.
  - change (4 =? 4) with true. cbv iota zeta. cbn [List.filter].
    change (String f "" +:+ Py.str_of_int (4 - 2 * 1)) with (square_name f 2).
    change (String f "" +:+ Py.str_of_int (4 - 1)) with (square_name f 3).
    rewrite Hstart, Hsingle.
    rewrite !bool_decide_eq_true_2 by done. reflexivity.
  - change (5 =? 5) with true. cbv iota zeta. cbn [List.filter].
    change (String f "" +:+ Py.str_of_int (5 - 2 * -1)) with (square_name f 7).
    change (String f "" +:+ Py.str_of_int (5 - -1)) with (square_name f 6).
    rewrite Hstart, Hsingle.
    rewrite !bool_decide_eq_true_2 by done. reflexivity.
Qed.

(** C4, as the program has it: when [validate_move] resolves a non-capture
    pawn token whose destination is on the double-step landing rank (rank 4
    for white, rank 5 for black) and pawns of the player stand on both
    candidate origin squares, the [Move] it returns starts from the
    single-step square (rank 3 for white, rank 6 for black), the candidate
    closest to the landing rank, and not from the double-step starting
    rank. *)
Theorem validate_move_pawn_takes_nearest_origin
    (set_order : list string → list string) (game : loc) (h h' : heap)
    (g : GameState) (player : Colour) (f : ascii) (o_hint chk : option string)
    (m : Move) :
  h !! game = Some g →
  board_get (board g) (square_name f (start_rank player))
    = Some (piece Pawn player) →
  board_get (board g) (square_name f (single_rank player))
    = Some (piece Pawn player) →
  run (validate_move set_order
         (PawnToken o_hint None (square_name f (double_rank player)) chk)
         game player) h
    = (Ok (VMove m), h') →
  origin m = square_name f (single_rank player)
  ∧ origin m ≠ square_name f (start_rank player).
Proof.
  intros Hg Hstart Hsingle Hv.
  assert (origin m = square_name f (single_rank player)) as Ho.
  { unfold run, validate_move in Hv.
    apply bind_Ok_inv in Hv as (g' & h1 & Hread & Hv).
    unfold read in Hread. rewrite Hg in Hread. injection Hread as <- <-.
    apply bind_Ok_inv in Hv as ([[dest_file dest_rank] capt] & h2 & Hdest & Hv).
    assert (dest_file = f ∧ dest_rank = double_rank player ∧ h2 = h)
      as (-> & -> & ->).
    { destruct player; vm_compute in Hdest; by injection Hdest as <- <- _ <-. }
    cbv beta iota zeta in Hv. destruct capt; [discriminate|].
    cbn [negb andb] in Hv. unfold origin_file_of in Hv.
    rewrite (pawn_origin_rank_both _ _ _ Hstart Hsingle) in Hv.
    cbv beta iota zeta in Hv.
    destruct (bool_decide _) in Hv; [|discriminate].
    apply bind_Ok_inv in Hv as ([] & h3 & _ & Hv); [|discriminate].
    apply bind_Ok_inv in Hv as (_ & h4 & _ & Hv).
    injection Hv as <- _. destruct player; reflexivity. }
  split; [done|]. rewrite Ho. destruct player; discriminate.
Qed.

Lemma validate_move_pawn_takes_nearest_origin_witness :
  [doubled_pawns_game] !! 0%nat = Some doubled_pawns_game
  ∧ board_get (board doubled_pawns_game) "e2" = Some (piece Pawn white)
  ∧ board_get (board doubled_pawns_game) "e3" = Some (piece Pawn white)
  ∧ ∃ m h',
      run (validate_move id (PawnToken None None "e4" None) 0%nat white)
          [doubled_pawns_game]
      = (Ok (VMove m), h')
      ∧ origin m = "e3" ∧ origin m ≠ "e2".
Proof.
  split; [reflexivity|]. split; [reflexivity|]. split; [reflexivity|].
  eexists _, _. split; [vm_compute; reflexivity|].
  eapply (validate_move_pawn_takes_nearest_origin id 0%nat
            [doubled_pawns_game] _ doubled_pawns_game white "e" None None).
  - reflexivity.
  - reflexivity.
  - reflexivity.
  - vm_compute. reflexivity.
Defined.

(** C4 as the specification words it, with the origin on the double-step
    starting rank, fails on that game: the token e4 is resolved to the pawn
    on e3. *)
Lemma validate_move_pawn_origin_counterexample :
  ¬ (∀ (set_order : list string → list string) (game : loc) (h h' : heap)
       (g : GameState) (player : Colour) (f : ascii)
       (o_hint chk : option string) (m : Move),
       h !! game = Some g →
       board_get (board g) (square_name f (start_rank player))
         = Some (piece Pawn player) →
       board_get (board g) (square_name f (single_rank player))
         = Some (piece Pawn player) →
       run (validate_move set_order
              (PawnToken o_hint None (square_name f (double_rank player)) chk)
              game player) h
         = (Ok (VMove m), h') →
       origin m = square_name f (start_rank player)).
Proof.
  intros Hclaim.
  destruct (run (validate_move id (PawnToken None None "e4" None) 0%nat white)
                [doubled_pawns_game]) as [r h'] eqn:Hrun.
  pose proof Hrun as Hval. vm_compute in Hval.
  destruct r as [[m| |]|]; try discriminate.
  specialize (Hclaim id 0%nat [doubled_pawns_game] h' doubled_pawns_game
                white "e"%char None None m eq_refl eq_refl eq_refl Hrun).
  injection Hval as <- _. vm_compute in Hclaim. discriminate.
Qed.

(** ** En passant *)

(** C1: after 1. e4 a6 2. e5 d5 the black pawn has just advanced two squares
    next to the white pawn on e5, yet the board's en-passant target is unset
    ([validate_move] assigned the square to an attribute of the game object
    instead), so the capture exd6 on the very next move is refused and the
    token leaves the game as it was. *)
Theorem en_passant_refused_right_after_double_step
    (set_order : list string → list string) :
  let after := game_after set_order None ["e4"; "a6"; "e5"; "d5"] in
  observe after
    (λ g, (turn g, board_get (board g) "e5", board_get (board g) "d5",
           board_get (board g) "d6", en_passant_target (board g),
           stray_en_passant_target g))
  = Ok (white, Some (piece Pawn white), Some (piece Pawn black), None, None,
        Some "d6")
  ∧ parse_move "exd6" true
    = Ok (Unambiguous (PawnToken (Some "e") (Some "x") "d6" None))
  ∧ match after with
    | (Ok self, h) =>
        run (validate_move set_order
               (PawnToken (Some "e") (Some "x") "d6" None) self white) h
        = (Ok VNone, h)
        ∧ run (process_player_move set_order self "exd6") h = (Ok (), h)
    | _ => False
    end.
Proof. vm_compute. repeat split; reflexivity. Qed.

(** With the en-passant target present on the board (here read from the
    position string) the capture is accepted and clears the target: the
    capture rule itself works, the target is just never recorded by a
    two-square advance. *)
Lemma en_passant_accepted_when_board_target_set
    (set_order : list string → list string) :
  observe
    (game_after set_order
       (Some "rnbqkbnr/1pp1pppp/p7/3pP3/8/8/PPPP1PPP/RNBQKBNR w KQkq d6 0 2")
       ["exd6"])
    generate_fen
  = Ok (Ok "rnbqkbnr/1pp1pppp/p2P4/8/8/8/PPPP1PPP/RNBQKBNR b KQkq - 0 2").
Proof. vm_compute. reflexivity. Qed.

(** ** The end of the game *)

Lemma extends_any_legal (h0 : heap) (game : loc) (square : string)
    (pc : Piece) (dests : list string) :
  hoare (extends h0) (any_legal game square pc dests) (λ _, True).
Proof.
  induction dests as [|dest dests IH]; simpl.
  - by apply hoare_ret.
  - eapply hoare_bind; [apply extends_is_legal_move|]. intros [] _; [|done].
    by apply hoare_ret.
Qed.

Lemma extends_legal_moves_any (h0 : heap) (self : loc)
    (items : list (string * Piece)) :
  hoare (extends h0) (legal_moves_any self items) (λ _, True).
Proof.
  induction items as [|[square pc] items IH]; simpl.
  - by apply hoare_ret.
  - eapply hoare_bind; [apply hoare_read|]. intros g _.
    destruct (bool_decide _); [|done].
    eapply hoare_bind; [apply hoare_lift|]. intros dests _.
    eapply hoare_bind; [apply extends_any_legal|]. intros [] _; [|done].
    by apply hoare_ret.
Qed.



(** On a game that has not ended, [check_if_end] declares threefold
    repetition exactly when the side to move has a legal move and the count
    stored under the position string cut by four characters is 3. *)
Lemma end_verdict_threefold (g : GameState) (has_legal_moves : bool)
    (last_position : string) :
  end_state g = None →
  end_state (end_verdict g has_legal_moves last_position)
    = Some "threefold repetition"
  ↔ has_legal_moves = true
    ∧ Py.get (Py.drop_last4 last_position) (position_count g) = Some 3.
Proof.
  intros Hnone. unfold end_verdict.
  destruct has_legal_moves; rewrite ?andb_false_r; cbn [negb andb].
  - case_bool_decide as Hcount; simpl; [by split|].
    destruct (100 <=? halfmove_clock g); simpl; rewrite ?Hnone;
      (split; [intros [=] | intros [_ ?]; done]).
  - destruct (in_check_get _ _); simpl;
      (split; [intros [=] | intros [[=] _]]).
Qed.

(** C5: in the game 1. Nf3 Nf6 2. Nc3 Nc6 3. Nb1 Nb8 4. Nc3 Nc6 5. Nb1 Nb8
    the position reached after ply 10 (board, turn, castling rights and
    en-passant target) is the one reached after plies 2 and 6, so it has
    occurred three times, and the side to move is not in check and has a
    legal move; still [check_if_end] does not end the game.  The key under
    which [process_player_move] counts the position is the position string
    without its last four characters, and with the halfmove clock at 10 this
    cuts inside the clock fields: the third occurrence is counted under a key
    of its own. *)
Theorem third_repetition_missed_with_two_digit_clock
    (set_order : list string → list string) :
  match run (self ← GameState_new None;
             fens ← positions_after set_order self knight_shuffle;
             g ← read self;
             has_move ← legal_moves_any self (squares (board g));
             mret (fens, g, has_move)) [] with
  | (Ok (fens, g, has_move), _) =>
      let keys := position_fields <$> fens in
      keys !! 1%nat = keys !! 9%nat
      ∧ keys !! 5%nat = keys !! 9%nat
      ∧ List.length (List.filter (λ k, bool_decide (Some k = keys !! 9%nat)) keys)
        = 3%nat
      ∧ has_move = true
      ∧ in_check g = mkInCheck false false
      ∧ halfmove_clock g = 10
      ∧ (is_end g, end_state g, winner g) = (false, None, None)
      ∧ Py.get "rnbqkb1r/pppppppp/5n2/8/8/5N2/PPPPPPPP/RNBQKB1R w KQkq -"
               (position_count g)
        = Some 2
      ∧ Py.get "rnbqkb1r/pppppppp/5n2/8/8/5N2/PPPPPPPP/RNBQKB1R w KQkq - "
               (position_count g)
        = Some 1
  | _ => False
  end.
Proof. vm_compute. repeat split; reflexivity. Qed.

(** The same shuffle started one ply earlier completes a third occurrence
    while both clocks have one digit, and [check_if_end] declares the draw. *)
Lemma third_repetition_found_with_one_digit_clocks
    (set_order : list string → list string) :
  observe
    (game_after set_order None
       ["Nf3"; "Nf6"; "Ng1"; "Ng8"; "Nf3"; "Nf6"; "Ng1"; "Ng8"; "Nf3"])
    (λ g, (is_end g, end_state g, winner g, halfmove_clock g))
  = Ok (true, Some "threefold repetition", Some "draw", 9).
Proof. vm_compute. reflexivity. Qed.

(** The scholar's mate of the specification ends in checkmate, won by
    white. *)
Lemma scholars_mate (set_order : list string → list string) :
  observe
    (game_after set_order None
       ["e4"; "e5"; "Bc4"; "Nc6"; "Qh5"; "Nf6"; "Qxf7#"])
    (λ g, (is_end g, end_state g, winner g))
  = Ok (true, Some "checkmate", Some "white").
Proof. vm_compute. reflexivity. Qed.

(** ** Position strings *)

(** C7: decoding the standard initial position string with [load_fen] (as the
    constructor does) and encoding the state again with [generate_fen] gives
    back exactly that string. *)
Theorem initial_fen_round_trip :
  FEN_INITIAL = "rnbqkbnr/pppppppp/8/8/8/8/PPPPPPPP/RNBQKBNR w KQkq - 0 0"
  ∧ match run (self ← alloc GameState_blank;
               load_fen self FEN_INITIAL;;
               g ← read self;
               lift (generate_fen g)) [] with
    | (fen, _) => fen = Ok FEN_INITIAL
    end.
Proof. split; [reflexivity | vm_compute; reflexivity]. Qed.

(** ** The placement check of [load_fen] *)

Lemma class_run_spec (n : nat) (l : list ascii) (k : nat) (rest : list ascii) :
  Regex.class_run n l = (k, rest) →
  ∃ grp, l = grp ++ rest ∧ List.length grp = k ∧ (k ≤ n)%nat
         ∧ Forall (λ c, Regex.placement_class c = true) grp.
Proof.
  revert l k rest. induction n as [|n IH]; intros l k rest Hrun.
  - simpl in Hrun. injection Hrun as <- <-. exists []. repeat split; auto.
  - destruct l as [|c l]; simpl in Hrun.
    { injection Hrun as <- <-. exists []. repeat split; auto; simpl; lia. }
    destruct (Regex.placement_class c) eqn:Hc.
    + destruct (Regex.class_run n l) as [k' rest'] eqn:Hrun'.
      injection Hrun as <- <-.
      destruct (IH _ _ _ Hrun') as (grp & -> & <- & Hle & Hall).
      exists (c :: grp). repeat split; auto; simpl; lia.
    + injection Hrun as <- <-. exists []. repeat split; auto; simpl; lia.
Qed.

Lemma class_run_group (n : nat) (grp rest : list ascii) :
  Forall (λ c, Regex.placement_class c = true) grp →
  (List.length grp ≤ n)%nat →
  match rest with
  | [] => True
  | c :: _ => Regex.placement_class c = false ∨ List.length grp = n
  end →
  Regex.class_run n (grp ++ rest) = (List.length grp, rest).
Proof.
  revert grp. induction n as [|n IH]; intros grp Hall Hlen Hrest.
  - destruct grp; [|simpl in Hlen; lia]. reflexivity.
  - destruct grp as [|c grp]; simpl.
    + destruct rest as [|c rest]; [done|].
      destruct Hrest as [-> | Hlen0]; [done | simpl in Hlen0; lia].
    + apply Forall_cons in Hall as [-> Hall].
      rewrite IH; [done|done|simpl in Hlen; lia|].
      destruct rest; [done|]. destruct Hrest as [?|Hlen0]; [by left|].
      right. simpl in Hlen0. lia.
Qed.

Lemma at_end_shape (l : list ascii) :
  Regex.at_end l = true ↔ l = [] ∨ l = ["010"%char].
Proof.
  destruct l as [|c [|c' l']]; simpl.
  - split; auto.
  - rewrite Ascii.eqb_eq. split; [intros ->; by right|].
    intros [[=]|[= ->]]; done.
  - split; [discriminate|]. intros [[=]|[=]].
Qed.

Lemma slash_not_in_class : Regex.placement_class "/" = false.
Proof. reflexivity. Qed.

(** The placement check of [load_fen] accepts exactly the language of its
    pattern. *)
Lemma placement_groups_shape (n : nat) (l : list ascii) :
  Regex.placement_groups n l = true ↔ placement_shape n l.
Proof.
  revert l. induction n as [|n IH]; intros l.
  { apply at_end_shape. }
  cbn [Regex.placement_groups placement_shape]. split.
  - destruct (Regex.class_run 8 l) as [k rest] eqn:Hrun.
    destruct (class_run_spec _ _ _ _ Hrun) as (grp & -> & <- & Hle & Hall).
    intros Hm. exists grp.
    destruct (List.length grp) as [|k] eqn:Hk; [discriminate|].
    split; [split; [lia|done]|].
    destruct rest as [|c rest].
    + right. rewrite app_nil_r. split; [done|]. by apply IH.
    + apply andb_true_iff in Hm as [->%Ascii.eqb_eq Hm].
      left. exists rest. split; [done|]. by apply IH.
  - intros (grp & [Hlen Hall] & [(rest & -> & Hshape) | [-> Hshape]]).
    + rewrite class_run_group; [|done|lia|left; apply slash_not_in_class].
      destruct grp; [simpl in Hlen; lia|]. cbn [List.length].
      rewrite Ascii.eqb_refl. by apply IH.
    + rewrite <- (app_nil_r grp) at 1.
      rewrite class_run_group; [|done|lia|done].
      destruct grp; [simpl in Hlen; lia|]. cbn [List.length]. by apply IH.
Qed.

(** [Regex.placement] in words: the field is eight groups of 1 to 8 piece
    letters or digits 1-8, each followed by ['/'] or ending the field. *)
Lemma placement_shape_iff (placement : string) :
  Regex.placement placement = true
  ↔ placement_shape 8 (Py.chars placement).
Proof. apply placement_groups_shape. Qed.

Lemma load_fen_bad_placement (self : loc) (h : heap)
    (fen placement turn_field castling_field en_passant_field half_moves
       full_moves : string) :
  Py.split fen = [placement; turn_field; castling_field; en_passant_field;
                  half_moves; full_moves] →
  Regex.placement placement = false →
  load_fen self fen h = (Raise ValueError, h).
Proof.
  intros Hsplit Hshape. unfold load_fen.
  rewrite Hsplit, Hshape. reflexivity.
Qed.

(** C6, as the program has it: [load_fen] tests the placement field against
    the pattern [^([rnbqkpRNBQKP1-8]{1,8}(/|\Z)){8}$], eight groups of one to
    eight piece letters or digits 1-8, before it touches the board; a position
    string whose placement field fails this test is rejected with
    [ValueError] and no object of the store has changed. *)
Theorem load_fen_rejects_before_mutation (self : loc) (h : heap)
    (fen placement turn_field castling_field en_passant_field half_moves
       full_moves : string) :
  Py.split fen = [placement; turn_field; castling_field; en_passant_field;
                  half_moves; full_moves] →
  Regex.placement placement = false →
  run (load_fen self fen) h = (Raise ValueError, h).
Proof. intros Hsplit Hshape. by eapply load_fen_bad_placement. Qed.

Lemma load_fen_rejects_before_mutation_witness :
  Py.split "8/8/8/8/8/8/8 w - - 0 0" = ["8/8/8/8/8/8/8"; "w"; "-"; "-"; "0"; "0"]
  ∧ Regex.placement "8/8/8/8/8/8/8" = false
  ∧ run (load_fen 0%nat "8/8/8/8/8/8/8 w - - 0 0") [GameState_blank]
    = (Raise ValueError, [GameState_blank]).
Proof.
  split; [reflexivity|]. split; [reflexivity|].
  apply (load_fen_rejects_before_mutation 0%nat [GameState_blank]
           "8/8/8/8/8/8/8 w - - 0 0" "8/8/8/8/8/8/8" "w" "-" "-" "0" "0");
    reflexivity.
Defined.

(** The same in the words of the pattern: a placement field outside its
    language is rejected before any mutation. *)
Lemma load_fen_rejects_outside_pattern (self : loc) (h : heap)
    (fen placement turn_field castling_field en_passant_field half_moves
       full_moves : string) :
  Py.split fen = [placement; turn_field; castling_field; en_passant_field;
                  half_moves; full_moves] →
  ¬ placement_shape 8 (Py.chars placement) →
  run (load_fen self fen) h = (Raise ValueError, h).
Proof.
  intros Hsplit Hshape. eapply load_fen_bad_placement; [done|].
  destruct (Regex.placement placement) eqn:Hp; [|done].
  by apply placement_shape_iff in Hp.
Qed.

(** X5: a position string that does not split into six fields is rejected,
    as one with a bad placement field is, before the placement is looked at. *)
Lemma load_fen_rejects_wrong_field_count (self : loc) (h : heap)
    (fen : string) :
  List.length (Py.split fen) ≠ 6%nat →
  run (load_fen self fen) h = (Raise ValueError, h).
Proof.
  intros Hlen. unfold run, load_fen.
  destruct (Py.split fen) as [|? [|? [|? [|? [|? [|? [|? ?]]]]]]];
    try reflexivity.
  by destruct Hlen.
Qed.

Lemma load_fen_rejects_wrong_field_count_witness :
  run (load_fen 0%nat "8/8/8/8/8/8/8/8 w - -") [initial_game]
  = (Raise ValueError, [initial_game]).
Proof.
  apply (load_fen_rejects_wrong_field_count 0%nat [initial_game]).
  vm_compute. discriminate.
Defined.

(** C6 as the specification words it, every placement field that is not 8
    ranks of exactly 8 files being rejected, fails: the last rank of
    [8/8/8/8/8/8/8/7] describes 7 files, and [load_fen] accepts the string. *)
Lemma load_fen_accepts_short_rank_counterexample :
  ¬ (∀ (self : loc) (h : heap) (g : GameState)
       (fen placement turn_field castling_field en_passant_field half_moves
          full_moves : string),
       h !! self = Some g →
       Py.split fen = [placement; turn_field; castling_field; en_passant_field;
                       half_moves; full_moves] →
       describes_8_by_8 placement = false →
       ∃ e, run (load_fen self fen) h = (Raise e, h)).
Proof.
  intros Hclaim.
  destruct (Hclaim 0%nat [GameState_blank] GameState_blank
              "8/8/8/8/8/8/8/7 w - - 0 0" "8/8/8/8/8/8/8/7" "w" "-" "-" "0" "0"
              eq_refl eq_refl eq_refl) as [e He].
  vm_compute in He. discriminate.
Qed.

(** A placement that passes the pattern and overflows a rank makes
    [fen_to_board] raise after it has placed pieces. *)
Lemma load_fen_overflowing_rank :
  match run (load_fen 0%nat "pppp4p/8/8/8/8/8/8/8 w - - 0 0")
            [GameState_blank] with
  | (r, [g]) => r = Raise IndexError ∧ List.length (squares (board g)) = 4%nat
  | _ => False
  end.
Proof. vm_compute. split; reflexivity. Qed.

(** ** Legal moves of the initial position *)

(** C8: in the game constructed from the default initial position,
    [legal_moves()] returns a list of exactly 20 moves, all of them moves of
    white pieces. *)
Theorem initial_position_has_20_legal_moves :
  match run (self ← GameState_new None; legal_moves self false) [] with
  | (Ok (AllMoves moves), _) =>
      List.length moves = 20%nat
      ∧ forallb (λ m, bool_decide (pcolour <$> mpiece m = Some white)) moves
        = true
  | _ => False
  end.
Proof. vm_compute. split; reflexivity. Qed.

(** ** [strip_brackets] *)

Lemma chars_str (l : list ascii) : Py.chars (Py.str l) = l.
Proof. apply list_ascii_of_string_of_list_ascii. Qed.

Lemma str_chars (s : string) : Py.str (Py.chars s) = s.
Proof. apply string_of_list_ascii_of_string. Qed.

Lemma chars_app (s t : string) :
  Py.chars (s +:+ t) = Py.chars s ++ Py.chars t.
Proof. induction s as [|c s IH]; simpl; [done|]. by rewrite IH. Qed.

(** The loop only ever appends to [result]. *)
Lemma strip_brackets_loop_app (open close : ascii) (text result : list ascii)
    (depth : Z) :
  strip_brackets_loop open close result depth text
  = result ++ strip_brackets_loop open close [] depth text.
Proof.
  revert result depth.
  induction text as [|char text IH]; intros result depth; simpl.
  - by rewrite app_nil_r.
  - repeat case_match; try apply IH.
    rewrite IH, (IH [char]). by rewrite <-app_assoc.
Qed.

Lemma strip_brackets_loop_clean (open close : ascii) (text : list ascii)
    (depth : Z) :
  Forall (λ c, c ≠ open ∧ c ≠ close)
    (strip_brackets_loop open close [] depth text).
Proof.
  revert depth. induction text as [|char text IH]; intros depth; simpl.
  - constructor.
  - destruct (Ascii.eqb_spec char open); [apply IH|].
    destruct (Ascii.eqb_spec char close); [apply IH|].
    destruct (depth =? 0); [|apply IH].
    rewrite strip_brackets_loop_app. apply Forall_app. split; [|apply IH].
    by repeat constructor.
Qed.

(** X6: whatever the text, the result of [strip_brackets] holds neither the
    opening nor the closing character: both are dropped at every depth, also
    a closing character that closes nothing. *)
Theorem strip_brackets_no_brackets (text : string) (open close : ascii) :
  Forall (λ c, c ≠ open ∧ c ≠ close)
    (Py.chars (strip_brackets text open close)).
Proof.
  unfold strip_brackets. rewrite chars_str. apply strip_brackets_loop_clean.
Qed.

Lemma strip_brackets_loop_id (open close : ascii) (text : list ascii) :
  Forall (λ c, c ≠ open ∧ c ≠ close) text →
  strip_brackets_loop open close [] 0 text = text.
Proof.
  induction 1 as [|char text [Ho Hc] _ IH]; simpl; [done|].
  destruct (Ascii.eqb_spec char open); [done|].
  destruct (Ascii.eqb_spec char close); [done|].
  rewrite strip_brackets_loop_app, IH. done.
Qed.

(** X7: a text in which neither bracket character occurs comes back
    unchanged. *)
Theorem strip_brackets_without_brackets (text : string) (open close : ascii) :
  Forall (λ c, c ≠ open ∧ c ≠ close) (Py.chars text) →
  strip_brackets text open close = text.
Proof.
  intros H. unfold strip_brackets.
  rewrite strip_brackets_loop_id by done. apply str_chars.
Qed.

Lemma strip_brackets_without_brackets_witness :
  Forall (λ c, c ≠ "("%char ∧ c ≠ ")"%char) (Py.chars "e4")
  ∧ strip_brackets "e4" "(" ")" = "e4".
Proof.
  assert (Forall (λ c, c ≠ "("%char ∧ c ≠ ")"%char) (Py.chars "e4")) as H.
  { repeat constructor; discriminate. }
  split; [exact H|].
  apply (strip_brackets_without_brackets "e4" "(" ")" H).
Defined.

Lemma strip_brackets_loop_open (open close : ascii) (text : list ascii)
    (depth : Z) :
  0 < depth →
  Forall (λ c, c ≠ close) text →
  strip_brackets_loop open close [] depth text = [].
Proof.
  intros Hd H. revert depth Hd.
  induction H as [|char text Hc _ IH]; intros depth Hd; simpl; [done|].
  destruct (Ascii.eqb_spec char open); [apply IH; lia|].
  destruct (Ascii.eqb_spec char close); [done|].
  destruct (Z.eqb_spec depth 0); [lia|]. by apply IH.
Qed.

Lemma strip_brackets_loop_prefix (open close : ascii) (before rest : list ascii) :
  Forall (λ c, c ≠ open ∧ c ≠ close) before →
  strip_brackets_loop open close [] 0 (before ++ rest)
  = before ++ strip_brackets_loop open close [] 0 rest.
Proof.
  induction 1 as [|char text [Ho Hc] _ IH]; simpl; [done|].
  destruct (Ascii.eqb_spec char open); [done|].
  destruct (Ascii.eqb_spec char close); [done|].
  rewrite strip_brackets_loop_app, IH. done.
Qed.

(** X8: an opening bracket that is never closed swallows the rest of the
    text: of [before ++ open ++ rest], with no bracket in [before] and no
    closing character in [rest], only [before] is left. *)
Theorem strip_brackets_unclosed (before rest : string) (open close : ascii) :
  Forall (λ c, c ≠ open ∧ c ≠ close) (Py.chars before) →
  Forall (λ c, c ≠ close) (Py.chars rest) →
  strip_brackets (before +:+ String open rest) open close = before.
Proof.
  intros Hb Hr. unfold strip_brackets.
  rewrite chars_app. change (Py.chars (String open rest)) with (open :: Py.chars rest).
  rewrite strip_brackets_loop_prefix by done. simpl.
  rewrite Ascii.eqb_refl.
  rewrite strip_brackets_loop_open by (done || lia).
  rewrite app_nil_r. apply str_chars.
Qed.

Lemma strip_brackets_unclosed_witness :
  strip_brackets ("e4 " +:+ String "{" "best by test e5") "{" "}" = "e4 ".
Proof.
  apply (strip_brackets_unclosed "e4 " "best by test e5" "{" "}").
  - repeat constructor; discriminate.
  - repeat constructor; discriminate.
Defined.

(** ** Commands and moves *)

Lemma search_exists (pattern : list ascii → bool) (before l : list ascii) :
  pattern l = true → Search.search pattern (before ++ l) = true.
Proof.
  intros H. induction before as [|c before IH]; simpl.
  - destruct l; simpl; by rewrite H.
  - rewrite IH. apply orb_true_r.
Qed.

(** X9: an input in which the letter q occurs, in either case, is a
    command for [move_or_command], whatever else it holds: the alternative
    [q(?:uit)?] of [CMD_PATTERN] is searched for anywhere in the input.  Every
    queen move is such an input. *)
Theorem move_or_command_q_is_command (player_input : string) (c : ascii) :
  c ∈ Py.chars player_input →
  c = "q"%char ∨ c = "Q"%char →
  move_or_command player_input = Ok cmd_input.
Proof.
  intros Hin Hc. unfold move_or_command.
  apply list_elem_of_split in Hin as (before & after & ->).
  rewrite search_exists; [done|].
  by destruct Hc as [-> | ->].
Qed.

Lemma move_or_command_q_is_command_witness :
  move_or_command "Qxf7#" = Ok cmd_input.
Proof.
  apply (move_or_command_q_is_command "Qxf7#" "Q").
  - vm_compute. left.
  - by right.
Defined.

(** ** Move numbers in [load_pgn] *)





(** ** Following one object through a computation *)

Section tracks.
Context (self : loc).

Lemma tracks_weaken {A} (g : GameState) (m : M A)
    (P Q : A → GameState → Prop) :
  tracks self g m P → (∀ a g', P a g' → Q a g') → tracks self g m Q.
Proof.
  intros Hm HPQ h a h' Hg Hrun.
  destruct (Hm h a h' Hg Hrun) as (g' & ? & ?). eauto.
Qed.

Lemma tracks_ret {A} (g : GameState) (a : A) (Q : A → GameState → Prop) :
  Q a g → tracks self g (mret a) Q.
Proof. intros HQ h a' h' Hg [= <- <-]. eauto. Qed.

Lemma tracks_ret_eq {A} (g : GameState) (a : A) :
  tracks self g (mret a) (λ a' g', a' = a ∧ g' = g).
Proof. by apply tracks_ret. Qed.

Lemma tracks_raise {A} (g : GameState) (e : exn)
    (Q : A → GameState → Prop) :
  tracks self g (raise e) Q.
Proof. intros h a h' _ [=]. Qed.

Lemma tracks_lift {A} (g : GameState) (r : result A) :
  tracks self g (lift r) (λ a g', r = Ok a ∧ g' = g).
Proof. intros h a h' Hg [= -> <-]. eauto. Qed.

Lemma tracks_bind {A B} (g : GameState) (m : M A) (f : A → M B)
    (P : A → GameState → Prop) (Q : B → GameState → Prop) :
  tracks self g m P →
  (∀ a g1, P a g1 → tracks self g1 (f a) Q) →
  tracks self g (m ≫= f) Q.
Proof.
  intros Hm Hf h b h' Hg (a & h1 & Hrun1 & Hrun2)%bind_Ok_inv.
  destruct (Hm h a h1 Hg Hrun1) as (g1 & Hg1 & HP).
  exact (Hf a g1 HP h1 b h' Hg1 Hrun2).
Qed.

Lemma tracks_assoc {A B C} (g : GameState) (m : M A) (f : A → M B)
    (k : B → M C) (Q : C → GameState → Prop) :
  tracks self g (m ≫= λ a, f a ≫= k) Q → tracks self g ((m ≫= f) ≫= k) Q.
Proof.
  intros H h c h' Hg Hrun. apply (H h c h' Hg). revert Hrun.
  unfold mbind, M_bind. by destruct (m h) as [[a|e] h1].
Qed.

Lemma tracks_read (g : GameState) :
  tracks self g (read self) (λ a g', a = g ∧ g' = g).
Proof. intros h a h' Hg. unfold read. rewrite Hg. intros [= <- <-]. eauto. Qed.

Lemma tracks_write (g g1 : GameState) :
  tracks self g (write self g1) (λ _ g', g' = g1).
Proof.
  intros h [] h' Hg. unfold write. rewrite Hg. intros [= <-].
  exists g1. split; [|done].
  apply list_lookup_insert_eq. by eapply lookup_lt_Some.
Qed.

Lemma tracks_modify (g : GameState) (f : GameState → GameState) :
  tracks self g (modify self f) (λ _ g', g' = f g).
Proof.
  unfold modify. eapply tracks_bind; [apply tracks_read|].
  intros a g1 [-> ->]. apply tracks_write.
Qed.

Lemma tracks_modify_board (g : GameState) (f : Board → result Board) :
  tracks self g (modify_board self f)
    (λ _ g', ∃ b, f (board g) = Ok b ∧ g' = set_board g b).
Proof.
  unfold modify_board. eapply tracks_bind; [apply tracks_read|].
  intros a g1 [-> ->]. eapply tracks_bind; [apply tracks_lift|].
  intros b g1 [Hb ->]. eapply tracks_weaken; [apply tracks_write|].
  intros _ g' ->. eauto.
Qed.

(** A computation that leaves every object of the store it starts in as it
    was leaves the object at [self] as it was. *)
Lemma tracks_frame {A} (g : GameState) (m : M A) (R : A → Prop) :
  (∀ h0, hoare (extends h0) m R) →
  tracks self g m (λ a g', R a ∧ g' = g).
Proof.
  intros Hm h a h' Hg Hrun.
  destruct (Hm h h) as [Hpre HR]; [done|]. rewrite Hrun in Hpre, HR.
  exists g. split; [by eapply prefix_lookup_Some|]. split; [|done].
  by apply HR.
Qed.
End tracks.

Lemma frame_holds_at {A} (self : loc) (P : GameState → Prop) (m : M A) :
  (∀ h0, hoare (extends h0) m (λ _, True)) →
  hoare (holds_at self P) m (λ _, True).
Proof.
  intros Hm h (g & Hg & HP). destruct (Hm h h) as [Hpre _]; [done|].
  split; [|done]. exists g. split; [|done]. by eapply prefix_lookup_Some.
Qed.

(** One step of following an object: the rule of a store primitive, with the
    facts it gives substituted. *)
Ltac tracks_step :=
  cbv beta;
  lazymatch goal with
  | |- tracks _ _ (mbind _ (mbind _ _)) _ => apply tracks_assoc
  | |- tracks _ _ (mret _) _ => apply tracks_ret
  | |- tracks _ _ (raise _) _ => apply tracks_raise
  | |- tracks _ _ (mbind _ (read _)) _ =>
      eapply tracks_bind; [apply tracks_read|intros ? ? [-> ->]]
  | |- tracks _ _ (mbind _ (lift _)) _ =>
      eapply tracks_bind; [apply tracks_lift|intros ? ? [? ->]]
  | |- tracks _ _ (mbind _ (write _ _)) _ =>
      eapply tracks_bind; [apply tracks_write|intros _ ? ->]
  | |- tracks _ _ (mbind _ (modify _ _)) _ =>
      eapply tracks_bind; [apply tracks_modify|intros _ ? ->]
  | |- tracks _ _ (mbind _ (modify_board _ _)) _ =>
      eapply tracks_bind; [apply tracks_modify_board|intros _ ? (? & ? & ->)]
  | |- tracks _ _ (mbind _ (mret _)) _ =>
      eapply tracks_bind; [apply tracks_ret_eq|intros ? ? [-> ->]]
  | |- tracks _ _ (read _) _ =>
      eapply tracks_weaken; [apply tracks_read|intros ? ? [-> ->]]
  | |- tracks _ _ (lift _) _ =>
      eapply tracks_weaken; [apply tracks_lift|intros ? ? [? ->]]
  | |- tracks _ _ (write _ _) _ =>
      eapply tracks_weaken; [apply tracks_write|intros ? ? ->]
  | |- tracks _ _ (modify _ _) _ =>
      eapply tracks_weaken; [apply tracks_modify|intros ? ? ->]
  | |- tracks _ _ (modify_board _ _) _ =>
      eapply tracks_weaken;
        [apply tracks_modify_board|intros ? ? (? & ? & ->)]
  | |- tracks _ _ (let _ := _ in _) _ => cbv zeta
  | |- tracks _ _ (mbind _ (match ?x with _ => _ end)) _ => destruct x eqn:?
  | |- tracks _ _ (match ?x with _ => _ end) _ => destruct x eqn:?
  end.

Ltac tracks_done :=
  unfold bookkeeping, king_squares, board_del in *;
  repeat match goal with
         | H : context [Py.del ?k ?d] |- _ => destruct (Py.del k d)
         end;
  cbn [mbind result_bind] in *; simplify_eq/=;
  repeat match goal with
         | |- context [match turn ?g with _ => _ end] => destruct (turn g)
         end;
  repeat split; (reflexivity || congruence || done).

(** ** What [make_move] changes *)

Lemma Piece_new_colour (t : option string) (c : Colour) (pc : Piece) :
  Piece_new t c = Ok pc → pcolour pc = c.
Proof.
  unfold Piece_new. destruct t as [s|]; [|by intros [= <-]].
  destruct (type_of_letter s); [|done]. by intros [= <-].
Qed.

Lemma make_move_tracks (self : loc) (move : Move) (g : GameState) :
  tracks self g (make_move self move) (λ _ g',
    ∃ pc pc',
      board_get (board g) (origin move) = Some pc
      ∧ placed_piece move pc = Ok pc'
      ∧ turn g' = opposite (turn g)
      ∧ can_castle g' = rights_after (can_castle g) pc'
      ∧ bookkeeping g' = bookkeeping g
      ∧ stray_en_passant_target g' = stray_en_passant_target g
      ∧ en_passant_target (board g') = en_passant_target (board g)
      ∧ king_squares (board g')
        = king_squares_after (board g) pc' (turn g) (destination move)).
Proof.
  unfold make_move. tracks_step. tracks_step.
  destruct (board_get (board g) (origin move)) as [pc|] eqn:Hpc; [|done].
  simplify_eq/=.
  repeat tracks_step.
  all: exists a.
  all: match goal with
       | H : special _ = Some promotion, H' : Piece_new _ _ = Ok ?p |- _ =>
           exists p; pose proof (Piece_new_colour _ _ _ H') as Hcolour
       | |- _ => exists a
       end.
  all: unfold placed_piece, rights_after, king_squares_after.
  all: try rewrite Hcolour in *.
  all: repeat match goal with
       | H : special _ = _ |- _ => rewrite H in *; clear H
       | H : has_type _ King = _ |- _ => rewrite H in *; clear H
       end.
  all: tracks_done.
Qed.
(** ** Dictionaries *)

Section dict.
Context {V : Type}.
Implicit Types (d : list (string * V)) (k : string) (v : V).

Lemma get_set d k k' v :
  Py.get k' (Py.set k v d) = if String.eqb k' k then Some v else Py.get k' d.
Proof.
  induction d as [|[k0 v0] d IH]; simpl.
  - by destruct (String.eqb k' k).
  - destruct (String.eqb_spec k k0) as [->|Hk]; simpl.
    + by destruct (String.eqb k' k0).
    + destruct (String.eqb_spec k' k0) as [->|Hk'].
      * destruct (String.eqb_spec k0 k); [congruence|done].
      * done.
Qed.

Lemma get_remove_ne d k k' :
  k' ≠ k → Py.get k' (Py.remove k d) = Py.get k' d.
Proof.
  intros Hne. induction d as [|[k0 v0] d IH]; simpl; [done|].
  destruct (String.eqb_spec k k0) as [->|Hk]; simpl.
  - destruct (String.eqb_spec k' k0); [congruence|done].
  - by rewrite IH.
Qed.

Lemma get_None_not_key d k : Py.get k d = None ↔ k ∉ (map fst d).
Proof.
  induction d as [|[k0 v0] d IH]; simpl.
  - split; [intros _; apply not_elem_of_nil|done].
  - destruct (String.eqb_spec k k0) as [->|Hk].
    + split; [done|]. intros []. left.
    + rewrite IH, not_elem_of_cons. tauto.
Qed.

Lemma get_remove_eq d k :
  NoDup (map fst d) → Py.get k (Py.remove k d) = None.
Proof.
  induction d as [|[k0 v0] d IH]; simpl; [done|].
  intros [Hk0 Hd]%NoDup_cons.
  destruct (String.eqb_spec k k0) as [->|Hk]; simpl.
  - by apply get_None_not_key.
  - destruct (String.eqb_spec k k0); [done|]. by apply IH.
Qed.

Lemma keys_set d k v :
  map fst (Py.set k v d) = if Py.mem k d then map fst d else map fst d ++ [k].
Proof.
  unfold Py.mem. induction d as [|[k0 v0] d IH]; simpl; [done|].
  destruct (String.eqb_spec k k0) as [->|Hk]; simpl; [done|].
  rewrite IH. by destruct (Py.get k d).
Qed.

Lemma NoDup_set d k v : NoDup (map fst d) → NoDup (map fst (Py.set k v d)).
Proof.
  intros Hd. rewrite keys_set. unfold Py.mem.
  destruct (Py.get k d) eqn:Hk; [done|].
  apply NoDup_app. split_and!; [done| |apply NoDup_singleton].
  intros x Hx ->%list_elem_of_singleton. by apply get_None_not_key in Hk.
Qed.

Lemma NoDup_remove d k : NoDup (map fst d) → NoDup (map fst (Py.remove k d)).
Proof.
  induction d as [|[k0 v0] d IH]; simpl; [done|].
  intros [Hk0 Hd]%NoDup_cons.
  destruct (String.eqb k k0); simpl; [done|].
  apply NoDup_cons. split; [|by apply IH].
  intros Hin. apply Hk0. clear -Hin.
  induction d as [|[k1 v1] d IH]; simpl in *; [done|].
  destruct (String.eqb k k1); simpl in *; [by right|].
  apply elem_of_cons in Hin as [->|Hin]; [left|right; by apply IH].
Qed.
End dict.

Lemma del_Ok {V : Type} (k : string) (d d' : list (string * V)) :
  Py.del k d = Ok d' → d' = Py.remove k d.
Proof. unfold Py.del. destruct (Py.mem k d); by intros [=]. Qed.

Lemma make_move_squares (self : loc) (move : Move) (g : GameState) :
  special move = None ∨ special move = Some promotion →
  tracks self g (make_move self move) (λ _ g',
    ∃ pc pc',
      board_get (board g) (origin move) = Some pc
      ∧ placed_piece move pc = Ok pc'
      ∧ squares (board g')
        = Py.remove (origin move)
            (Py.set (destination move) pc' (squares (board g)))).
Proof.
  intros Hspecial. unfold make_move. tracks_step. tracks_step.
  destruct (board_get (board g) (origin move)) as [pc|] eqn:Hpc; [|done].
  simplify_eq/=. unfold placed_piece.
  destruct Hspecial as [-> | ->]; simpl.
  - repeat tracks_step.
    all: exists a, a; unfold board_del in *.
    all: repeat match goal with
         | H : context [Py.del ?k ?d] |- _ =>
             destruct (Py.del k d) eqn:?Hdel; [apply del_Ok in Hdel|]
         end.
    all: cbn [mbind result_bind] in *; simplify_eq/=.
    all: repeat match goal with
         | |- context [match turn ?g with _ => _ end] => destruct (turn g)
         end.
    all: done.
  - repeat tracks_step.
    all: exists a, a0; unfold board_del in *.
    all: repeat match goal with
         | H : context [Py.del ?k ?d] |- _ =>
             destruct (Py.del k d) eqn:?Hdel; [apply del_Ok in Hdel|]
         end.
    all: cbn [mbind result_bind] in *; simplify_eq/=.
    all: repeat match goal with
         | |- context [match turn ?g with _ => _ end] => destruct (turn g)
         end.
    all: done.
Qed.

(** X10: a plain move or a promotion relocates one piece and touches no other
    square: after [make_move] returns, the origin square is empty, the
    destination square holds the piece (the new piece under a promotion), and
    every other square is as before.  When origin and destination are the
    same square, that square ends up empty. *)
Theorem make_move_relocates_one_piece (self : loc) (move : Move)
    (h h' : heap) (g : GameState) :
  h !! self = Some g →
  NoDup (map fst (squares (board g))) →
  special move = None ∨ special move = Some promotion →
  run (make_move self move) h = (Ok (), h') →
  ∃ g' pc pc',
    h' !! self = Some g'
    ∧ board_get (board g) (origin move) = Some pc
    ∧ placed_piece move pc = Ok pc'
    ∧ ∀ square,
        board_get (board g') square
        = if String.eqb square (origin move) then None
          else if String.eqb square (destination move) then Some pc'
          else board_get (board g) square.
Proof.
  intros Hg Hdup Hspecial Hrun.
  destruct (make_move_squares self move g Hspecial h () h' Hg Hrun)
    as (g' & Hg' & pc & pc' & Hpc & Hpc' & Hsq).
  exists g', pc, pc'. split_and!; try done.
  intros square. unfold board_get. rewrite Hsq.
  destruct (String.eqb_spec square (origin move)) as [->|Hne].
  - apply get_remove_eq. by apply NoDup_set.
  - rewrite get_remove_ne by done. apply get_set.
Qed.

(** ** What [validate_move] and [process_player_move] change *)

Lemma is_legal_move_tracks (self : loc) (g : GameState) (move : Move)
    (game : loc) :
  tracks self g (is_legal_move move game) (λ _ g', g' = g).
Proof.
  eapply tracks_weaken.
  - apply (tracks_frame _ _ _ (λ _, True)). intros h0.
    apply extends_is_legal_move.
  - by intros ? ? [_ ->].
Qed.

Ltac tracks_legal :=
  lazymatch goal with
  | |- tracks _ _ (mbind _ (is_legal_move _ _)) _ =>
      eapply tracks_bind; [apply is_legal_move_tracks|intros ? ? ->]
  end.

Lemma set_stray_same (g : GameState) :
  g = set_stray_en_passant_target g (stray_en_passant_target g).
Proof. by destruct g. Qed.

Section with_set_order.
Context (set_order : list string → list string).

(** [validate_move] changes nothing of the game but the attribute that it
    adds, and that only when it returns a move. *)
Lemma validate_move_tracks (deets : MoveDetails) (game : loc)
    (player : Colour) (g : GameState) :
  tracks game g (validate_move set_order deets game player) (λ v g',
    match v with
    | VMove _ => ∃ t, g' = set_stray_en_passant_target g t
    | _ => g' = g
    end).
Proof.
  unfold validate_move.
  repeat first [tracks_legal | tracks_step].
  all: try done.
  all: try (eexists; reflexivity).
  all: repeat case_match; try done.
  all: eexists; apply set_stray_same.
Qed.

Lemma validate_each_tracks (self : loc) (ds : list MoveDetails)
    (g : GameState) (t : option string) :
  tracks self (set_stray_en_passant_target g t)
    (validate_each set_order self ds)
    (λ _ g', ∃ t', g' = set_stray_en_passant_target g t').
Proof.
  revert t. induction ds as [|d ds IH]; intros t; simpl.
  - tracks_step. by exists t.
  - tracks_step.
    eapply tracks_bind; [apply validate_move_tracks|].
    intros v g1 Hv.
    assert (∃ t1, g1 = set_stray_en_passant_target g t1) as [t1 ->].
    { destruct v; [destruct Hv as [t1 ->]; by exists t1|by exists t..]. }
    eapply tracks_bind; [apply IH|]. intros ms g2 [t2 ->].
    tracks_step. by exists t2.
Qed.

Lemma update_check_tracks (self : loc) (g : GameState) :
  tracks self g (update_check self)
    (λ _ g', ∃ ic, g' = set_in_check g ic).
Proof. unfold update_check. repeat tracks_step. by eexists. Qed.

Lemma history_set_last_length (mh : list (Py.dict Move)) (k : string)
    (v : Move) :
  List.length (history_set_last mh k v) = List.length mh.
Proof.
  unfold history_set_last. rewrite <-(length_rev mh).
  destruct (rev mh) as [|last before]; simpl; [done|].
  rewrite length_app, length_rev. simpl. lia.
Qed.

Lemma history_mark_last_length (mh mh' : list (Py.dict Move)) (k s : string) :
  history_mark_last mh k s = Ok mh' → List.length mh' = List.length mh.
Proof.
  unfold history_mark_last. rewrite <-(length_rev mh).
  destruct (rev mh) as [|last before]; simpl; [done|].
  destruct (Py.get k last); [|done]. intros [= <-].
  rewrite length_app, length_rev. simpl. lia.
Qed.

Lemma process_player_move_tracks (self : loc) (player_move : string)
    (g : GameState) :
  tracks self g (process_player_move set_order self player_move)
    (λ _ g', g' = g ∨ played g g').
Proof.
  unfold process_player_move. tracks_step. tracks_step.
  eapply (tracks_bind _ _ _ _ (λ v g1,
    match v with
    | VMove _ => ∃ t, g1 = set_stray_en_passant_target g t
    | VNone => g1 = g
    | VConflict _ => True
    end)).
  { destruct a as [d|ds].
    - tracks_step. eapply tracks_weaken; [apply validate_move_tracks|].
      by intros [] g1 H1.
    - rewrite (set_stray_same g) at 1.
      eapply tracks_bind; [apply validate_each_tracks|].
      intros ms g1 [t ->]. repeat tracks_step. by exists t. }
  intros [validated| |origins] g1 Hg1; [|tracks_step; by left|tracks_step].
  destruct Hg1 as [t ->]. tracks_step.
  eapply tracks_bind; [apply make_move_tracks|].
  intros _ g2 (pc & pc' & Hpc & Hpc' & Hturn & Hrights & Hbook & Hstray
               & Hep & Hking).
  unfold bookkeeping in Hbook. simpl in *.
  injection Hbook as Hic Hend Hstate Hwinner Hmh Hph Hpcount Hclock Hfull.
  clear Hrights Hking Hpc Hpc' Hph Hpcount Hic.
  repeat first
    [ lazymatch goal with
      | |- tracks _ _ (mbind _ (update_check _)) _ =>
          eapply tracks_bind;
            [apply update_check_tracks|intros _ ? [? ->]]
      end
    | tracks_step ].
  all: right; unfold played; simpl in *.
  all: repeat match goal with
       | H : bool_decide _ = true |- _ => apply bool_decide_eq_true in H
       | H : bool_decide _ = false |- _ => apply bool_decide_eq_false in H
       end.
  all: simplify_eq/=.
  all: try congruence.
  all: repeat match goal with
       | H : turn _ = _ |- _ => rewrite H in *
       | H : history_mark_last _ _ _ = Ok _ |- _ =>
           apply history_mark_last_length in H; rewrite H; clear H
       end.
  all: split_and!; try done; try congruence; try (left; congruence);
         try (right; congruence).
  all: try (destruct (has_type _ Pawn); [by left|right; congruence]).
  all: rewrite <-Hmh.
  all: try (rewrite length_app; simpl; lia).
  all: destruct (move_history g2) as [|m mh] eqn:Hhistory; [done|].
  all: rewrite history_set_last_length; simpl; lia.
Qed.
End with_set_order.

(** ** Computations that only write to their own object *)

Section extends_self.
Context (set_order : list string → list string) (h0 : heap) (self : loc).
Hypothesis Hself : (List.length h0 ≤ self)%nat.

Ltac extends_step :=
  first [ apply extends_is_legal_move
        | by apply extends_make_move
        | hoare_step ].

Lemma extends_update_check :
  hoare (extends h0) (update_check self) (λ _, True).
Proof using Hself. unfold update_check. repeat extends_step. Qed.

Lemma extends_validate_move (deets : MoveDetails) (player : Colour) :
  hoare (extends h0) (validate_move set_order deets self player) (λ _, True).
Proof using Hself. unfold validate_move. repeat extends_step. Qed.

Lemma extends_validate_each (ds : list MoveDetails) :
  hoare (extends h0) (validate_each set_order self ds) (λ _, True).
Proof using Hself.
  induction ds as [|d ds IH]; simpl; [by apply hoare_ret|].
  eapply hoare_bind; [apply hoare_read|]. intros g _.
  eapply hoare_bind; [apply extends_validate_move|]. intros v _.
  eapply hoare_bind; [apply IH|]. intros ms _. by apply hoare_ret.
Qed.

Lemma extends_process_player_move (player_move : string) :
  hoare (extends h0) (process_player_move set_order self player_move)
    (λ _, True).
Proof using Hself.
  unfold process_player_move.
  repeat first [ apply extends_validate_each | apply extends_validate_move
               | apply extends_update_check | extends_step ].
Qed.

Lemma extends_check_if_end :
  hoare (extends h0) (check_if_end self) (λ _, True).
Proof using Hself.
  unfold check_if_end.
  repeat first [ apply extends_legal_moves_any | extends_step ].
Qed.

Lemma extends_load_fen (fen : string) :
  hoare (extends h0) (load_fen self fen) (λ _, True).
Proof using Hself.
  unfold load_fen.
  destruct (Py.split fen) as [|a [|b [|c [|d [|e [|f [|? ?]]]]]]];
    try apply hoare_raise.
  destruct (negb _); [apply hoare_raise|].
  eapply (hoare_bind _ _ _ (λ _, True)).
  { intros h [k ->]. unfold extends. repeat case_match; simpl; split; try done.
    - rewrite insert_app_r_alt by done. by apply prefix_app_r.
    - by apply prefix_app_r. }
  intros _ _. cbn [foldr]. repeat extends_step.
Qed.

Lemma extends_try_except {A} (m : M A) :
  hoare (extends h0) m (λ _, True) →
  hoare (extends h0) (try_except m) (λ _, True).
Proof.
  intros Hm h Hh. destruct (Hm h Hh) as [Hpre _]. unfold try_except.
  by destruct (m h) as [[a|e] h'].
Qed.

Lemma extends_load_pgn_loop (pgn_tokens : list string) :
  hoare (extends h0) (load_pgn_loop set_order self pgn_tokens) (λ _, True).
Proof using Hself.
  induction pgn_tokens as [|token pgn_tokens IH]; simpl; [by apply hoare_ret|].
  repeat first [ apply IH | apply extends_check_if_end
               | apply extends_try_except, extends_process_player_move
               | extends_step ].
Qed.

Lemma extends_load_pgn (pgn : string) :
  hoare (extends h0) (load_pgn set_order self pgn) (λ _, True).
Proof using Hself. apply extends_load_pgn_loop. Qed.
End extends_self.

Lemma extends_GameState_new (h0 : heap) (fen : option string) :
  hoare (extends h0) (GameState_new fen) (λ l, (List.length h0 ≤ l)%nat).
Proof.
  unfold GameState_new.
  eapply hoare_bind; [apply extends_alloc|]. intros self Hself.
  eapply (hoare_bind _ _ _ (λ _, True)).
  { repeat case_match; by apply extends_load_fen. }
  intros _ _. by apply hoare_ret.
Qed.

(** [undo] writes only to objects that it has made itself. *)
Lemma extends_undo (set_order : list string → list string) (h0 : heap)
    (self : loc) (dest_move : option Z) (colour : option Colour) :
  hoare (extends h0) (undo set_order self dest_move colour) (λ _, True).
Proof.
  unfold undo.
  eapply hoare_bind; [apply hoare_read|]. intros g _. cbv zeta.
  repeat case_match; try apply hoare_raise; try by apply hoare_ret.
  all: eapply hoare_bind; [apply extends_deepcopy|]; intros snapshot _.
  all: eapply hoare_bind; [apply extends_GameState_new|];
         intros new_game Hnew.
  all: repeat first [ by apply extends_load_fen | by apply extends_load_pgn
                    | by apply extends_process_player_move | hoare_step ].
Qed.

(** X11: what [make_move] does to the attributes of the game besides the
    occupancy of the squares, when it returns: the turn passes to the other
    side; the castling rights change only when the piece put on the
    destination is a king, which clears both rights of its colour (a rook
    clears none); the cached king square of the side that was to move
    becomes the destination when that piece is a king; check flags, end of
    game, histories, position counts, both clocks and the en-passant target
    stay as they were. *)
Theorem make_move_bookkeeping (self : loc) (move : Move) (h h' : heap)
    (g : GameState) :
  h !! self = Some g →
  run (make_move self move) h = (Ok (), h') →
  ∃ g' pc pc',
    h' !! self = Some g'
    ∧ board_get (board g) (origin move) = Some pc
    ∧ placed_piece move pc = Ok pc'
    ∧ turn g' = opposite (turn g)
    ∧ can_castle g' = rights_after (can_castle g) pc'
    ∧ king_squares (board g')
      = king_squares_after (board g) pc' (turn g) (destination move)
    ∧ en_passant_target (board g') = en_passant_target (board g)
    ∧ bookkeeping g' = bookkeeping g.
Proof.
  intros Hg Hrun.
  destruct (make_move_tracks self move g h () h' Hg Hrun)
    as (g' & Hg' & pc & pc' & ? & ? & ? & ? & ? & ? & ? & ?).
  exists g', pc, pc'. by split_and!.
Qed.

Lemma make_move_bookkeeping_witness :
  ∃ g' pc pc',
    (run (make_move 0%nat (Move_new "e1" "e2" (Some (piece King white))))
         [initial_game]).2 !! 0%nat = Some g'
    ∧ board_get (board initial_game) "e1" = Some pc
    ∧ placed_piece (Move_new "e1" "e2" (Some (piece King white))) pc = Ok pc'
    ∧ turn g' = black
    ∧ can_castle g' = rights_after (can_castle initial_game) pc'
    ∧ king_squares (board g')
      = king_squares_after (board initial_game) pc' white "e2"
    ∧ en_passant_target (board g') = en_passant_target (board initial_game)
    ∧ bookkeeping g' = bookkeeping initial_game.
Proof.
  apply (make_move_bookkeeping 0%nat
           (Move_new "e1" "e2" (Some (piece King white))) [initial_game]).
  - reflexivity.
  - vm_compute. reflexivity.
Defined.

Lemma make_move_relocates_one_piece_witness :
  ∃ g' pc pc',
    (run (make_move 0%nat (Move_new "e2" "e4" (Some (piece Pawn white))))
         [initial_game]).2 !! 0%nat = Some g'
    ∧ board_get (board initial_game) "e2" = Some pc
    ∧ placed_piece (Move_new "e2" "e4" (Some (piece Pawn white))) pc = Ok pc'
    ∧ ∀ square,
        board_get (board g') square
        = if String.eqb square "e2" then None
          else if String.eqb square "e4" then Some pc'
          else board_get (board initial_game) square.
Proof.
  apply (make_move_relocates_one_piece 0%nat
           (Move_new "e2" "e4" (Some (piece Pawn white))) [initial_game]).
  - reflexivity.
  - apply (bool_decide_unpack _). vm_compute. reflexivity.
  - left. reflexivity.
  - vm_compute. reflexivity.
Defined.

(** X12: a call of [process_player_move] that returns has either left the
    game object exactly as it was (the token was understood and refused) or
    played a whole move: the turn has passed, the en-passant target is
    unset, the full-move number went up after a black move, the half-move
    clock was reset or went up by one, the move history grew by one entry
    after a white move, and the recorded end of the game is untouched.  No
    en-passant target is ever left behind by a move. *)
Theorem process_player_move_all_or_nothing
    (set_order : list string → list string) (self : loc)
    (player_move : string) (h h' : heap) (g : GameState) :
  h !! self = Some g →
  run (process_player_move set_order self player_move) h = (Ok (), h') →
  ∃ g', h' !! self = Some g' ∧ (g' = g ∨ played g g').
Proof.
  intros Hg Hrun.
  exact (process_player_move_tracks set_order self player_move g h () h'
           Hg Hrun).
Qed.

Lemma process_player_move_all_or_nothing_witness :
  ∃ g', (run (process_player_move id 0%nat "e4") [initial_game]).2 !! 0%nat
        = Some g'
        ∧ (g' = initial_game ∨ played initial_game g').
Proof.
  apply (process_player_move_all_or_nothing id 0%nat "e4" [initial_game]).
  - reflexivity.
  - vm_compute. reflexivity.
Defined.



(** ** [undo] *)

(** X14: [undo] leaves every object of the store as it was, the game it is
    called on included, whether it returns or raises: the game it returns is
    rebuilt in a new object, and the store only grows. *)
Theorem undo_leaves_store_unchanged (set_order : list string → list string)
    (self : loc) (dest_move : option Z) (colour : option Colour) (h : heap) :
  h `prefix_of` (run (undo set_order self dest_move colour) h).2.
Proof.
  by destruct (extends_undo set_order h self dest_move colour h) as [Hpre _].
Qed.

(** X15: what [undo] returns.  Without a snapshot, the game returned is the
    object [undo] was called on and the store is untouched.  With a
    snapshot, the snapshot is a new object that holds an exact copy of the
    game as it was, the game returned is another new object, and the game
    [undo] was called on is still as it was: going back to the snapshot
    restores the state before the call. *)
Theorem undo_returns_copy (set_order : list string → list string)
    (self : loc) (dest_move : option Z) (colour : option Colour)
    (h h' : heap) (g : GameState) (new_game : loc) (snapshot : option loc) :
  h !! self = Some g →
  run (undo set_order self dest_move colour) h
  = (Ok (new_game, snapshot), h') →
  match snapshot with
  | None => new_game = self ∧ h' = h
  | Some s =>
      s = List.length h ∧ (List.length h < new_game)%nat
      ∧ h' !! s = Some g ∧ h' !! self = Some g
  end.
Proof.
  intros Hg. unfold run, undo.
  unfold mbind at 1, M_bind at 1, read at 1. rewrite Hg. cbv zeta.
  destruct (_ || _); [done|].
  destruct (_ =? fullmoves g); [by intros [= <- <- <-]|].
  unfold mbind at 1, M_bind at 1, deepcopy, mbind at 1, M_bind at 1,
    read at 1, alloc.
  rewrite Hg.
  match goal with
  | |- ?K _ = _ → _ =>
      assert (hoare (extends (h ++ [g])) K
                (λ r, (List.length (h ++ [g]) ≤ r.1)%nat
                      ∧ r.2 = Some (List.length h))) as HK
  end.
  { eapply hoare_bind; [apply extends_GameState_new|]. intros n Hn.
    repeat first [ by apply extends_load_fen | by apply extends_load_pgn
                 | by apply extends_process_player_move | hoare_step ]. }
  intros Hrun. destruct (HK (h ++ [g])) as [Hpre Hpost]; [done|].
  rewrite Hrun in Hpre, Hpost. simpl in Hpre, Hpost.
  destruct (Hpost _ eq_refl) as [Hnew Hsnap]. simpl in Hnew, Hsnap.
  subst snapshot. rewrite length_app in Hnew. simpl in Hnew.
  split_and!; [done|lia| |].
  - eapply prefix_lookup_Some; [|done]. by apply list_lookup_middle.
  - eapply prefix_lookup_Some; [|done]. by apply lookup_app_l_Some.
Qed.

Lemma undo_returns_copy_witness :
  1%nat = List.length [open_game] ∧ (List.length [open_game] < 2)%nat
  ∧ (run (undo id 0%nat (Some 0) None) [open_game]).2 !! 1%nat
    = Some open_game
  ∧ (run (undo id 0%nat (Some 0) None) [open_game]).2 !! 0%nat
    = Some open_game.
Proof.
  apply (undo_returns_copy id 0%nat (Some 0) None [open_game] _ open_game
           2%nat (Some 1%nat)).
  - reflexivity.
  - vm_compute. reflexivity.
Defined.

(** X16: [undo] refuses a move that does not exist, by [ValueError] and
    before it has copied or built anything: a move number beyond the current
    full-move number, and, when no move number is given, every call made
    while the full-move number is still 0. *)
Theorem undo_rejects_missing_move (set_order : list string → list string)
    (self : loc) (dest_move : option Z) (colour : option Colour) (h : heap)
    (g : GameState) :
  h !! self = Some g →
  (dest_move = None ∧ fullmoves g ≤ 0)
  ∨ (∃ n, dest_move = Some n ∧ 0 ≤ n ∧ fullmoves g < n) →
  run (undo set_order self dest_move colour) h = (Raise ValueError, h).
Proof.
  intros Hg Hcase. unfold run, undo.
  unfold mbind at 1, M_bind at 1, read at 1. rewrite Hg. cbv zeta.
  match goal with
  | |- (if ?c then _ else _) _ = _ => assert (c = true) as ->; [|done]
  end.
  destruct Hcase as [[-> Hfull] | (n & -> & Hn & Hfull)].
  - apply orb_true_iff. left. apply andb_true_iff. split.
    + apply Z.ltb_lt. lia.
    + apply negb_true_iff, Z.eqb_neq. lia.
  - apply orb_true_iff. right.
    destruct (Z.ltb_spec n 0); [lia|]. apply Z.ltb_lt. lia.
Qed.

Lemma undo_rejects_missing_move_witness :
  run (undo id 0%nat None None) [initial_game]
  = (Raise ValueError, [initial_game]).
Proof.
  apply (undo_rejects_missing_move id 0%nat None None [initial_game]
           initial_game).
  - reflexivity.
  - left. split; [reflexivity|]. vm_compute. discriminate.
Defined.

(** ** [load_fen] *)

Lemma holds_at_modify_board_ok (self : loc) (P : GameState → Prop)
    (f : Board → result Board) :
  (∀ g b, P g → f (board g) = Ok b → P (set_board g b)) →
  hoare (holds_at self P) (modify_board self f) (λ _, True).
Proof.
  intros Hf h (g & Hg & HP).
  unfold modify_board, mbind, M_bind, read, lift, write. rewrite Hg.
  destruct (f (board g)) as [b|e] eqn:Hb; simpl.
  - rewrite Hg. simpl. split; [|done]. exists (set_board g b).
    split; [|by apply Hf]. apply list_lookup_insert_eq. by eapply lookup_lt_Some.
  - split; [by exists g|done].
Qed.

Lemma mem_set {V : Type} (d : list (string * V)) (k k' : string) (v : V) :
  Py.mem k' d = true → Py.mem k' (Py.set k v d) = true.
Proof.
  unfold Py.mem. rewrite get_set.
  destruct (String.eqb k' k); [done|]. by destruct (Py.get k' d).
Qed.

(** [fen_to_board] only adds pieces and replaces pieces: it never empties a
    square. *)
Lemma fen_to_board_loop_keeps (l : list ascii) (b : Board) (rank findex : Z)
    (square : string) :
  board_contains b square = true →
  board_contains (fen_to_board_loop b rank findex l).1 square = true.
Proof.
  revert b rank findex.
  induction l as [|char l IH]; intros b rank findex Hb; simpl; [done|].
  repeat case_match; simpl; try done; apply IH; try done.
  all: unfold board_contains, board_set, with_squares; simpl.
  all: by apply mem_set.
Qed.

(** The step of [load_fen] that fills the board. *)
Lemma holds_at_fill_board (self : loc) (P : GameState → Prop)
    (placement : string) :
  (∀ g, P g → P (set_board g (fen_to_board (board g) placement).1)) →
  hoare (holds_at self P)
    (λ h, match h !! self with
          | None => (Raise DanglingReference, h)
          | Some g =>
              let '(b, r) := fen_to_board (board g) placement in
              (r, <[self := set_board g b]> h)
          end)
    (λ _, True).
Proof.
  intros HP h (g & Hg & Hg'). rewrite Hg.
  specialize (HP g Hg'). destruct (fen_to_board _ _) as [b r]. simpl in *.
  split; [|done]. exists (set_board g b). split; [|done].
  apply list_lookup_insert_eq. by eapply lookup_lt_Some.
Qed.

Lemma load_fen_holds_at (self : loc) (P : GameState → Prop) (fen : string) :
  (∀ g b, P g → squares b = squares (board g) → P (set_board g b)) →
  (∀ g placement, P g → P (set_board g (fen_to_board (board g) placement).1)) →
  (∀ g t, P g → P (set_turn g t)) →
  (∀ g n, P g → P (set_halfmove_clock g n)) →
  (∀ g n, P g → P (set_fullmoves g n)) →
  (∀ g ph, P g → P (set_position_history g ph)) →
  (nth 2 (Py.split fen) "" ≠ "-" →
   ∀ g cr ic, P g → P (set_in_check (set_can_castle g cr) ic)) →
  hoare (holds_at self P) (load_fen self fen) (λ _, True).
Proof.
  intros Hboard Hfill Hturn Hhalf Hfull Hhistory Hcastling. unfold load_fen.
  destruct (Py.split fen) as [|a [|b [|c [|d [|e [|f [|? ?]]]]]]];
    try apply hoare_raise.
  destruct (negb _); [apply hoare_raise|].
  eapply (hoare_bind _ _ _ (λ _, True)); [apply holds_at_fill_board; auto|].
  intros _ _.
  eapply (hoare_bind _ _ _ (λ _, True)); [apply holds_at_modify; auto|].
  intros _ _.
  eapply (hoare_bind _ _ _ (λ _, True)).
  { destruct (String.eqb_spec c "-") as [->|Hc]; simpl; [by apply hoare_ret|].
    specialize (Hcastling Hc).
    assert (∀ g cr, P g → P (set_can_castle g cr)) as Hcr.
    { intros g cr Hg.
      specialize (Hcastling g cr (in_check g) Hg). by destruct g. }
    assert (∀ g ic, P g → P (set_in_check g ic)) as Hic.
    { intros g ic Hg.
      specialize (Hcastling g (can_castle g) ic Hg). by destruct g. }
    repeat first [ apply holds_at_modify; by auto | hoare_step ]. }
  intros _ _.
  eapply (hoare_bind _ _ _ (λ _, True)).
  { destruct (negb _); [|by apply hoare_ret].
    apply holds_at_modify_board_ok. intros g b' Hg [= <-]. by apply Hboard. }
  intros _ _.
  repeat first [ apply holds_at_modify; by auto | hoare_step ].
Qed.

(** X17: [load_fen] does not clear the board before it fills it: a square
    that is occupied when [load_fen] is called is occupied afterwards,
    whatever the position string says about it and whether [load_fen]
    returns or raises.  A position loaded over another one is merged with
    it. *)
Theorem load_fen_keeps_occupied_squares (self : loc) (fen : string)
    (h : heap) (g : GameState) (square : string) :
  h !! self = Some g →
  board_contains (board g) square = true →
  ∃ g', (run (load_fen self fen) h).2 !! self = Some g'
        ∧ board_contains (board g') square = true.
Proof.
  intros Hg Hsquare.
  destruct (load_fen_holds_at self
              (λ g', board_contains (board g') square = true) fen)
    with (h := h) as [Hinv _]; try done.
  - intros g1 b H1 Hb. unfold board_contains in *. simpl. by rewrite Hb.
  - intros g1 placement H1. simpl. by apply fen_to_board_loop_keeps.
  - by exists g.
Qed.

Lemma load_fen_keeps_occupied_squares_witness :
  ∃ g', (run (load_fen 0%nat "4k3/8/8/8/8/8/8/4K3 w - - 0 0")
             [initial_game]).2 !! 0%nat = Some g'
        ∧ board_contains (board g') "d1" = true.
Proof.
  apply (load_fen_keeps_occupied_squares 0%nat
           "4k3/8/8/8/8/8/8/4K3 w - - 0 0" [initial_game] initial_game "d1").
  - reflexivity.
  - reflexivity.
Defined.

(** X18: a position string whose castling field is ['-'] does not clear any
    castling right: [load_fen] leaves the four rights, and the two check
    flags, as it found them, whether it returns or raises.  In a new game
    all four rights stay set. *)
Theorem load_fen_dash_keeps_castling_rights (self : loc) (fen : string)
    (h : heap) (g : GameState) :
  h !! self = Some g →
  nth 2 (Py.split fen) "" = "-" →
  ∃ g', (run (load_fen self fen) h).2 !! self = Some g'
        ∧ can_castle g' = can_castle g ∧ in_check g' = in_check g.
Proof.
  intros Hg Hdash.
  destruct (load_fen_holds_at self
              (λ g', can_castle g' = can_castle g ∧ in_check g' = in_check g)
              fen)
    with (h := h) as [Hinv _]; try done.
  by exists g.
Qed.

Lemma load_fen_dash_keeps_castling_rights_witness :
  ∃ g', (run (load_fen 0%nat "4k3/8/8/8/8/8/8/4K3 w - - 0 0")
             [initial_game]).2 !! 0%nat = Some g'
        ∧ can_castle g' = can_castle initial_game
        ∧ in_check g' = in_check initial_game.
Proof.
  apply (load_fen_dash_keeps_castling_rights 0%nat
           "4k3/8/8/8/8/8/8/4K3 w - - 0 0" [initial_game] initial_game).
  - reflexivity.
  - reflexivity.
Defined.

(** ** Attacks on the back ranks *)

Lemma collect_total {A B : Type} (f : A → result (list B)) (l : list A) :
  (∀ a, a ∈ l → ∃ xs, f a = Ok xs) → ∃ ys, collect f l = Ok ys.
Proof.
  induction l as [|a l IH]; intros Hf; simpl; [by eexists|].
  destruct (Hf a) as [xs ->]; [left|].
  destruct IH as [ys ->]; [intros; apply Hf; by right|].
  simpl. by eexists.
Qed.

Lemma FILES_nth_total (i : Z) :
  in_FILES_range i = true → ∃ c, FILES_nth i = Ok c.
Proof.
  intros Hi. apply in_FILES_range_cases in Hi.
  destruct Hi as [->|[->|[->|[->|[->|[->|[->| ->]]]]]]]; by eexists.
Qed.

Lemma ray_total (fuel : nat) (b : Board) (i r fs rs offset : Z) :
  ∃ l, ray fuel b i r fs rs offset = Ok l.
Proof.
  revert offset. induction fuel as [|fuel IH]; intros offset; simpl;
    [by eexists|].
  destruct (in_RANKS _); simpl; [|by eexists].
  destruct (in_FILES_range _) eqn:Hi; simpl; [|by eexists].
  destruct (FILES_nth_total _ Hi) as [c ->]. simpl.
  destruct (board_contains _ _); [by eexists|].
  destruct (IH (offset + 1)) as [l ->]. simpl. by eexists.
Qed.

Lemma find_knight_attacks_total (file : ascii) (rank i : Z) :
  FILES_index file = Ok i → ∃ l, find_knight_attacks file rank = Ok l.
Proof.
  intros Hi. unfold find_knight_attacks. rewrite Hi. cbn [mbind result_bind].
  apply collect_total. intros [f r] _.
  destruct (_ || _ || _) eqn:Hskip; [by eexists|].
  destruct (negb (_ || _)); [by eexists|].
  apply orb_false_iff in Hskip as [[_ Hf]%orb_false_iff _].
  apply negb_false_iff in Hf.
  destruct (FILES_nth_total _ Hf) as [c ->]. simpl. by eexists.
Qed.

Lemma find_bishop_attacks_total (file : ascii) (rank i : Z) (b : Board) :
  FILES_index file = Ok i → ∃ l, find_bishop_attacks file rank b = Ok l.
Proof.
  intros Hi. unfold find_bishop_attacks. rewrite Hi. cbn [mbind result_bind].
  apply collect_total. intros [f r] _. apply ray_total.
Qed.

Lemma find_rook_attacks_total (file : ascii) (rank i : Z) (b : Board) :
  FILES_index file = Ok i → ∃ l, find_rook_attacks file rank b = Ok l.
Proof.
  intros Hi. unfold find_rook_attacks. rewrite Hi. cbn [mbind result_bind].
  apply collect_total. intros [f r] _.
  destruct (Bool.eqb _ _); [by eexists|apply ray_total].
Qed.

Lemma find_king_attacks_total (file : ascii) (rank i : Z) :
  FILES_index file = Ok i → ∃ l, find_king_attacks file rank = Ok l.
Proof.
  intros Hi. unfold find_king_attacks. rewrite Hi. cbn [mbind result_bind].
  apply collect_total. intros [f r] _.
  destruct (_ && _); [by eexists|].
  destruct (in_RANKS _); simpl; [|by eexists].
  destruct (in_FILES_range _) eqn:Hf; simpl; [|by eexists].
  destruct (FILES_nth_total _ Hf) as [c ->]. simpl. by eexists.
Qed.

(** No attacker is found where no piece of the opponent has one of the
    types asked for. *)
Lemma find_attacker_none (attacks : list string) (types : list PieceType)
    (b : Board) (opponent : Colour) :
  (∀ square p, board_get b square = Some p → pcolour p = opponent →
               type_in (ptype p) types = false) →
  find_attacker attacks types b opponent = false.
Proof.
  intros Hnone. induction attacks as [|attack attacks IH]; simpl; [done|].
  destruct (board_get b attack) as [p|] eqn:Hp; [|done].
  case_bool_decide as Hc; simpl; [|done].
  by rewrite (Hnone attack p Hp Hc).
Qed.

(** X19: [square_is_attacked] never sees a pawn attack on a square of rank 1
    or rank 8: where the only pieces of the opponent are pawns, such a
    square is reported as not attacked, wherever the pawns stand. *)
Theorem square_is_attacked_back_rank_ignores_pawns (file rank : ascii)
    (i : Z) (b : Board) (colour : Colour) :
  FILES_index file = Ok i →
  rank = "1"%char ∨ rank = "8"%char →
  (∀ square p, board_get b square = Some p →
               pcolour p = opposite colour → ptype p = Some Pawn) →
  square_is_attacked (String file (String rank "")) b colour = Ok false.
Proof.
  intros Hi Hrank Hpawns. unfold square_is_attacked.
  change (Py.unpack2 (String file (String rank ""))) with (Ok (file, rank)).
  cbn [mbind result_bind].
  assert (∃ r, Py.int_char rank = Ok r ∧ (r = 1 ∨ r = 8)) as (r & -> & Hr).
  { destruct Hrank as [-> | ->]; eexists; split; try reflexivity; auto. }
  cbn [mbind result_bind].
  assert (find_pawn_attacks file r colour true = Ok []) as ->.
  { unfold find_pawn_attacks. by destruct Hr as [-> | ->]. }
  cbn [mbind result_bind find_attacker].
  destruct (find_knight_attacks_total file r i Hi) as [ns ->].
  destruct (find_bishop_attacks_total file r i b Hi) as [ds ->].
  destruct (find_rook_attacks_total file r i b Hi) as [os ->].
  destruct (find_king_attacks_total file r i Hi) as [ks ->].
  cbn [mbind result_bind].
  rewrite !find_attacker_none; [done|..].
  all: intros square p Hp Hc; by rewrite (Hpawns square p Hp Hc).
Qed.

Lemma square_is_attacked_back_rank_ignores_pawns_witness :
  square_is_attacked "e1"
    (board_set (board_set Board_new "e1" (piece King white))
               "d2" (piece Pawn black))
    white
  = Ok false.
Proof.
  apply (square_is_attacked_back_rank_ignores_pawns "e" "1" 4).
  - reflexivity.
  - by left.
  - intros square p. unfold board_get, board_set. simpl.
    repeat case_match; intros [= <-]; done.
Defined.

(** ** The double step of a pawn *)

Lemma FILES_index_cases (file : ascii) (i : Z) :
  FILES_index file = Ok i →
  file ∈ Py.chars FILES.
Proof.
  unfold FILES_index. simpl.
  repeat match goal with
         | |- context [Ascii.eqb file ?c] =>
             destruct (Ascii.eqb_spec file c) as [->|_];
               [intros _;
                by repeat first [apply list_elem_of_here
                                |apply list_elem_of_further]
               |]
         end.
  done.
Qed.

(** X20: [is_pawn_move] does not look at the file of the destination when the
    move is two ranks forward: from its starting rank a pawn may go to the
    double-step rank of any file, provided the two squares ahead of it on
    its own file are empty. *)
Theorem is_pawn_move_double_step_any_file (origin_file dest_file : ascii)
    (i j : Z) (b : Board) (colour : Colour) :
  FILES_index origin_file = Ok i →
  FILES_index dest_file = Ok j →
  is_pawn_move (square_name origin_file (start_rank colour))
               (square_name dest_file (double_rank colour)) b colour
  = Ok (negb (board_contains b (square_name origin_file (single_rank colour)))
        && negb (board_contains b
                   (square_name origin_file (double_rank colour)))).
Proof.
  intros Hi%FILES_index_cases Hj%FILES_index_cases.
  transitivity
    (Ok (negb (board_contains b (square_name origin_file (single_rank colour)))
         && (negb (board_contains b
                     (square_name origin_file (double_rank colour))) && true)
         && true));
    [|by rewrite !andb_true_r].
  repeat (apply elem_of_cons in Hi as [->|Hi]);
    [..|by apply elem_of_nil in Hi].
  all: repeat (apply elem_of_cons in Hj as [->|Hj]);
         [..|by apply elem_of_nil in Hj].
  all: destruct colour; vm_compute; reflexivity.
Qed.

Lemma is_pawn_move_double_step_any_file_witness :
  is_pawn_move "e2" "d4" (board initial_game) white = Ok true.
Proof.
  apply (is_pawn_move_double_step_any_file "e" "d" 4 3 (board initial_game)
           white).
  - reflexivity.
  - reflexivity.
Defined.

(** ** Placement strings written by [board_to_fen] *)

Lemma str_of_int_digit (n : Z) :
  1 ≤ n ≤ 8 →
  ∃ c, Py.str_of_int n = String c "" ∧ Regex.placement_class c = true.
Proof.
  intros Hn.
  assert (n = 1 ∨ n = 2 ∨ n = 3 ∨ n = 4 ∨ n = 5 ∨ n = 6 ∨ n = 7 ∨ n = 8)
    as Hcases by lia.
  destruct Hcases as [->|[->|[->|[->|[->|[->|[->| ->]]]]]]];
    by eexists.
Qed.

Lemma to_fen_letter (c : Colour) (t : PieceType) :
  ∃ ch, to_fen c (type_letter t) = String ch ""
        ∧ Regex.placement_class ch = true.
Proof. destruct c, t; by eexists. Qed.

(** The loop over the files of one rank: what has been written so far,
    together with a pending run of empty squares, never takes more room than
    the files that have been visited. *)
Lemma board_to_fen_rank_group (b : Board) (rank : ascii) (files : list ascii)
    (this_rank : string) (space_counter : Z) (s : string) :
  board_to_fen_rank b rank files this_rank space_counter = Ok s →
  (files = [] ∨ ∃ init, files = init ++ ["h"%char] ∧ "h"%char ∉ init) →
  Forall (λ c, Regex.placement_class c = true) (Py.chars this_rank) →
  0 ≤ space_counter →
  space_counter + Z.of_nat (List.length files) ≤ 8 →
  (List.length (Py.chars this_rank) + (if (0 <? space_counter)%Z then 1 else 0)
   + List.length files ≤ 8)%nat →
  Forall (λ c, Regex.placement_class c = true) (Py.chars s)
  ∧ (List.length (Py.chars this_rank) ≤ List.length (Py.chars s) ≤ 8)%nat
  ∧ (files ≠ [] → (1 ≤ List.length (Py.chars s))%nat).
Proof.
  revert this_rank space_counter.
  induction files as [|file files IH];
    intros this_rank space_counter Hrun Hfiles Hclass Hcount Hbound Hroom.
  { simpl in Hrun. injection Hrun as <-. simpl in Hroom.
    split_and!; [done|lia|lia|done]. }
  assert (files = [] ∧ file = "h"%char
          ∨ file ≠ "h"%char
            ∧ ∃ init, files = init ++ ["h"%char] ∧ "h"%char ∉ init)
    as Hshape.
  { destruct Hfiles as [|(init & Hinit & Hh)]; [done|].
    destruct init as [|c init]; simplify_eq/=; [by left|].
    right. apply not_elem_of_cons in Hh as [? ?]. split; [done|].
    by exists init. }
  assert (files = [] ∨ ∃ init, files = init ++ ["h"%char] ∧ "h"%char ∉ init)
    as Hfiles'.
  { destruct Hshape as [[-> _]|[_ ?]]; [by left|by right]. }
  simpl in Hrun. simpl in Hbound, Hroom.
  destruct (board_get b _) as [pc|].
  - destruct (ptype pc) as [t|]; [|done].
    destruct (to_fen_letter (pcolour pc) t) as (ch & Hch & Hchclass).
    rewrite Hch in Hrun.
    destruct (Z.eqb_spec space_counter 0) as [->|Hne]; simpl in Hrun.
    + apply IH in Hrun; try done; try lia.
      * rewrite chars_app, length_app in Hrun. simpl in Hrun.
        destruct Hrun as (? & ? & ?). split_and!; [done|lia|lia|lia].
      * rewrite chars_app. apply Forall_app. split; [done|]. by constructor.
      * rewrite chars_app, length_app. simpl. simpl in Hroom. lia.
    + destruct (str_of_int_digit space_counter) as (d & Hd & Hdclass); [lia|].
      rewrite Hd in Hrun.
      assert ((0 <? space_counter) = true) as Hpos by (apply Z.ltb_lt; lia).
      rewrite Hpos in Hroom.
      apply IH in Hrun; try done; try lia.
      * rewrite !chars_app, !length_app in Hrun. simpl in Hrun.
        destruct Hrun as (? & ? & ?). split_and!; [done|lia|lia|lia].
      * rewrite !chars_app. repeat (apply Forall_app; split); try done;
          by constructor.
      * rewrite !chars_app, !length_app. simpl. lia.
  - assert ((0 <? space_counter + 1) = true) as Hpos by (apply Z.ltb_lt; lia).
    assert (negb (space_counter + 1 =? 0) = true) as Hnz.
    { apply negb_true_iff, Z.eqb_neq. lia. }
    rewrite Hnz, andb_true_r in Hrun.
    destruct Hshape as [[-> ->]|[Hfile (init & Hinit & _)]].
    + simpl in Hrun.
      destruct (str_of_int_digit (space_counter + 1)) as (d & Hd & Hdclass);
        [simpl in Hbound; lia|].
      rewrite Hd in Hrun. injection Hrun as <-.
      rewrite chars_app, length_app. simpl. simpl in Hroom.
      split_and!; [|lia| |intros _; lia].
      * apply Forall_app. split; [done|]. by constructor.
      * destruct (0 <? space_counter); lia.
    + destruct (Ascii.eqb_spec file "h"); [done|].
      apply IH in Hrun; try done; try lia.
      * destruct Hrun as (? & ? & Hne). split_and!; [done|lia|lia|].
        intros _. apply Hne. rewrite Hinit. by destruct init.
      * rewrite Hpos. destruct (0 <? space_counter); lia.
Qed.

Lemma board_to_fen_ranks_groups (b : Board) (ranks : list ascii)
    (board_list : list string) :
  board_to_fen_ranks b ranks = Ok board_list →
  List.length board_list = List.length ranks
  ∧ Forall (λ s, placement_group (Py.chars s)) board_list.
Proof.
  revert board_list. induction ranks as [|rank ranks IH]; intros board_list.
  { intros [= <-]. by split. }
  cbn [board_to_fen_ranks].
  destruct (board_to_fen_rank _ _ _ _ _) as [s|] eqn:Hs; [|done].
  cbn [mbind result_bind].
  destruct (board_to_fen_ranks b ranks) as [rest|]; [|done].
  cbn [mbind result_bind]. intros [= <-].
  destruct (IH rest eq_refl) as [Hlen Hall].
  apply board_to_fen_rank_group in Hs as (Hclass & Hlen' & Hne); try done.
  - split; [simpl; lia|]. constructor; [|done].
    split; [|done]. split; [by apply Hne|lia].
  - right. exists (Py.chars "abcdefg"). split; [done|].
    apply (bool_decide_unpack _). by vm_compute.
Qed.

Lemma join_placement_shape (board_list : list string) :
  board_list ≠ [] →
  Forall (λ s, placement_group (Py.chars s)) board_list →
  placement_shape (List.length board_list) (Py.chars (Py.join "/" board_list)).
Proof.
  induction board_list as [|s board_list IH]; [done|].
  intros _ [Hs Hall]%Forall_cons. cbn [List.length placement_shape].
  exists (Py.chars s). split; [done|].
  destruct board_list as [|s' board_list].
  - right. split; [done|]. by left.
  - left. exists (Py.chars (Py.join "/" (s' :: board_list))). split.
    + cbn [Py.join]. by rewrite !chars_app.
    + by apply IH.
Qed.

(** X21: every placement field that [board_to_fen] writes passes the test
    that [load_fen] puts on a placement field, whatever stands on the board
    and wherever: eight groups separated by ['/'], each of 1 to 8 piece
    letters and digits 1-8. *)
Theorem board_to_fen_passes_placement_check (b : Board) (fen_board : string) :
  board_to_fen b = Ok fen_board →
  Regex.placement fen_board = true.
Proof.
  unfold board_to_fen.
  destruct (board_to_fen_ranks _ _) as [board_list|] eqn:Hranks; [|done].
  cbn [mbind result_bind]. intros [= <-].
  apply board_to_fen_ranks_groups in Hranks as [Hlen Hall].
  apply placement_shape_iff.
  change 8%nat with (List.length (rev (Py.chars RANKS))). rewrite <-Hlen.
  apply join_placement_shape; [|done].
  intros ->. discriminate.
Qed.

Lemma board_to_fen_passes_placement_check_witness :
  Regex.placement "rnbqkbnr/pppppppp/8/8/8/8/PPPPPPPP/RNBQKBNR" = true.
Proof.
  apply (board_to_fen_passes_placement_check (board initial_game)).
  vm_compute. reflexivity.
Defined.

(** ** Tokens after [normalize_move_data] *)

Lemma all_ascii_complete (c : ascii) : c ∈ all_ascii.
Proof.
  unfold all_ascii. apply list_elem_of_fmap. exists (nat_of_ascii c).
  split; [by rewrite ascii_nat_embedding|].
  apply elem_of_seq. pose proof (nat_ascii_bounded c). lia.
Qed.

(** A property of characters that holds of each of the 256. *)
Lemma forall_ascii (P : ascii → bool) :
  forallb P all_ascii = true → ∀ c, P c = true.
Proof.
  intros H c. rewrite forallb_forall in H. apply H.
  apply list_elem_of_In, all_ascii_complete.
Qed.

Lemma file_class_lower (ic : bool) (c : ascii) :
  Regex.file_class ic c = true →
  Regex.file_class false (Py.lower_char c) = true.
Proof.
  intros H.
  enough (implb (Regex.file_class ic c)
                (Regex.file_class false (Py.lower_char c)) = true) as Hc
    by (rewrite H in Hc; exact Hc).
  clear H. revert c. destruct ic; apply forall_ascii; vm_compute; reflexivity.
Qed.

Lemma letter_x_lower (ic : bool) (c : ascii) :
  Regex.letter ic "x" c = true → Py.lower_char c = "x"%char.
Proof.
  intros H. apply Ascii.eqb_eq.
  enough (implb (Regex.letter ic "x" c)
                (Ascii.eqb (Py.lower_char c) "x") = true) as Hc
    by (rewrite H in Hc; exact Hc).
  clear H. revert c. destruct ic; apply forall_ascii; vm_compute; reflexivity.
Qed.

Lemma rank_lower (c : ascii) :
  Regex.rank_1_8 c = true → Py.lower_char c = c.
Proof.
  intros H. apply Ascii.eqb_eq.
  enough (implb (Regex.rank_1_8 c) (Ascii.eqb (Py.lower_char c) c) = true)
    as Hc by (rewrite H in Hc; exact Hc).
  clear H. revert c. apply forall_ascii; vm_compute; reflexivity.
Qed.

Lemma rank_2_7_1_8 (c : ascii) :
  Regex.rank_2_7 c = true → Regex.rank_1_8 c = true.
Proof. unfold Regex.rank_2_7, Regex.rank_1_8, Regex.between. lia. Qed.

Lemma rank_1_or_8_1_8 (c : ascii) :
  Regex.rank_1_or_8 c = true → Regex.rank_1_8 c = true.
Proof.
  unfold Regex.rank_1_or_8.
  destruct (Ascii.eqb_spec c "1") as [->|_]; [done|].
  destruct (Ascii.eqb_spec c "8") as [->|_]; done.
Qed.

Lemma promo_class_upper (ic : bool) (c : ascii) :
  Regex.promo_class ic c = true →
  one_of ["N"; "B"; "R"; "Q"] (Py.upper (String c "")) = true.
Proof.
  intros H.
  enough (implb (Regex.promo_class ic c)
                (one_of ["N"; "B"; "R"; "Q"] (Py.upper (String c ""))) = true)
    as Hc by (rewrite H in Hc; exact Hc).
  clear H. revert c. destruct ic; apply forall_ascii; vm_compute; reflexivity.
Qed.

Lemma piece_class_upper (ic : bool) (c : ascii) :
  Regex.piece_class ic c = true →
  one_of ["N"; "B"; "R"; "Q"; "K"] (Py.upper (String c "")) = true.
Proof.
  intros H.
  enough (implb (Regex.piece_class ic c)
                (one_of ["N"; "B"; "R"; "Q"; "K"] (Py.upper (String c "")))
          = true)
    as Hc by (rewrite H in Hc; exact Hc).
  clear H. revert c. destruct ic; apply forall_ascii; vm_compute; reflexivity.
Qed.

Lemma letter_O_upper (ic : bool) (c : ascii) :
  Regex.letter ic "O" c = true → Py.upper_char c = "O"%char.
Proof.
  intros H. apply Ascii.eqb_eq.
  enough (implb (Regex.letter ic "O" c)
                (Ascii.eqb (Py.upper_char c) "O") = true) as Hc
    by (rewrite H in Hc; exact Hc).
  clear H. revert c. destruct ic; apply forall_ascii; vm_compute; reflexivity.
Qed.

Lemma check_end_normal (l : list ascii) (chk : option string) :
  Regex.check_end l = Some chk → normal_mark ["+"; "#"] chk = true.
Proof.
  unfold Regex.check_end. destruct l as [|c l].
  - destruct (Regex.at_end []); by intros [= <-].
  - destruct (Regex.check_class c && Regex.at_end l) eqn:Hc.
    + intros [= <-]. apply andb_true_iff in Hc as [Hc _].
      unfold Regex.check_class in Hc. simpl.
      destruct (Ascii.eqb_spec c "+") as [->|_]; [done|].
      destruct (Ascii.eqb_spec c "#") as [->|_]; done.
    + destruct (Regex.at_end (c :: l)); by intros [= <-].
Qed.

Lemma square_in_lower (ic : bool) (ranks : ascii → bool) (f r : ascii) :
  Regex.file_class ic f = true → Regex.rank_1_8 r = true → ranks r = true →
  square_in ranks (Py.lower (Py.str [f; r])) = true.
Proof.
  intros Hf Hr Hranks. unfold square_in, Py.lower. rewrite !chars_str. simpl.
  rewrite (file_class_lower _ _ Hf), (rank_lower _ Hr), Hranks. done.
Qed.

Lemma lower_file_hint (ic ranks : bool) (o : ascii) :
  Regex.file_class ic o = true →
  normal_hint ranks (Regex.opt_lower (Some (String o ""))) = true.
Proof. intros Ho. simpl. by rewrite (file_class_lower _ _ Ho). Qed.

Lemma lower_rank_hint (o : ascii) :
  Regex.rank_1_8 o = true →
  normal_hint true (Regex.opt_lower (Some (String o ""))) = true.
Proof.
  intros Ho. simpl. rewrite (rank_lower _ Ho), Ho. apply orb_true_r.
Qed.

Lemma lower_x (ic : bool) (x : ascii) :
  Regex.letter ic "x" x = true →
  normal_mark ["x"] (Regex.opt_lower (Some (String x ""))) = true.
Proof. intros Hx. simpl. by rewrite (letter_x_lower _ _ Hx). Qed.

Lemma orelse_inv {A : Type} (a b : option A) (x : A) :
  Regex.orelse a b = Some x → a = Some x ∨ b = Some x.
Proof. destruct a; simpl; auto. Qed.

Lemma capture_prefix_inv {A : Type} (ic : bool) (l : list ascii)
    (k : option string → option string → list ascii → option A) (a : A) :
  Regex.capture_prefix ic l k = Some a →
  (∃ o x rest, l = o :: x :: rest ∧ Regex.file_class ic o = true
               ∧ Regex.letter ic "x" x = true
               ∧ k (Some (String o "")) (Some (String x "")) rest = Some a)
  ∨ k None None l = Some a.
Proof.
  unfold Regex.capture_prefix. intros [H|H]%orelse_inv; [|by right].
  destruct l as [|o [|x rest]]; try done.
  destruct (Regex.file_class ic o) eqn:Ho; [|done].
  destruct (Regex.letter ic "x" x) eqn:Hx; [|done].
  left. by exists o, x, rest.
Qed.

Ltac normal_parts :=
  cbn [normal_details]; rewrite !andb_true_iff; split_and!;
  first [ done
        | by eapply lower_file_hint
        | by eapply lower_rank_hint
        | by eapply lower_x
        | by eapply square_in_lower; eauto using rank_2_7_1_8, rank_1_or_8_1_8
        | by eapply check_end_normal
        | by eapply promo_class_upper
        | by eapply piece_class_upper
        | by apply bool_decide_eq_true_2; split; intros _; eexists ].

Lemma pawn_normal (ic : bool) (l : list ascii) (d : MoveDetails) :
  Regex.pawn ic l = Some d → normal_details d = true.
Proof.
  unfold Regex.pawn.
  intros [(o & x & rest & -> & Ho & Hx & H)|H]%capture_prefix_inv.
  - destruct rest as [|f [|r tl]]; try done.
    destruct (Regex.file_class ic f) eqn:Hf; [|done].
    destruct (Regex.rank_2_7 r) eqn:Hr; [|done]. simpl in H.
    destruct (Regex.check_end tl) as [chk|] eqn:Hchk; [|done].
    injection H as <-. normal_parts.
  - destruct l as [|f [|r tl]]; try done.
    destruct (Regex.file_class ic f) eqn:Hf; [|done].
    destruct (Regex.rank_2_7 r) eqn:Hr; [|done]. simpl in H.
    destruct (Regex.check_end tl) as [chk|] eqn:Hchk; [|done].
    injection H as <-. normal_parts.
Qed.

Lemma promotion_normal (ic : bool) (l : list ascii) (d : MoveDetails) :
  Regex.promotion ic l = Some d → normal_details d = true.
Proof.
  unfold Regex.promotion.
  intros [(o & x & rest & -> & Ho & Hx & H)|H]%capture_prefix_inv.
  - destruct rest as [|f [|r [|e [|pr tl]]]]; try done.
    destruct (Regex.file_class ic f) eqn:Hf; [|done].
    destruct (Regex.rank_1_or_8 r) eqn:Hr; [|done].
    destruct (Ascii.eqb e "="); [|done].
    destruct (Regex.promo_class ic pr) eqn:Hpr; [|done]. simpl in H.
    destruct (Regex.check_end tl) as [chk|] eqn:Hchk; [|done].
    injection H as <-. normal_parts.
  - destruct l as [|f [|r [|e [|pr tl]]]]; try done.
    destruct (Regex.file_class ic f) eqn:Hf; [|done].
    destruct (Regex.rank_1_or_8 r) eqn:Hr; [|done].
    destruct (Ascii.eqb e "="); [|done].
    destruct (Regex.promo_class ic pr) eqn:Hpr; [|done]. simpl in H.
    destruct (Regex.check_end tl) as [chk|] eqn:Hchk; [|done].
    injection H as <-. normal_parts.
Qed.

Lemma piece_tail_normal (ic : bool) (pc : ascii) (o : option string)
    (l : list ascii) (d : MoveDetails) :
  Regex.piece_class ic pc = true →
  normal_hint true (Regex.opt_lower o) = true →
  Regex.piece_tail ic pc o l = Some d → normal_details d = true.
Proof.
  intros Hpc Ho. unfold Regex.piece_tail. intros [H|H]%orelse_inv.
  - destruct l as [|x [|f [|r tl]]]; try done;
      destruct (Regex.letter ic "x" x) eqn:Hx; try done.
    destruct (Regex.file_class ic f) eqn:Hf; [|done].
    destruct (Regex.rank_1_8 r) eqn:Hr; [|done]. simpl in H.
    destruct (Regex.check_end tl) as [chk|] eqn:Hchk; [|done].
    injection H as <-. normal_parts.
  - destruct l as [|f [|r tl]]; try done.
    destruct (Regex.file_class ic f) eqn:Hf; [|done].
    destruct (Regex.rank_1_8 r) eqn:Hr; [|done]. simpl in H.
    destruct (Regex.check_end tl) as [chk|] eqn:Hchk; [|done].
    injection H as <-. normal_parts.
Qed.

Lemma piece_normal (ic : bool) (l : list ascii) (d : MoveDetails) :
  Regex.piece ic l = Some d → normal_details d = true.
Proof.
  unfold Regex.piece. destruct l as [|pc rest]; [done|].
  destruct (Regex.piece_class ic pc) eqn:Hpc; [|done].
  intros [H|H]%orelse_inv.
  - destruct rest as [|o rest]; [done|].
    destruct (Regex.file_class ic o || Regex.rank_1_8 o) eqn:Ho; [|done].
    eapply (piece_tail_normal ic pc (Some (String o ""))); [done| |done].
    apply orb_true_iff in Ho as [Ho|Ho];
      [by eapply lower_file_hint|by apply lower_rank_hint].
  - by eapply (piece_tail_normal ic pc None).
Qed.

Lemma castling_normal (ic : bool) (l : list ascii) (d : MoveDetails) :
  Regex.castling ic l = Some d → normal_details d = true.
Proof.
  unfold Regex.castling. destruct l as [|o1 [|d1 [|o2 rest]]]; try done.
  destruct (Regex.letter ic "O" o1) eqn:H1; [|done].
  destruct (Ascii.eqb_spec d1 "-") as [->|]; [|done].
  destruct (Regex.letter ic "O" o2) eqn:H2; [|done]. simpl.
  apply letter_O_upper in H1, H2.
  intros [H|H]%orelse_inv.
  - destruct rest as [|d2 [|o3 rest]]; try done.
    destruct (Ascii.eqb_spec d2 "-") as [->|]; [|done].
    destruct (Regex.letter ic "O" o3) eqn:H3; [|done]. simpl in H.
    apply letter_O_upper in H3.
    destruct (Regex.check_end rest) as [chk|] eqn:Hchk; [|done].
    injection H as <-. unfold Py.upper, Py.chars, Py.str.
    cbn [list_ascii_of_string string_of_list_ascii map].
    rewrite H1, H2, H3. normal_parts.
  - destruct (Regex.check_end rest) as [chk|] eqn:Hchk; [|done].
    injection H as <-. unfold Py.upper, Py.chars, Py.str.
    cbn [list_ascii_of_string string_of_list_ascii map].
    rewrite H1, H2. normal_parts.
Qed.

(** X22: every reading that [parse_move] returns is in normal form,
    whatever the case of the letters of the token and whether the case is
    ignored: the destination is a square of the board in lower case, on rank
    2 to 7 for a pawn move and on rank 1 or 8 for a promotion; an origin hint
    is one lower-case file letter or, for a piece, one rank digit; the piece
    and promotion letters are the upper-case letters of the pattern; a
    castling side is [O-O] or [O-O-O]; a capture mark is ['x'] and a check
    mark is ['+'] or ['#']; a pawn token has an origin file exactly when it
    has a capture mark. *)
Theorem parse_move_normalises (player_move : string) (ic : bool)
    (parsed : Parsed) :
  parse_move player_move ic = Ok parsed →
  Forall (λ d, normal_details d = true) (readings parsed).
Proof.
  unfold parse_move.
  assert (Forall (λ d, normal_details d = true)
            (omap (λ pattern, pattern ic (Py.chars player_move))
               [Regex.pawn; Regex.promotion; Regex.piece; Regex.castling]))
    as Hall.
  { apply Forall_forall. intros d (pattern & Hin & Hd)%list_elem_of_omap.
    repeat (apply elem_of_cons in Hin as [->|Hin]);
      [by eapply pawn_normal|by eapply promotion_normal
      |by eapply piece_normal|by eapply castling_normal
      |by apply elem_of_nil in Hin]. }
  destruct (omap _ _) as [|d [|d' ds]]; [done|..]; by intros [= <-].
Qed.

Lemma parse_move_normalises_witness :
  Forall (λ d, normal_details d = true)
    [PawnToken (Some "b") (Some "x") "c4" (Some "+");
     PieceToken "B" None (Some "x") "c4" (Some "+")].
Proof.
  apply (parse_move_normalises "BXC4+" true
           (Ambiguous [PawnToken (Some "b") (Some "x") "c4" (Some "+");
                       PieceToken "B" None (Some "x") "c4" (Some "+")])).
  vm_compute. reflexivity.
Defined.

(** ** Tokens with two readings *)

Lemma no_char (P : ascii → bool) :
  forallb (λ c, negb (P c)) all_ascii = true → ∀ c, P c = true → False.
Proof.
  intros H c Hc.
  pose proof (forall_ascii _ H c) as Hn. simpl in Hn. by rewrite Hc in Hn.
Qed.

(** Two tests that no character passes together. *)
Ltac char_contra :=
  exfalso;
  match goal with
  | H1 : ?f ?c = true, H2 : ?g ?c = true |- _ =>
      apply (no_char (λ c, f c && g c)) with c;
        [vm_compute; reflexivity | by rewrite H1, H2]
  | H : _ = true |- _ => by vm_compute in H
  end.

Lemma check_end_inv (l : list ascii) (chk : option string) :
  Regex.check_end l = Some chk →
  match l with
  | [] => True
  | c :: l' =>
      closes_token c = true ∧ ∀ c' l'', l' = c' :: l'' → l'' = []
  end.
Proof.
  unfold Regex.check_end, closes_token. destruct l as [|c l']; [done|].
  destruct (Regex.check_class c) eqn:Hc; simpl.
  - destruct (Regex.at_end l') eqn:He.
    + intros _. split; [done|]. intros c' l'' ->. by destruct l''.
    + destruct l' as [|? ?]; [done|]. done.
  - destruct l' as [|c' l'']; [|done].
    destruct (Ascii.eqb c "010"); [|done]. intros _. split; [done|]. done.
Qed.

Lemma pawn_inv (ic : bool) (l : list ascii) (d : MoveDetails) :
  Regex.pawn ic l = Some d →
  (∃ o x f r tl chk,
      l = o :: x :: f :: r :: tl ∧ Regex.file_class ic o = true
      ∧ Regex.letter ic "x" x = true ∧ Regex.file_class ic f = true
      ∧ Regex.rank_2_7 r = true ∧ Regex.check_end tl = Some chk
      ∧ d = PawnToken (Some (Py.lower (String o "")))
                      (Some (Py.lower (String x "")))
                      (Py.lower (Py.str [f; r])) chk)
  ∨ (∃ f r tl chk,
      l = f :: r :: tl ∧ Regex.file_class ic f = true
      ∧ Regex.rank_2_7 r = true ∧ Regex.check_end tl = Some chk
      ∧ d = PawnToken None None (Py.lower (Py.str [f; r])) chk).
Proof.
  unfold Regex.pawn.
  intros [(o & x & rest & -> & Ho & Hx & H)|H]%capture_prefix_inv.
  - destruct rest as [|f [|r tl]]; try done.
    destruct (Regex.file_class ic f) eqn:Hf; [|done].
    destruct (Regex.rank_2_7 r) eqn:Hr; [|done]. simpl in H.
    destruct (Regex.check_end tl) as [chk|] eqn:Hchk; [|done].
    injection H as <-. left. by exists o, x, f, r, tl, chk.
  - destruct l as [|f [|r tl]]; try done.
    destruct (Regex.file_class ic f) eqn:Hf; [|done].
    destruct (Regex.rank_2_7 r) eqn:Hr; [|done]. simpl in H.
    destruct (Regex.check_end tl) as [chk|] eqn:Hchk; [|done].
    injection H as <-. right. by exists f, r, tl, chk.
Qed.

Lemma promotion_inv (ic : bool) (l : list ascii) (d : MoveDetails) :
  Regex.promotion ic l = Some d →
  (∃ o x f r pr tl,
      l = o :: x :: f :: r :: "="%char :: pr :: tl
      ∧ Regex.letter ic "x" x = true ∧ Regex.file_class ic f = true
      ∧ Regex.rank_1_or_8 r = true)
  ∨ (∃ f r pr tl,
      l = f :: r :: "="%char :: pr :: tl ∧ Regex.file_class ic f = true
      ∧ Regex.rank_1_or_8 r = true).
Proof.
  unfold Regex.promotion.
  intros [(o & x & rest & -> & Ho & Hx & H)|H]%capture_prefix_inv.
  - destruct rest as [|f [|r [|e [|pr tl]]]]; try done.
    destruct (Regex.file_class ic f) eqn:Hf; [|done].
    destruct (Regex.rank_1_or_8 r) eqn:Hr; [|done].
    destruct (Ascii.eqb_spec e "=") as [->|]; [|done].
    left. by exists o, x, f, r, pr, tl.
  - destruct l as [|f [|r [|e [|pr tl]]]]; try done.
    destruct (Regex.file_class ic f) eqn:Hf; [|done].
    destruct (Regex.rank_1_or_8 r) eqn:Hr; [|done].
    destruct (Ascii.eqb_spec e "=") as [->|]; [|done].
    right. by exists f, r, pr, tl.
Qed.

Lemma piece_tail_inv (ic : bool) (pc : ascii) (o : option string)
    (l : list ascii) (d : MoveDetails) :
  Regex.piece_tail ic pc o l = Some d →
  (∃ x f r tl chk,
      l = x :: f :: r :: tl ∧ Regex.letter ic "x" x = true
      ∧ Regex.file_class ic f = true ∧ Regex.rank_1_8 r = true
      ∧ Regex.check_end tl = Some chk
      ∧ d = PieceToken (Py.upper (String pc "")) (Regex.opt_lower o)
                       (Some (Py.lower (String x "")))
                       (Py.lower (Py.str [f; r])) chk)
  ∨ (∃ f r tl chk,
      l = f :: r :: tl ∧ Regex.file_class ic f = true
      ∧ Regex.rank_1_8 r = true ∧ Regex.check_end tl = Some chk
      ∧ d = PieceToken (Py.upper (String pc "")) (Regex.opt_lower o) None
                       (Py.lower (Py.str [f; r])) chk).
Proof.
  unfold Regex.piece_tail. intros [H|H]%orelse_inv.
  - destruct l as [|x [|f [|r tl]]]; try done;
      destruct (Regex.letter ic "x" x) eqn:Hx; try done.
    destruct (Regex.file_class ic f) eqn:Hf; [|done].
    destruct (Regex.rank_1_8 r) eqn:Hr; [|done]. simpl in H.
    destruct (Regex.check_end tl) as [chk|] eqn:Hchk; [|done].
    injection H as <-. left. by exists x, f, r, tl, chk.
  - destruct l as [|f [|r tl]]; try done.
    destruct (Regex.file_class ic f) eqn:Hf; [|done].
    destruct (Regex.rank_1_8 r) eqn:Hr; [|done]. simpl in H.
    destruct (Regex.check_end tl) as [chk|] eqn:Hchk; [|done].
    injection H as <-. right. by exists f, r, tl, chk.
Qed.

Lemma piece_inv (ic : bool) (l : list ascii) (d : MoveDetails) :
  Regex.piece ic l = Some d →
  ∃ pc rest,
    l = pc :: rest ∧ Regex.piece_class ic pc = true
    ∧ ((∃ o rest', rest = o :: rest'
                   ∧ (Regex.file_class ic o = true ∨ Regex.rank_1_8 o = true)
                   ∧ Regex.piece_tail ic pc (Some (String o "")) rest' = Some d)
       ∨ Regex.piece_tail ic pc None rest = Some d).
Proof.
  unfold Regex.piece. destruct l as [|pc rest]; [done|].
  destruct (Regex.piece_class ic pc) eqn:Hpc; [|done].
  intros H. exists pc, rest. split; [done|]. split; [done|].
  apply orelse_inv in H as [H|H]; [|by right].
  destruct rest as [|o rest']; [done|].
  destruct (Regex.file_class ic o || Regex.rank_1_8 o) eqn:Ho; [|done].
  left. exists o, rest'. split; [done|]. split; [|done].
  by apply orb_true_iff in Ho.
Qed.

Lemma castling_inv (ic : bool) (l : list ascii) (d : MoveDetails) :
  Regex.castling ic l = Some d →
  ∃ o rest, l = o :: rest ∧ Regex.letter ic "O" o = true.
Proof.
  unfold Regex.castling. destruct l as [|o1 [|d1 [|o2 rest]]]; try done.
  destruct (Regex.letter ic "O" o1) eqn:H1; [|done]. by eexists _, _.
Qed.

(** A pawn reading excludes a promotion reading. *)
Lemma pawn_not_promotion (ic : bool) (l : list ascii) (d d' : MoveDetails) :
  Regex.pawn ic l = Some d → Regex.promotion ic l = Some d' → False.
Proof.
  intros [(o & x & f & r & tl & chk & -> & Ho & Hx & Hf & Hr & Hchk & _)
         |(f & r & tl & chk & -> & Hf & Hr & Hchk & _)]%pawn_inv
         [(o' & x' & f' & r' & pr & tl' & Hl & Hx' & Hf' & Hr')
         |(f' & r' & pr & tl' & Hl & Hf' & Hr')]%promotion_inv;
    simplify_eq; destruct ic; char_contra.
Qed.

(** A promotion reading excludes a piece reading. *)
Lemma promotion_not_piece (ic : bool) (l : list ascii) (d d' : MoveDetails) :
  Regex.promotion ic l = Some d → Regex.piece ic l = Some d' → False.
Proof.
  intros Hpromotion (pc & rest & -> & Hpc & Htail)%piece_inv.
  assert (∃ o tail, Regex.piece_tail ic pc o tail = Some d'
                    ∧ (rest = tail
                       ∨ ∃ c, rest = c :: tail
                              ∧ (Regex.file_class ic c = true
                                 ∨ Regex.rank_1_8 c = true)))
    as (o & tail & Htail' & Hrest).
  { destruct Htail as [(c & rest' & -> & Hc & Ht)|Ht].
    - exists (Some (String c "")), rest'. split; [done|]. right. by exists c.
    - exists None, rest. split; [done|]. by left. }
  clear Htail.
  apply piece_tail_inv in Htail'
    as [(x & f & r & tl & chk & -> & Hx & Hf & Hr & Hchk & _)
       |(f & r & tl & chk & -> & Hf & Hr & Hchk & _)];
  apply promotion_inv in Hpromotion
    as [(o' & x' & f' & r' & pr & tl' & Hl & Hx' & Hf' & Hr')
       |(f' & r' & pr & tl' & Hl & Hf' & Hr')];
  destruct Hrest as [->|(c & -> & [Hc|Hc])]; simplify_eq;
  try apply rank_1_or_8_1_8 in Hr';
  try match goal with
      | H : Regex.check_end (_ :: _) = Some _ |- _ =>
          apply check_end_inv in H as [? _]
      end;
  destruct ic; char_contra.
Qed.

(** A castling reading excludes every other one. *)
Lemma castling_alone (ic : bool) (l : list ascii) (d d' : MoveDetails) :
  Regex.castling ic l = Some d →
  Regex.pawn ic l = Some d' ∨ Regex.promotion ic l = Some d'
  ∨ Regex.piece ic l = Some d' →
  False.
Proof.
  intros (o & rest & -> & Ho)%castling_inv [H|[H|H]].
  - apply pawn_inv in H as [(? & ? & ? & ? & ? & ? & ? & ? & _)
                            |(? & ? & ? & ? & ? & ? & _)];
      simplify_eq; destruct ic; char_contra.
  - unfold Regex.promotion in H.
    apply capture_prefix_inv in H as [(? & ? & ? & ? & ? & _)|H].
    + simplify_eq; destruct ic; char_contra.
    + destruct rest as [|r [|e [|pr tl]]]; try done.
      destruct (Regex.file_class ic o) eqn:Hf; [|done].
      destruct ic; char_contra.
  - apply piece_inv in H as (? & ? & ? & ? & _).
    simplify_eq; destruct ic; char_contra.
Qed.

Lemma file_and_piece (ic : bool) (c : ascii) :
  Regex.file_class ic c = true → Regex.piece_class ic c = true →
  ic = true ∧ Py.lower_char c = "b"%char ∧ Py.upper_char c = "B"%char.
Proof.
  intros Hf Hp.
  enough (implb (Regex.file_class ic c && Regex.piece_class ic c)
            (ic && Ascii.eqb (Py.lower_char c) "b"
             && Ascii.eqb (Py.upper_char c) "B") = true) as H.
  { rewrite Hf, Hp in H. simpl in H.
    apply andb_true_iff in H as [[-> ?%Ascii.eqb_eq]%andb_true_iff
                                 ?%Ascii.eqb_eq]. done. }
  clear. revert c. destruct ic; apply forall_ascii; vm_compute; reflexivity.
Qed.

(** A token with a pawn reading and a piece reading is a capture by a
    b-pawn or a bishop, read without regard to case. *)
Lemma pawn_and_piece (ic : bool) (l : list ascii) (d d' : MoveDetails) :
  Regex.pawn ic l = Some d → Regex.piece ic l = Some d' →
  ic = true
  ∧ ∃ dest chk, d = PawnToken (Some "b") (Some "x") dest chk
                ∧ d' = PieceToken "B" None (Some "x") dest chk.
Proof.
  intros Hpawn (pc & rest & -> & Hpc & Htail)%piece_inv.
  assert (∃ o tail, Regex.piece_tail ic pc o tail = Some d'
                    ∧ (rest = tail ∧ o = None
                       ∨ ∃ c, rest = c :: tail
                              ∧ (Regex.file_class ic c = true
                                 ∨ Regex.rank_1_8 c = true)))
    as (o & tail & Htail' & Hrest).
  { destruct Htail as [(c & rest' & -> & Hc & Ht)|Ht].
    - exists (Some (String c "")), rest'. split; [done|]. right. by exists c.
    - exists None, rest. split; [done|]. by left. }
  clear Htail.
  apply piece_tail_inv in Htail'
    as [(x & f & r & tl & chk & -> & Hx & Hf & Hr & Hchk & ->)
       |(f & r & tl & chk & -> & Hf & Hr & Hchk & ->)];
  apply pawn_inv in Hpawn
    as [(o' & x' & f' & r' & tl' & chk' & Hl & Ho' & Hx' & Hf' & Hr' & Hchk'
         & ->)
       |(f' & r' & tl' & chk' & Hl & Hf' & Hr' & Hchk' & ->)];
  destruct Hrest as [[-> ->]|(c & -> & [Hc|Hc])]; simplify_eq;
  try apply rank_2_7_1_8 in Hr';
  try match goal with
      | H : Regex.check_end (_ :: _) = Some _ |- _ =>
          apply check_end_inv in H as [? Hshort]
      end;
  try (by specialize (Hshort _ _ eq_refl));
  try (destruct ic; char_contra).
  destruct (file_and_piece _ _ Ho' Hpc) as (-> & Hlower & Hupper).
  split; [done|]. eexists _, _.
  unfold Py.lower, Py.upper, Py.chars, Py.str.
  cbn [list_ascii_of_string string_of_list_ascii map Regex.opt_lower fmap
       option_fmap option_map].
  rewrite Hlower, Hupper, (letter_x_lower _ _ Hx). done.
Qed.

(** X23: a token has two readings only when case is ignored and the token
    is a capture that starts with b or B: the readings are then the b-pawn
    capture and the bishop capture of the same square, in this order.  No
    token has three readings, and with case respected none has two. *)
Theorem parse_move_ambiguous_only_for_b_captures (player_move : string)
    (ic : bool) (ds : list MoveDetails) :
  parse_move player_move ic = Ok (Ambiguous ds) →
  ic = true
  ∧ ∃ dest chk, ds = [PawnToken (Some "b") (Some "x") dest chk;
                      PieceToken "B" None (Some "x") dest chk].
Proof.
  unfold parse_move. cbn [omap list_omap].
  destruct (Regex.pawn ic _) as [d1|] eqn:H1;
    destruct (Regex.promotion ic _) as [d2|] eqn:H2;
    destruct (Regex.piece ic _) as [d3|] eqn:H3;
    destruct (Regex.castling ic _) as [d4|] eqn:H4; try done;
    try (by destruct (pawn_not_promotion _ _ _ _ H1 H2));
    try (by destruct (promotion_not_piece _ _ _ _ H2 H3));
    try (by destruct (castling_alone _ _ _ d1 H4); auto);
    try (by destruct (castling_alone _ _ _ d2 H4); auto);
    try (by destruct (castling_alone _ _ _ d3 H4); auto).
  intros [= <-].
  destruct (pawn_and_piece _ _ _ _ H1 H3) as (-> & dest & chk & -> & ->).
  split; [done|]. by exists dest, chk.
Qed.

Lemma parse_move_ambiguous_only_for_b_captures_witness :
  true = true
  ∧ ∃ dest chk,
      [PawnToken (Some "b") (Some "x") "c4" None;
       PieceToken "B" None (Some "x") "c4" None]
      = [PawnToken (Some "b") (Some "x") dest chk;
         PieceToken "B" None (Some "x") dest chk].
Proof.
  apply (parse_move_ambiguous_only_for_b_captures "Bxc4" true).
  vm_compute. reflexivity.
Defined.

(** ** Normalised text *)

Lemma one_of_elem (l : list string) (s : string) :
  one_of l s = true → s ∈ l.
Proof.
  unfold one_of. intros (s' & Hin & ->%String.eqb_eq)%existsb_exists.
  by apply list_elem_of_In.
Qed.

Lemma chars_one (s : string) (c : ascii) :
  Py.chars s = [c] → s = one_char c.
Proof. destruct s as [|c' [|? ?]]; simpl; intros [=]. by subst. Qed.

Lemma chars_two (s : string) (f r : ascii) :
  Py.chars s = [f; r] → s = String f (String r "").
Proof. destruct s as [|? [|? [|? ?]]]; simpl; intros [=]. by subst. Qed.

(** What the patterns see of a lower-case file letter and of a rank
    digit. *)
Lemma file_facts (ic : bool) (c : ascii) :
  Regex.file_class false c = true →
  Regex.file_class ic c = true ∧ Regex.letter ic "x" c = false
  ∧ Regex.rank_1_8 c = false ∧ Py.lower_char c = c.
Proof.
  intros H.
  enough (implb (Regex.file_class false c)
            (Regex.file_class ic c && negb (Regex.letter ic "x" c)
             && negb (Regex.rank_1_8 c) && Ascii.eqb (Py.lower_char c) c)
          = true) as Hc.
  { rewrite H in Hc. simpl in Hc.
    apply andb_true_iff in Hc as [[[? ?%negb_true_iff]%andb_true_iff
      ?%negb_true_iff]%andb_true_iff ?%Ascii.eqb_eq]. done. }
  clear. revert c. destruct ic; apply forall_ascii; vm_compute; reflexivity.
Qed.

Lemma rank_facts (ic : bool) (c : ascii) :
  Regex.rank_1_8 c = true →
  Regex.file_class ic c = false ∧ Regex.letter ic "x" c = false
  ∧ Py.lower_char c = c.
Proof.
  intros H.
  enough (implb (Regex.rank_1_8 c)
            (negb (Regex.file_class ic c) && negb (Regex.letter ic "x" c)
             && Ascii.eqb (Py.lower_char c) c)
          = true) as Hc.
  { rewrite H in Hc. simpl in Hc.
    apply andb_true_iff in Hc as [[?%negb_true_iff ?%negb_true_iff]%andb_true_iff
      ?%Ascii.eqb_eq]. done. }
  clear. revert c. destruct ic; apply forall_ascii; vm_compute; reflexivity.
Qed.

Lemma check_end_component (chk : option string) :
  normal_mark ["+"; "#"] chk = true →
  Regex.check_end (Py.chars (from_option id "" chk)) = Some chk.
Proof.
  destruct chk as [s|]; [|done]. cbn [normal_mark].
  intros Hs%one_of_elem.
  repeat (apply elem_of_cons in Hs as [->|Hs]); [done..|].
  by apply elem_of_nil in Hs.
Qed.

Lemma square_in_inv (ranks : ascii → bool) (square : string) :
  square_in ranks square = true →
  ∃ f r, square = String f (String r "")
         ∧ Regex.file_class false f = true ∧ ranks r = true.
Proof.
  unfold square_in.
  destruct (Py.chars square) as [|f [|r [|? ?]]] eqn:Hs; try done.
  apply chars_two in Hs as ->. intros [? ?]%andb_true_iff. by exists f, r.
Qed.

Lemma pawn_prefix_inv (o x : option string) :
  normal_hint false o = true → normal_mark ["x"] x = true →
  (is_Some o ↔ is_Some x) →
  (o = None ∧ x = None)
  ∨ ∃ c, o = Some (one_char c) ∧ x = Some "x"
         ∧ Regex.file_class false c = true.
Proof.
  intros Ho Hx Hiff. destruct o as [s|], x as [s'|].
  - right. unfold normal_hint, normal_mark in Ho, Hx.
    destruct (Py.chars s) as [|c [|? ?]] eqn:Hs; try done.
    apply chars_one in Hs as ->. rewrite orb_false_r in Ho.
    apply one_of_elem, list_elem_of_singleton in Hx as ->. by exists c.
  - destruct Hiff as [Hiff _]. by destruct (Hiff (mk_is_Some _ _ eq_refl)).
  - destruct Hiff as [_ Hiff]. by destruct (Hiff (mk_is_Some _ _ eq_refl)).
  - by left.
Qed.

Lemma lower_two (f r : ascii) :
  Py.lower_char f = f → Py.lower_char r = r →
  Py.lower (Py.str [f; r]) = String f (String r "").
Proof.
  intros Hf Hr. unfold Py.lower. rewrite chars_str. simpl. by rewrite Hf, Hr.
Qed.

Lemma letter_x (ic : bool) : Regex.letter ic "x" "x" = true.
Proof. by destruct ic. Qed.

(** The characters of the text of a token. *)
Ltac token_text :=
  cbn [normalized_move from_option id one_char String.eqb]; rewrite ?chars_app;
  cbn [Py.chars list_ascii_of_string app one_char];
  change (list_ascii_of_string ?s) with (Py.chars s).

(** The tests of a pattern on the characters that are known. *)
Ltac known_tests :=
  repeat match goal with
         | |- context [Regex.promo_class ?i (Ascii ?a ?b ?c ?d ?e ?f ?g ?h)] =>
             let t := constr:(Regex.promo_class i (Ascii a b c d e f g h)) in
             let v := eval vm_compute in t in change t with v
         | |- context [Regex.piece_class ?i (Ascii ?a ?b ?c ?d ?e ?f ?g ?h)] =>
             let t := constr:(Regex.piece_class i (Ascii a b c d e f g h)) in
             let v := eval vm_compute in t in change t with v
         | |- context [Ascii.eqb (Ascii ?a ?b ?c ?d ?e ?f ?g ?h)
                                 (Ascii ?a' ?b' ?c' ?d' ?e' ?f' ?g' ?h')] =>
             let t := constr:(Ascii.eqb (Ascii a b c d e f g h)
                                        (Ascii a' b' c' d' e' f' g' h')) in
             let v := eval vm_compute in t in change t with v
         | |- context [Regex.file_class ?i (Ascii ?a ?b ?c ?d ?e ?f ?g ?h)] =>
             let t := constr:(Regex.file_class i (Ascii a b c d e f g h)) in
             let v := eval vm_compute in t in change t with v
         | |- context [Regex.rank_1_8 (Ascii ?a ?b ?c ?d ?e ?f ?g ?h)] =>
             let t := constr:(Regex.rank_1_8 (Ascii a b c d e f g h)) in
             let v := eval vm_compute in t in change t with v
         | |- context [Regex.check_class (Ascii ?a ?b ?c ?d ?e ?f ?g ?h)] =>
             let t := constr:(Regex.check_class (Ascii a b c d e f g h)) in
             let v := eval vm_compute in t in change t with v
         | |- context [Regex.letter ?i (Ascii ?a ?b ?c ?d ?e ?f ?g ?h)
                                    (Ascii ?a' ?b' ?c' ?d' ?e' ?f' ?g' ?h')] =>
             let t := constr:(Regex.letter i (Ascii a b c d e f g h)
                                           (Ascii a' b' c' d' e' f' g' h')) in
             let v := eval vm_compute in t in change t with v
         | |- context [Py.upper_char (Ascii ?a ?b ?c ?d ?e ?f ?g ?h)] =>
             let t := constr:(Py.upper_char (Ascii a b c d e f g h)) in
             let v := eval vm_compute in t in change t with v
         end.

(** The result of a pattern, once its tests have been decided. *)
Ltac token_result :=
  cbn [andb orb Regex.orelse mbind option_bind Regex.opt_lower fmap
       option_fmap option_map];
  rewrite ?lower_two by done;
  unfold Py.lower, Py.upper, Py.chars, Py.str;
  cbn [list_ascii_of_string string_of_list_ascii map].

(** The pawn pattern on the text of a pawn token. *)
Lemma pawn_reads_back (ic : bool) (o x : option string) (dest : string)
    (chk : option string) :
  normal_details (PawnToken o x dest chk) = true →
  Regex.pawn ic (Py.chars (normalized_move (PawnToken o x dest chk)))
  = Some (PawnToken o x dest chk).
Proof.
  cbn [normal_details]. rewrite !andb_true_iff.
  intros ((((Ho & Hx) & Hiff%bool_decide_eq_true) & Hdest) & Hchk).
  apply square_in_inv in Hdest as (f & r & -> & Hf & Hr).
  apply rank_2_7_1_8 in Hr as Hr'.
  destruct (file_facts ic f Hf) as (Hf1 & Hf2 & Hf3 & Hf4).
  destruct (rank_facts ic r Hr') as (Hr1 & Hr2 & Hr3).
  apply check_end_component in Hchk.
  destruct (pawn_prefix_inv o x Ho Hx Hiff) as [[-> ->]|(c & -> & -> & Hc)].
  - token_text. unfold Regex.pawn, Regex.capture_prefix.
    rewrite Hf1, Hr2, Hr, Hchk. by token_result.
  - destruct (file_facts ic c Hc) as (Hc1 & Hc2 & Hc3 & Hc4).
    token_text. unfold Regex.pawn, Regex.capture_prefix.
    rewrite Hc1, letter_x, Hf1, Hr, Hchk. token_result. by rewrite Hc4.
Qed.

(** The promotion pattern on the text of a promotion token. *)
Lemma promotion_reads_back (ic : bool) (o x : option string)
    (dest promo : string) (chk : option string) :
  normal_details (PromotionToken o x dest promo chk) = true →
  Regex.promotion ic
    (Py.chars (normalized_move (PromotionToken o x dest promo chk)))
  = Some (PromotionToken o x dest promo chk).
Proof.
  cbn [normal_details]. rewrite !andb_true_iff.
  intros (((((Ho & Hx) & Hiff%bool_decide_eq_true) & Hdest) & Hpromo) & Hchk).
  apply square_in_inv in Hdest as (f & r & -> & Hf & Hr).
  apply rank_1_or_8_1_8 in Hr as Hr'.
  destruct (file_facts ic f Hf) as (Hf1 & Hf2 & Hf3 & Hf4).
  destruct (rank_facts ic r Hr') as (Hr1 & Hr2 & Hr3).
  apply check_end_component in Hchk.
  apply one_of_elem in Hpromo.
  destruct (pawn_prefix_inv o x Ho Hx Hiff) as [[-> ->]|(c & -> & -> & Hc)].
  - repeat (apply elem_of_cons in Hpromo as [->|Hpromo]);
      [..|by apply elem_of_nil in Hpromo].
    all: token_text; unfold Regex.promotion, Regex.capture_prefix.
    all: rewrite Hf1, Hr2, Hr, Hchk.
    all: destruct ic; known_tests; by token_result.
  - destruct (file_facts ic c Hc) as (Hc1 & Hc2 & Hc3 & Hc4).
    repeat (apply elem_of_cons in Hpromo as [->|Hpromo]);
      [..|by apply elem_of_nil in Hpromo].
    all: token_text; unfold Regex.promotion, Regex.capture_prefix.
    all: rewrite Hc1, letter_x, Hf1, Hr, Hchk.
    all: destruct ic; known_tests; token_result; by rewrite Hc4.
Qed.

Lemma normal_mark_cases (marks : list string) (m : option string) :
  normal_mark marks m = true → m = None ∨ ∃ s, m = Some s ∧ s ∈ marks.
Proof.
  destruct m as [s|]; [|by left]. intros Hs%one_of_elem. right. by exists s.
Qed.

Lemma normal_hint_cases (o : option string) :
  normal_hint true o = true →
  o = None
  ∨ ∃ c, o = Some (one_char c)
         ∧ (Regex.file_class false c = true ∨ Regex.rank_1_8 c = true).
Proof.
  destruct o as [s|]; [|by left]. unfold normal_hint.
  destruct (Py.chars s) as [|c [|? ?]] eqn:Hs; try done.
  apply chars_one in Hs as ->. intros H. right. exists c. split; [done|].
  apply orb_true_iff in H as [?|?]; auto.
Qed.

(** The piece pattern on the text of a piece token. *)
Lemma piece_reads_back (ic : bool) (pc : string) (o x : option string)
    (dest : string) (chk : option string) :
  normal_details (PieceToken pc o x dest chk) = true →
  Regex.piece ic (Py.chars (normalized_move (PieceToken pc o x dest chk)))
  = Some (PieceToken pc o x dest chk).
Proof.
  cbn [normal_details]. rewrite !andb_true_iff.
  intros ((((Hpc%one_of_elem & Ho) & Hx) & Hdest) & Hchk).
  apply square_in_inv in Hdest as (f & r & -> & Hf & Hr).
  destruct (file_facts ic f Hf) as (Hf1 & Hf2 & Hf3 & Hf4).
  destruct (rank_facts ic r Hr) as (Hr1 & Hr2 & Hr3).
  assert (∃ h, (o = None ∧ h = [])
               ∨ (∃ c, o = Some (one_char c) ∧ h = [c]
                       ∧ (Regex.file_class ic c || Regex.rank_1_8 c) = true
                       ∧ Regex.letter ic "x" c = false
                       ∧ Py.lower_char c = c)) as (h & Hh).
  { destruct (normal_hint_cases o Ho) as [->|(c & -> & [Hc|Hc])].
    - exists []. by left.
    - exists [c]. right. exists c.
      destruct (file_facts ic c Hc) as (-> & -> & _ & ->). done.
    - exists [c]. right. exists c.
      destruct (rank_facts ic c Hc) as (-> & -> & ->). by rewrite Hc. }
  destruct (normal_mark_cases _ _ Hx) as [->|(? & -> & ->%list_elem_of_singleton)];
  destruct (normal_mark_cases _ _ Hchk) as [->|(s & -> & Hs)];
  repeat (apply elem_of_cons in Hs as [->|Hs]);
  try (by apply elem_of_nil in Hs);
  repeat (apply elem_of_cons in Hpc as [->|Hpc]);
  try (by apply elem_of_nil in Hpc);
  destruct Hh as [[-> ->]|(c & -> & -> & Hc1 & Hc2 & Hc3)];
  token_text; unfold Regex.piece, Regex.piece_tail, Regex.check_end;
  destruct ic;
  rewrite ?Hc1, ?Hc2, ?Hf1, ?Hf2, ?Hf3, ?Hr, ?Hr1, ?Hr2;
  known_tests; token_result; known_tests;
  rewrite ?Hc3; reflexivity.
Qed.

(** The castling pattern on the text of a castling token. *)
Lemma castling_reads_back (ic : bool) (side : string) (chk : option string) :
  normal_details (CastlingToken side chk) = true →
  Regex.castling ic (Py.chars (normalized_move (CastlingToken side chk)))
  = Some (CastlingToken side chk).
Proof.
  cbn [normal_details]. rewrite !andb_true_iff.
  intros (Hside%one_of_elem & Hchk).
  destruct (normal_mark_cases _ _ Hchk) as [->|(s & -> & Hs)];
  repeat (apply elem_of_cons in Hs as [->|Hs]);
  try (by apply elem_of_nil in Hs);
  repeat (apply elem_of_cons in Hside as [->|Hside]);
  try (by apply elem_of_nil in Hside);
  destruct ic; reflexivity.
Qed.

(** The pattern of its own kind matches the normalised text of normal
    details and gives these details back. *)
Lemma normalized_move_matches (ic : bool) (d : MoveDetails) :
  normal_details d = true →
  d ∈ omap (λ pattern, pattern ic (Py.chars (normalized_move d)))
           [Regex.pawn; Regex.promotion; Regex.piece; Regex.castling].
Proof.
  intros Hd. apply list_elem_of_omap.
  destruct d.
  - exists Regex.pawn. split; [left|by apply pawn_reads_back].
  - exists Regex.promotion.
    split; [right; left|by apply promotion_reads_back].
  - exists Regex.piece.
    split; [right; right; left|by apply piece_reads_back].
  - exists Regex.castling.
    split; [right; right; right; left|by apply castling_reads_back].
Qed.

(** X24: the text that [normalize_move_data] rebuilds from normalised
    details is itself a token, and [parse_move] reads it back to the same
    details, whether case is ignored or not: as the only reading, or as one
    of two where the text is a capture that starts with b. *)
Theorem normalized_move_reads_back (ic : bool) (d : MoveDetails) :
  normal_details d = true →
  ∃ parsed, parse_move (normalized_move d) ic = Ok parsed
            ∧ d ∈ readings parsed.
Proof.
  intros Hin%(normalized_move_matches ic). unfold parse_move.
  destruct (omap _ _) as [|d1 [|d2 ds]]; [by apply elem_of_nil in Hin|..];
    by eexists.
Qed.

Lemma normalized_move_reads_back_witness :
  ∃ parsed,
    parse_move (normalized_move (PieceToken "N" (Some "b") None "d7" None))
               true = Ok parsed
    ∧ PieceToken "N" (Some "b") None "d7" None ∈ readings parsed.
Proof.
  apply (normalized_move_reads_back true
           (PieceToken "N" (Some "b") None "d7" None)).
  reflexivity.
Defined.

(** ** How a validated move prints *)

Section with_set_order.
Context (set_order : list string → list string).

Lemma validate_move_prints_pawn (game : loc) (player : Colour)
    (g : GameState) (o x : option string) (dest : string)
    (chk : option string) :
  normal_details (PawnToken o x dest chk) = true →
  tracks game g (validate_move set_order (PawnToken o x dest chk) game player)
    (λ v _, ∀ m, v = VMove m →
                 Move_str m = Ok (normalized_move (PawnToken o x dest None))).
Proof.
  cbn [normal_details]. rewrite !andb_true_iff.
  intros ((((Ho & Hx) & Hiff%bool_decide_eq_true) & Hdest) & Hchk).
  apply square_in_inv in Hdest as (f & r & -> & Hf & Hr).
  unfold validate_move.
  repeat first [tracks_legal | tracks_step]; try done.
  all: intros m [= <-].
  all: apply bool_decide_eq_true in Heqb1.
  all: unfold Move_str; cbn [special mpiece is_capture origin destination
                             check_str promote disambiguation].
  all: rewrite Heqb1; cbn [attr mbind result_bind].
  all: change (has_type (piece Pawn player) Pawn) with true; cbv iota.
  all: destruct (pawn_prefix_inv o x Ho Hx Hiff)
         as [[-> ->]|(c & -> & -> & Hc)].
  all: destruct (bool_decide (Some _ = en_passant_target _));
         destruct (board_contains _ _); try done.
  all: by simpl.
Qed.

Lemma validate_move_prints_promotion (game : loc) (player : Colour)
    (g : GameState) (o x : option string) (dest promo : string)
    (chk : option string) :
  normal_details (PromotionToken o x dest promo chk) = true →
  tracks game g
    (validate_move set_order (PromotionToken o x dest promo chk) game player)
    (λ v _, ∀ m, v = VMove m →
                 Move_str m
                 = Ok (normalized_move (PromotionToken o x dest promo None))).
Proof.
  cbn [normal_details]. rewrite !andb_true_iff.
  intros (((((Ho & Hx) & Hiff%bool_decide_eq_true) & Hdest) & Hpromo) & Hchk).
  apply square_in_inv in Hdest as (f & r & -> & Hf & Hr).
  apply one_of_elem in Hpromo.
  unfold validate_move.
  repeat first [tracks_legal | tracks_step]; try done.
  all: intros m Hm; destruct a3; [|done]; injection Hm as <-.
  all: apply bool_decide_eq_true in Heqb1.
  all: unfold Move_str; cbn [special mpiece is_capture origin destination
                             check_str promote disambiguation].
  all: rewrite Heqb1; cbn [attr mbind result_bind].
  all: change (has_type (piece Pawn player) Pawn) with true; cbv iota.
  all: destruct (pawn_prefix_inv o x Ho Hx Hiff)
         as [[-> ->]|(c & -> & -> & Hc)].
  all: destruct (board_contains _ _); rewrite ?andb_false_r in *;
         simpl in Heqb, Heqb0; try done.
  all: repeat (apply elem_of_cons in Hpromo as [->|Hpromo]);
         try (by apply elem_of_nil in Hpromo).
  all: by destruct player.
Qed.

Lemma append_assoc (s1 s2 s3 : string) :
  (s1 +:+ s2) +:+ s3 = s1 +:+ (s2 +:+ s3).
Proof.
  induction s1 as [|c s1 IH]; [done|].
  change (String c ((s1 +:+ s2) +:+ s3) = String c (s1 +:+ (s2 +:+ s3))).
  by rewrite IH.
Qed.

Lemma type_of_letter_piece (pc : string) :
  pc ∈ ["N"; "B"; "R"; "Q"; "K"] →
  ∃ t, type_of_letter pc = Some t ∧ type_letter t = pc ∧ t ≠ Pawn.
Proof.
  intros Hpc. repeat (apply elem_of_cons in Hpc as [->|Hpc]);
    [by eexists..|by apply elem_of_nil in Hpc].
Qed.

Lemma validate_move_prints_piece (game : loc) (player : Colour)
    (g : GameState) (pc : string) (o x : option string) (dest : string)
    (chk : option string) :
  normal_details (PieceToken pc o x dest chk) = true →
  tracks game g
    (validate_move set_order (PieceToken pc o x dest chk) game player)
    (λ v _, ∀ m, v = VMove m →
                 Move_str m
                 = Ok (normalized_move (PieceToken pc o x dest None))).
Proof.
  cbn [normal_details]. rewrite !andb_true_iff.
  intros ((((Hpc%one_of_elem & Ho) & Hx) & Hdest) & Hchk).
  apply square_in_inv in Hdest as (f & r & -> & Hf & Hr).
  destruct (type_of_letter_piece pc Hpc) as (t & Ht & Hletter & Hpawn).
  assert (∀ square capt,
            (capt = true ↔ is_Some x) →
            Move_str (mkMove square (String f (String r ""))
                             (Some (piece t player)) None None capt "" o)
            = Ok (normalized_move
                    (PieceToken pc o x (String f (String r "")) None)))
    as Hprint.
  { intros square capt Hcapt. unfold Move_str.
    cbn [special mpiece is_capture origin destination check_str promote
         disambiguation attr mbind result_bind piece ptype fmap option_fmap
         option_map format_opt].
    rewrite bool_decide_eq_false_2 by done.
    assert (has_type (piece t player) Pawn = false) as ->.
    { apply bool_decide_eq_false_2. by intros [= ->]. }
    rewrite Hletter.
    destruct (normal_mark_cases _ _ Hx)
      as [->|(? & -> & ->%list_elem_of_singleton)].
    - assert (capt = false) as ->.
      { destruct capt; [|done]. by destruct (proj1 Hcapt eq_refl). }
      destruct o as [h|]; cbn [normalized_move from_option id];
        by rewrite ?append_assoc.
    - rewrite (proj2 Hcapt (mk_is_Some _ _ eq_refl)).
      destruct o as [h|]; cbn [normalized_move from_option id];
        by rewrite ?append_assoc. }
  unfold validate_move. rewrite Ht.
  repeat first [tracks_legal | tracks_step]; try done.
  all: intros m Hm;
       repeat match goal with
              | H : (if ?b then VMove _ else VNone) = VMove _ |- _ =>
                  destruct b; [|done]
              end;
       injection Hm as <-.
  all: apply Hprint.
  all: rewrite andb_false_r in *; cbn [orb] in *.
  all: destruct (board_contains _ _), x; cbn [negb andb] in *;
       repeat case_bool_decide; split; try done;
       by (intros [? [=]] || eexists).
Qed.

Lemma validate_move_prints_castling (game : loc) (player : Colour)
    (g : GameState) (side : string) (chk : option string) :
  normal_details (CastlingToken side chk) = true →
  tracks game g
    (validate_move set_order (CastlingToken side chk) game player)
    (λ v _, ∀ m, v = VMove m →
                 Move_str m = Ok (normalized_move (CastlingToken side None))).
Proof.
  cbn [normal_details]. rewrite !andb_true_iff.
  intros (Hside%one_of_elem & Hchk).
  unfold validate_move.
  repeat first [tracks_legal | tracks_step]; try done.
  all: intros m Hm;
       repeat match goal with
              | H : (if ?b then VMove _ else VNone) = VMove _ |- _ =>
                  destruct b; [|done]
              end;
       injection Hm as <-.
  all: repeat (apply elem_of_cons in Hside as [->|Hside]);
         try (by apply elem_of_nil in Hside).
  all: by destruct player.
Qed.

Lemma normal_without_check (d : MoveDetails) :
  normal_details d = true → normal_details (without_check d) = true.
Proof.
  destruct d; cbn [normal_details without_check normal_mark];
    rewrite !andb_true_iff; tauto.
Qed.

(** X25: a move that [validate_move] returns for a token prints, by
    [str(move)], as the normalised text of that token without its check
    mark, and [parse_move] reads the printed text back to the details of
    the token. *)
Theorem validated_move_prints_as_its_token (deets : MoveDetails)
    (game : loc) (player : Colour) (h h' : heap) (g : GameState)
    (move : Move) :
  h !! game = Some g →
  normal_details deets = true →
  run (validate_move set_order deets game player) h = (Ok (VMove move), h') →
  Move_str move = Ok (normalized_move (without_check deets))
  ∧ ∃ parsed,
      parse_move (normalized_move (without_check deets)) true = Ok parsed
      ∧ without_check deets ∈ readings parsed.
Proof.
  intros Hg Hnormal Hrun. split.
  - destruct deets as [o x dest chk|o x dest promo chk|pc o x dest chk
                      |side chk].
    + destruct (validate_move_prints_pawn game player g o x dest chk
                  Hnormal h _ h' Hg Hrun) as (_ & _ & Hm). by apply Hm.
    + destruct (validate_move_prints_promotion game player g o x dest promo
                  chk Hnormal h _ h' Hg Hrun) as (_ & _ & Hm). by apply Hm.
    + destruct (validate_move_prints_piece game player g pc o x dest chk
                  Hnormal h _ h' Hg Hrun) as (_ & _ & Hm). by apply Hm.
    + destruct (validate_move_prints_castling game player g side chk
                  Hnormal h _ h' Hg Hrun) as (_ & _ & Hm). by apply Hm.
  - apply normal_without_check, (normalized_move_matches true) in Hnormal.
    unfold parse_move.
    destruct (omap _ _) as [|d1 [|d2 ds]];
      [by apply elem_of_nil in Hnormal|..]; by eexists.
Qed.
End with_set_order.

Lemma validated_move_prints_as_its_token_witness :
  Move_str (mkMove "g1" "f3" (Some (piece Knight white)) None None false ""
                   None)
  = Ok (normalized_move (without_check (PieceToken "N" None None "f3" None)))
  ∧ ∃ parsed,
      parse_move
        (normalized_move (without_check (PieceToken "N" None None "f3" None)))
        true = Ok parsed
      ∧ without_check (PieceToken "N" None None "f3" None) ∈ readings parsed.
Proof.
  apply (validated_move_prints_as_its_token id
           (PieceToken "N" None None "f3" None) 0%nat white [initial_game]
           (run (validate_move id (PieceToken "N" None None "f3" None)
                   0%nat white) [initial_game]).2 initial_game).
  - reflexivity.
  - reflexivity.
  - vm_compute. reflexivity.
Defined.

(** ** [generate_pgn] before the first move *)

Lemma GameState_new_no_history (fen : option string) (h h' : heap)
    (self : loc) :
  run (GameState_new fen) h = (Ok self, h') →
  ∃ g, h' !! self = Some g ∧ move_history g = [].
Proof.
  unfold run, GameState_new.
  unfold mbind at 1, M_bind at 1, alloc at 1.
  set (fen' := match fen with
               | Some f => if String.eqb f "" then FEN_INITIAL else f
               | None => FEN_INITIAL
               end).
  assert (match fen with
          | Some f => if String.eqb f "" then load_fen (List.length h) FEN_INITIAL
                      else load_fen (List.length h) f
          | None => load_fen (List.length h) FEN_INITIAL
          end = load_fen (List.length h) fen') as ->.
  { subst fen'. destruct fen as [f|]; [|done]. by destruct (String.eqb f ""). }
  destruct (load_fen_holds_at (List.length h) (λ g, move_history g = []) fen')
    with (h := h ++ [GameState_blank]) as [Hkeeps _]; try done.
  { exists GameState_blank. split; [|done]. by apply list_lookup_middle. }
  unfold mbind, M_bind.
  destruct (load_fen (List.length h) fen' (h ++ [GameState_blank]))
    as [[[]|e] h1]; [|done].
  by intros [= <- <-].
Qed.

(** X26: a game that was built from a position only has an empty move
    history, and [generate_pgn] starts by reading the last entry of the
    history: on such a game it raises IndexError, whatever range of moves is
    asked for. *)
Theorem generate_pgn_raises_before_first_move
    (set_order : list string → list string) (fen : option string)
    (h h' : heap) (self : loc) (g : GameState)
    (start_move end_move : option Z) :
  run (GameState_init set_order fen None) h = (Ok self, h') →
  h' !! self = Some g →
  generate_pgn g start_move end_move = Raise IndexError.
Proof.
  intros Hrun Hg.
  assert (run (GameState_new fen) h = (Ok self, h')) as Hnew.
  { revert Hrun. unfold run, GameState_init, mbind, M_bind, mret, M_ret.
    destruct (GameState_new fen h) as [[l|e] h1]; [|done].
    by intros [= <- <-]. }
  apply GameState_new_no_history in Hnew as (g' & Hg' & Hhistory).
  rewrite Hg in Hg'. injection Hg' as <-.
  unfold generate_pgn. by rewrite Hhistory.
Qed.

Lemma generate_pgn_raises_before_first_move_witness :
  generate_pgn initial_game (Some 1) None = Raise IndexError.
Proof.
  apply (generate_pgn_raises_before_first_move id None [] [initial_game]
           0%nat).
  - vm_compute. reflexivity.
  - reflexivity.
Defined.
